(** * MnasNet-A1 (mnasnet.py): the layer topology and its construction

    The program assembles a convolutional network out of the primitive
    layers of a tensor framework.  What the program itself decides is the
    topology: which layer is built with which channel counts, kernel sizes,
    strides and ratios, which assertions guard a block, and where a residual
    addition takes place.  This development embeds exactly that:

    - Python numbers as the constructors receive them ([int] as [Z],
      [float] as the kernel's binary64 [float]), with [*], [/] and [int()]
      as Python evaluates them;
    - the framework's layers as a datatype of constructor calls, the three
      classes of the program as functions that build values of it;
    - the forward methods, written once over an interface of tensor
      operations, and run here on shapes;
    - the parameter tensors of a model and [numel]. *)

From Stdlib Require Import ZArith QArith Qround List Bool Lia Floats.
Import ListNotations.

Local Open Scope Z_scope.

(** ** Exceptions and results *)

Module Py.

(** The exceptions a constructor or a forward pass of the program can end
    in.  [RuntimeError] is the framework's shape error; [IndexError] is
    raised for a dimension that a tensor does not have. *)
Inductive exn : Type :=
  | AssertionError
  | ValueError
  | OverflowError
  | ZeroDivisionError
  | RuntimeError
  | IndexError.

Inductive result (A : Type) : Type :=
  | Ok (a : A)
  | Raise (e : exn).

Arguments Ok {A} a.
Arguments Raise {A} e.

Definition bind {A B : Type} (r : result A) (k : A -> result B) : result B :=
  match r with
  | Ok a => k a
  | Raise e => Raise e
  end.

Definition assert_ (b : bool) : result unit :=
  if b then Ok tt else Raise AssertionError.

(** A [for] loop whose body may raise: the state is threaded from left to
    right and the first exception ends the loop. *)
Fixpoint foldM {A S : Type} (body : S -> A -> result S) (xs : list A) (s : S)
  : result S :=
  match xs with
  | [] => Ok s
  | x :: xs' => bind (body s x) (foldM body xs')
  end.

(** [enumerate(xs)] *)
Definition enumerate {A : Type} (xs : list A) : list (nat * A) :=
  combine (seq 0 (length xs)) xs.

(** [range(n)]; empty when [n <= 0]. *)
Definition range (n : Z) : list nat := seq 0 (Z.to_nat n).

End Py.

Export Py.

Declare Scope py_scope.
Delimit Scope py_scope with py.
Notation "x <- c1 ;; c2" := (bind c1 (fun x => c2))
  (at level 61, c1 at next level, right associativity) : py_scope.
Notation "c1 ;;; c2" := (bind c1 (fun _ => c2))
  (at level 61, right associativity) : py_scope.
Local Open Scope py_scope.

(** ** Python numbers *)

Module Num.

(** A Python [float] is a binary64 value.  Its arithmetic is the one the
    standard library specifies on [spec_float] ([SF64mul], [SF64div]); a
    value of the kernel's type [float] is read through [Prim2SF]. *)
Definition pyfloat : Type := spec_float.

(** A ratio or a multiplier handed to a constructor is a Python [int] or a
    Python [float]. *)
Inductive num : Type :=
  | PyInt (z : Z)
  | PyFloat (f : pyfloat).

Definition of_float (f : float) : num := PyFloat (Prim2SF f).

(** [float(z)]: the nearest binary64 value, ties to even; an integer beyond
    the range of binary64 raises [OverflowError]. *)
Definition float_of_int (z : Z) : result pyfloat :=
  match binary_normalize prec emax z 0 false with
  | S754_infinity _ => Raise OverflowError
  | sf => Ok sf
  end.

(** [int(f)]: truncation towards zero; [int(nan)] raises [ValueError],
    [int(inf)] raises [OverflowError]. *)
Definition int_of_float (f : pyfloat) : result Z :=
  match f with
  | S754_zero _ => Ok 0
  | S754_infinity _ => Raise OverflowError
  | S754_nan => Raise ValueError
  | S754_finite s m e =>
      let a := match e with
               | Zneg p => Z.pos m / 2 ^ Z.pos p
               | _ => Z.pos m * 2 ^ e
               end in
      Ok (if s then - a else a)
  end.

(** [int(x)] *)
Definition py_int (x : num) : result Z :=
  match x with
  | PyInt z => Ok z
  | PyFloat f => int_of_float f
  end.

(** [x * y]: exact on two integers; otherwise the integer operand is
    converted and the product is the binary64 one. *)
Definition py_mul (x y : num) : result num :=
  match x, y with
  | PyInt a, PyInt b => Ok (PyInt (a * b))
  | PyInt a, PyFloat g => f <- float_of_int a ;; Ok (PyFloat (SF64mul f g))
  | PyFloat f, PyInt b => g <- float_of_int b ;; Ok (PyFloat (SF64mul f g))
  | PyFloat f, PyFloat g => Ok (PyFloat (SF64mul f g))
  end.

(** The quotient of two integers as [/] returns it: the binary64 value
    nearest to the exact quotient, [OverflowError] when that is out of
    range. *)
Definition int_true_divide (a b : Z) : result pyfloat :=
  if b =? 0 then Raise ZeroDivisionError
  else
    let s := xorb (a <? 0) (b <? 0) in
    if a =? 0 then Ok (S754_zero s)
    else
      let '(mz, ez, lz) :=
        SFdiv_core_binary prec emax (Z.abs a) 0 (Z.abs b) 0 in
      match binary_round_aux prec emax s mz ez lz with
      | S754_infinity _ => Raise OverflowError
      | sf => Ok sf
      end.

Definition is_zero (f : pyfloat) : bool :=
  match f with S754_zero _ => true | _ => false end.

(** The quotient of two floats: a zero divisor raises. *)
Definition float_true_divide (f g : pyfloat) : result pyfloat :=
  if is_zero g then Raise ZeroDivisionError else Ok (SF64div f g).

(** [x / y]: true division, always a [float]. *)
Definition py_truediv (x y : num) : result num :=
  match x, y with
  | PyInt a, PyInt b => q <- int_true_divide a b ;; Ok (PyFloat q)
  | PyInt a, PyFloat g =>
      f <- float_of_int a ;; q <- float_true_divide f g ;; Ok (PyFloat q)
  | PyFloat f, PyInt b =>
      g <- float_of_int b ;; q <- float_true_divide f g ;; Ok (PyFloat q)
  | PyFloat f, PyFloat g => q <- float_true_divide f g ;; Ok (PyFloat q)
  end.

(** [x != 1] *)
Definition py_ne_1 (x : num) : bool :=
  match x with
  | PyInt a => negb (a =? 1)
  | PyFloat f => negb (SFeqb f (Prim2SF 1))
  end.

End Num.

Export Num.

(** ** The framework's layers and the objects the program builds *)

Module Torch.

#[local] Set Warnings "-register-all".

(** A built module is the record of the constructor call that made it.  The
    first eight constructors are the framework's layers, with the arguments
    the program passes (a scalar kernel size, stride or padding stands for
    the square one); [Sequential] is the framework's container; the last
    three are instances of the program's own classes, with the attributes
    their constructors set.

    A value of this type records what was asked for.  The framework
    refuses some requests when a layer is constructed (a group count that
    does not divide the channel counts, a tensor of negative extent): these
    checks are [Conv2d_init], [BatchNorm2d_init] and [Linear_init] below,
    and [constructible] is their conjunction over all layers of a
    module. *)
Inductive module : Type :=
  | Conv2d (in_channels out_channels kernel_size stride padding groups : Z)
           (bias : bool)
  | BatchNorm2d (num_features : Z)
  | ReLU
  | Sigmoid
  | AdaptiveAvgPool2d (output_size : Z)
  | AvgPool2d (kernel_size : Z)
  | Dropout (p : float)
  | Linear (in_features out_features : Z)
  | Sequential (layers : list module)
  | mkSqueezeExcitation (se : module)
  | mkMBConvBlock (use_residual : bool) (conv : module)
  | mkMnasNetA1 (features avg_pool classifier : module).

(** The operations on tensors that a forward pass uses.  The layers are
    the framework's; the program only composes them, adds ([x + y]) and
    multiplies ([x * y]) their results and reshapes once
    ([x.view(x.size(0), -1)]). *)
Class Tensor (T : Type) : Type := {
  conv2d : Z -> Z -> Z -> Z -> Z -> Z -> bool -> T -> result T;
  batch_norm2d : Z -> T -> result T;
  relu : T -> result T;
  sigmoid : T -> result T;
  adaptive_avg_pool2d : Z -> T -> result T;
  avg_pool2d : Z -> T -> result T;
  dropout : float -> T -> result T;
  linear : Z -> Z -> T -> result T;
  tensor_add : T -> T -> result T;
  tensor_mul : T -> T -> result T;
  view_rows : T -> result T
}.

Section Forward.
Context {T : Type} `{Tensor T}.

(** [Sequential.forward]: each layer in turn, [fwd] being the forward
    method of a layer. *)
Definition run_layers (fwd : module -> T -> result T)
  : list module -> T -> result T :=
  fix go (ls : list module) (x : T) : result T :=
    match ls with
    | [] => Ok x
    | l :: ls' => y <- fwd l x ;; go ls' y
    end.

(** The [forward] methods: the framework's for its layers and containers,
    and the three the program defines. *)
Fixpoint forward (m : module) (x : T) {struct m} : result T :=
  match m with
  | Conv2d i o k s p g b => conv2d i o k s p g b x
  | BatchNorm2d n => batch_norm2d n x
  | ReLU => relu x
  | Sigmoid => sigmoid x
  | AdaptiveAvgPool2d o => adaptive_avg_pool2d o x
  | AvgPool2d k => avg_pool2d k x
  | Dropout p => dropout p x
  | Linear i o => linear i o x
  | Sequential layers => run_layers forward layers x
  | mkSqueezeExcitation se =>
      (* return x * self.se(x) *)
      y <- forward se x ;; tensor_mul x y
  | mkMBConvBlock use_residual conv =>
      if use_residual then
        (* return x + self.conv(x) *)
        y <- forward conv x ;; tensor_add x y
      else
        (* return self.conv(x) *)
        forward conv x
  | mkMnasNetA1 features avg_pool classifier =>
      (* x = self.features(x); x = self.avg_pool(x);
         x = x.view(x.size(0), -1); x = self.classifier(x) *)
      x <- forward features x ;;
      x <- forward avg_pool x ;;
      x <- view_rows x ;;
      forward classifier x
  end.

End Forward.

(** The parameter tensors of a module, each by its shape, in the order of
    [model.parameters()]: a convolution owns a weight of shape
    [(out, in // groups, k, k)] and, with [bias], a bias of shape [(out,)];
    a batch normalisation a weight and a bias of shape [(n,)]; a linear
    layer a weight [(out, in)] and a bias [(out,)]. *)
Fixpoint parameters (m : module) : list (list Z) :=
  match m with
  | Conv2d i o k _ _ g b =>
      [o; i / g; k; k] :: (if b then [[o]] else [])
  | BatchNorm2d n => [[n]; [n]]
  | Linear i o => [[o; i]; [o]]
  | ReLU | Sigmoid | AdaptiveAvgPool2d _ | AvgPool2d _ | Dropout _ => []
  | Sequential layers => flat_map parameters layers
  | mkSqueezeExcitation se => parameters se
  | mkMBConvBlock _ conv => parameters conv
  | mkMnasNetA1 features avg_pool classifier =>
      parameters features ++ parameters avg_pool ++ parameters classifier
  end.

(** [p.numel()]: the number of elements of a tensor of that shape. *)
Definition tensor_numel (shape : list Z) : Z := fold_right Z.mul 1 shape.

End Torch.

Export Torch.

(** ** The program *)

(** [sum(...)] over integers. *)
Definition sum (xs : list Z) : Z := fold_right Z.add 0 xs.

(** [numel(model)] *)
Definition numel (model : module) : Z :=
  sum (map tensor_numel (parameters model)).

(** [class ConvBNReLU(nn.Sequential)]; the defaults are
    [kernel_size=1, stride=1, groups=1].  This is the module the
    constructor yields when the framework builds its layers;
    [ConvBNReLU_init] below is the constructor with the framework's
    checks. *)
Definition ConvBNReLU (in_planes out_planes kernel_size stride groups : Z)
  : module :=
  let padding := (kernel_size - 1) / 2 in
  Sequential
    [ Conv2d in_planes out_planes kernel_size stride padding groups false;
      BatchNorm2d out_planes;
      ReLU ].

(** [class SqueezeExcitation(nn.Module)] *)
Definition SqueezeExcitation (num_features reduced_dim : Z) : module :=
  mkSqueezeExcitation
    (Sequential
       [ AdaptiveAvgPool2d 1;
         Conv2d num_features reduced_dim 1 1 0 1 true;
         ReLU;
         Conv2d reduced_dim num_features 1 1 0 1 true;
         Sigmoid ]).

(** [x in xs] on integers *)
Definition in_list (x : Z) (xs : list Z) : bool := existsb (Z.eqb x) xs.

(** [int(in_planes * expand_ratio)] *)
Definition hidden_dim_of (in_planes : Z) (expand_ratio : num) : result Z :=
  p <- py_mul (PyInt in_planes) expand_ratio ;; py_int p.

(** [max(1, int(in_planes / reduction_ratio))] *)
Definition reduced_dim_of (in_planes : Z) (reduction_ratio : num) : result Z :=
  q <- py_truediv (PyInt in_planes) reduction_ratio ;;
  i <- py_int q ;;
  Ok (Z.max 1 i).

(** The body of [MBConvBlock.__init__] after the assertions: the list
    [layers] as the four steps [pw], [dw], [se], [pw-linear] extend it. *)
Definition MBConvBlock_layers
    (in_planes out_planes stride : Z) (expand_ratio : num)
    (kernel_size : Z) (reduction_ratio : num) : result (list module) :=
  hidden_dim <- hidden_dim_of in_planes expand_ratio ;;
  let layers := [] in
  (* pw *)
  let layers :=
    if negb (in_planes =? hidden_dim)
    then layers ++ [ConvBNReLU in_planes hidden_dim 1 1 1]
    else layers in
  (* dw *)
  let layers :=
    layers ++ [ConvBNReLU hidden_dim hidden_dim kernel_size stride hidden_dim] in
  (* se *)
  layers <-
    (if py_ne_1 reduction_ratio
     then reduced_dim <- reduced_dim_of in_planes reduction_ratio ;;
          Ok (layers ++ [SqueezeExcitation hidden_dim reduced_dim])
     else Ok layers) ;;
  (* pw-linear *)
  Ok (layers ++ [ Conv2d hidden_dim out_planes 1 1 0 1 false;
                  BatchNorm2d out_planes ]).

(** [class MBConvBlock(nn.Module)]; the defaults are
    [kernel_size=3, reduction_ratio=1, no_skip=False]. *)
Definition MBConvBlock
    (in_planes out_planes stride : Z) (expand_ratio : num)
    (kernel_size : Z) (reduction_ratio : num) (no_skip : bool)
  : result module :=
  let use_residual :=
    (in_planes =? out_planes) && (stride =? 1) && negb no_skip in
  assert_ (in_list stride [1; 2]) ;;;
  assert_ (in_list kernel_size [3; 5]) ;;;
  layers <- MBConvBlock_layers in_planes out_planes stride expand_ratio
                               kernel_size reduction_ratio ;;
  Ok (mkMBConvBlock use_residual (Sequential layers)).

Definition default_kernel_size : Z := 3.
Definition default_reduction_ratio : num := PyInt 1.
Definition default_no_skip : bool := false.

(** The table [settings] of [MnasNetA1.__init__]: rows [t, c, n, s, k, r]. *)
Definition settings : list (Z * Z * Z * Z * Z * Z) :=
  [ (1, 16, 1, 1, 3, 1);    (* SepConv_3x3 *)
    (6, 24, 2, 2, 3, 1);    (* MBConv6_3x3 *)
    (3, 40, 3, 2, 5, 4);    (* MBConv3_5x5, SE *)
    (6, 80, 4, 2, 3, 1);    (* MBConv6_3x3 *)
    (6, 112, 2, 1, 3, 4);   (* MBConv6_3x3, SE *)
    (6, 160, 3, 2, 5, 4);   (* MBConv6_5x5, SE *)
    (6, 320, 1, 1, 3, 1) ]. (* MBConv6_3x3 *)

(** [int(c * width_mult)] *)
Definition scaled (c : Z) (width_mult : float) : result Z :=
  p <- py_mul (PyInt c) (of_float width_mult) ;; py_int p.

(** The state of the two nested loops: the list [features] and the
    variable [in_channels]. *)
Definition loop_state : Type := (list module * Z)%type.

(** The body of [for j in range(n)]. *)
Definition repeat_body (out_channels s t k r : Z) (no_skip : bool)
    (st : loop_state) (j : nat) : result loop_state :=
  let '(features, in_channels) := st in
  let stride := if (j =? 0)%nat then s else 1 in
  b <- MBConvBlock in_channels out_channels stride (PyInt t) k (PyInt r) no_skip ;;
  Ok (features ++ [b], out_channels).

(** The body of [for i, (t, c, n, s, k, r) in enumerate(settings)]. *)
Definition stage_body (width_mult : float)
    (st : loop_state) (row : nat * (Z * Z * Z * Z * Z * Z))
  : result loop_state :=
  let '(i, (t, c, n, s, k, r)) := row in
  out_channels <- scaled c width_mult ;;
  let no_skip := if (i =? 0)%nat then true else false in
  foldM (repeat_body out_channels s t k r no_skip) (range n) st.

(** The dropout probability [0.2], as the binary64 value it denotes. *)
Definition dropout_p : float := 0x1.999999999999ap-3%float.

(** [class MnasNetA1(nn.Module)]; the defaults are
    [width_mult=1.0, num_classes=1000].  The statements of the constructor
    itself are followed here, with the exceptions they raise; the result
    records the layers asked for, and whether the framework builds them
    all is [constructible] of the result (it refuses a negative class
    count, for one). *)
Definition MnasNetA1 (width_mult : float) (num_classes : Z) : result module :=
  c0 <- scaled 32 width_mult ;;
  let features := [ConvBNReLU 3 c0 3 2 1] in
  in_channels <- scaled 32 width_mult ;;
  st <- foldM (stage_body width_mult) (enumerate settings)
              (features, in_channels) ;;
  let '(features, in_channels) := st in
  let features := features ++ [ConvBNReLU in_channels 1280 1 1 1] in
  Ok (mkMnasNetA1 (Sequential features)
                  (AvgPool2d 7)
                  (Sequential [Dropout dropout_p; Linear 1280 num_classes])).

Definition default_width_mult : float := 1%float.
Definition default_num_classes : Z := 1000.

(** ** Tensors by their shapes

    The shape of each layer's output and the inputs a layer rejects, as the
    framework computes and checks them in a forward pass.  A convolution
    takes a batch [(N, C, H, W)] or a single image [(C, H, W)]; a batch
    normalisation takes a batch only. *)

Module Shape.

Definition shape : Type := list Z.

(** The output extent of a sliding window:
    [floor((size + 2 * padding - kernel) / stride) + 1]. *)
Definition window_out (size kernel stride padding : Z) : Z :=
  (size + 2 * padding - kernel) / stride + 1.

(** What a convolution checks of a batch [(N, C, H, W)]: the channel count
    of its weight, a positive stride and kernel, no negative padding, a
    padded plane that holds the kernel, at least [groups] output channels,
    and, of an input without elements, that it is the batch or the channels
    that are empty and not the plane. *)
Definition conv2d_accepts (i o k s p g N C H W : Z) : bool :=
  (C =? i) && (0 <? s) && (0 <? k) && (0 <=? p)
  && (k <=? H + 2 * p) && (k <=? W + 2 * p)
  && (0 <? g) && (g <=? o)
  && ((N =? 0) || (C =? 0) || ((0 <? H) && (0 <? W))).

Definition shape_conv2d (i o k s p g : Z) (b : bool) (x : shape) : result shape :=
  match x with
  | [N; C; H; W] =>
      if conv2d_accepts i o k s p g N C H W
      then Ok [N; o; window_out H k s p; window_out W k s p]
      else Raise RuntimeError
  | [C; H; W] =>
      (* a single image is run as a batch of one *)
      if conv2d_accepts i o k s p g 1 C H W
      then Ok [o; window_out H k s p; window_out W k s p]
      else Raise RuntimeError
  | _ => Raise RuntimeError
  end.

(** [BatchNorm2d] refuses an input that is not 4-dimensional with
    [ValueError], and one with another channel count with
    [RuntimeError].  (While training it also wants more than one value per
    channel; that check is not part of this rule, and the properties it
    matters to state it as a hypothesis.) *)
Definition shape_batch_norm2d (n : Z) (x : shape) : result shape :=
  match x with
  | [N; C; H; W] => if C =? n then Ok x else Raise RuntimeError
  | _ => Raise ValueError
  end.

(** The shape with its last two extents, the plane, replaced by
    [o] x [o]; there is none for a shape of fewer than two extents. *)
Fixpoint pooled (o : Z) (x : shape) : option shape :=
  match x with
  | [] => None
  | a :: rest =>
      match rest with
      | [] => None
      | [_] => Some [o; o]
      | _ :: _ :: _ => option_map (cons a) (pooled o rest)
      end
  end.

(** [AdaptiveAvgPool2d(o)].  For [o = 1], the only output size the program
    asks for, the framework takes the mean over the last two dimensions,
    whatever their extents are, an empty plane included.  For another
    output size it wants a batch or a single image with no empty dimension
    besides the batch. *)
Definition shape_adaptive_avg_pool2d (o : Z) (x : shape) : result shape :=
  if o =? 1 then
    match pooled 1 x with
    | Some y => Ok y
    | None => Raise IndexError
    end
  else
    match x with
    | [N; C; H; W] =>
        if (0 <? C) && (0 <? H) && (0 <? W) then Ok [N; C; o; o]
        else Raise RuntimeError
    | [C; H; W] =>
        if (0 <? H) && (0 <? W) then Ok [C; o; o] else Raise RuntimeError
    | _ => Raise RuntimeError
    end.

(** [AvgPool2d(kernel_size=k)]: the stride defaults to the kernel size. *)
Definition shape_avg_pool2d (k : Z) (x : shape) : result shape :=
  match x with
  | [N; C; H; W] =>
      if (0 <? k) && (k <=? H) && (k <=? W)
      then Ok [N; C; window_out H k k 0; window_out W k k 0]
      else Raise RuntimeError
  | _ => Raise RuntimeError
  end.

(** [Linear] acts on the last dimension. *)
Definition shape_linear (i o : Z) (x : shape) : result shape :=
  match rev x with
  | last :: front =>
      if last =? i then Ok (rev (o :: front)) else Raise RuntimeError
  | [] => Raise RuntimeError
  end.

(** Broadcasting of two extents: equal, or one of them is 1. *)
Definition broadcast_dim (a b : Z) : result Z :=
  if a =? b then Ok a
  else if a =? 1 then Ok b
  else if b =? 1 then Ok a
  else Raise RuntimeError.

(** Broadcasting of two shapes, aligned at their last dimension; the
    arguments are the reversed shapes. *)
Fixpoint broadcast_rev (xs ys : list Z) : result (list Z) :=
  match xs, ys with
  | [], r => Ok r
  | r, [] => Ok r
  | a :: xs', b :: ys' =>
      d <- broadcast_dim a b ;;
      r <- broadcast_rev xs' ys' ;;
      Ok (d :: r)
  end.

Definition broadcast (x y : shape) : result shape :=
  r <- broadcast_rev (rev x) (rev y) ;; Ok (rev r).

(** [x.view(x.size(0), -1)]: the rows keep their number, the rest is
    flattened; with no rows the extent [-1] cannot be inferred. *)
Definition shape_view_rows (x : shape) : result shape :=
  match x with
  | N :: rest =>
      if N =? 0 then Raise RuntimeError else Ok [N; tensor_numel rest]
  | [] => Raise RuntimeError
  end.

#[export] Instance shape_tensor : Tensor shape := {|
  conv2d := shape_conv2d;
  batch_norm2d := shape_batch_norm2d;
  relu := fun x => Ok x;
  sigmoid := fun x => Ok x;
  adaptive_avg_pool2d := shape_adaptive_avg_pool2d;
  avg_pool2d := shape_avg_pool2d;
  dropout := fun _ x => Ok x;
  linear := shape_linear;
  tensor_add := broadcast;
  tensor_mul := broadcast;
  view_rows := shape_view_rows
|}.

(** [model(x).size()] for an input of shape [x]. *)
Definition output_shape (m : module) (x : shape) : result shape :=
  forward m x.

End Shape.

Export Shape.

(** ** Observations on built modules *)

(** [self.use_residual] and [self.conv] of a block, [self.features] of the
    network, and the layers a [Sequential] holds. *)
Definition use_residual (m : module) : bool :=
  match m with mkMBConvBlock u _ => u | _ => false end.

Definition conv (m : module) : module :=
  match m with mkMBConvBlock _ c => c | _ => m end.

Definition features (m : module) : module :=
  match m with mkMnasNetA1 f _ _ => f | _ => m end.

Definition children (m : module) : list module :=
  match m with Sequential ls => ls | _ => [] end.

(** The first and the last [Some] of a list of options. *)
Fixpoint first_some {A : Type} (xs : list (option A)) : option A :=
  match xs with
  | [] => None
  | Some a :: _ => Some a
  | None :: xs' => first_some xs'
  end.

Definition last_some {A : Type} (xs : list (option A)) : option A :=
  first_some (rev xs).

(** The channel count a module expects of its input: that of the first
    layer in it that declares one. *)
Fixpoint in_channels_of (m : module) : option Z :=
  match m with
  | Conv2d i _ _ _ _ _ _ => Some i
  | BatchNorm2d n => Some n
  | Linear i _ => Some i
  | ReLU | Sigmoid | AdaptiveAvgPool2d _ | AvgPool2d _ | Dropout _ => None
  | Sequential ls => first_some (map in_channels_of ls)
  | mkSqueezeExcitation se => in_channels_of se
  | mkMBConvBlock _ c => in_channels_of c
  | mkMnasNetA1 f _ _ => in_channels_of f
  end.

(** The channel count of a module's output: that of the last layer in it
    that declares one; a gate multiplies onto its input and keeps the
    channels of that. *)
Fixpoint out_channels_of (m : module) : option Z :=
  match m with
  | Conv2d _ o _ _ _ _ _ => Some o
  | BatchNorm2d n => Some n
  | Linear _ o => Some o
  | ReLU | Sigmoid | AdaptiveAvgPool2d _ | AvgPool2d _ | Dropout _ => None
  | Sequential ls => last_some (map out_channels_of ls)
  | mkSqueezeExcitation se => in_channels_of se
  | mkMBConvBlock _ c => out_channels_of c
  | mkMnasNetA1 _ _ cl => out_channels_of cl
  end.

(** The exact value of a finite binary64 number, and the integer obtained
    by dropping the fractional part of a rational. *)
Definition SF2Q (f : pyfloat) : option Q :=
  match f with
  | S754_zero _ => Some (inject_Z 0)
  | S754_finite s m e =>
      let z := if s then Z.neg m else Z.pos m in
      Some match e with
           | Zneg p => Qmake z (2 ^ p)%positive
           | _ => inject_Z (z * 2 ^ e)
           end
  | _ => None
  end.

Definition value (x : num) : option Q :=
  match x with
  | PyInt z => Some (inject_Z z)
  | PyFloat f => SF2Q f
  end.

Definition Qtruncate (q : Q) : Z :=
  if Qle_bool 0 q then Qfloor q else Qceiling q.

Definition is_squeeze_excitation (m : module) : bool :=
  match m with mkSqueezeExcitation _ => true | _ => false end.

(** An outcome other than [AssertionError]. *)
Definition not_assertion {A : Type} (r : result A) : Prop :=
  r <> Raise AssertionError.

(** A block with matching channels and stride 1, as [MBConvBlock(16, 16, 1,
    6)] builds it. *)
Definition residual_block : module :=
  Eval vm_compute in
    match MBConvBlock 16 16 1 (PyInt 6) default_kernel_size
                      default_reduction_ratio default_no_skip with
    | Ok b => b
    | Raise _ => ReLU
    end.

(** A block with a squeeze-excitation gate, as [MBConvBlock(24, 40, 2, 3,
    kernel_size=5, reduction_ratio=4)] builds it. *)
Definition gated_block : module :=
  Eval vm_compute in
    match MBConvBlock 24 40 2 (PyInt 3) 5 (PyInt 4) default_no_skip with
    | Ok b => b
    | Raise _ => ReLU
    end.

(** [self.features] of the network built with the default width
    multiplier. *)
Definition canonical_features : module :=
  Eval vm_compute in
    match MnasNetA1 default_width_mult default_num_classes with
    | Ok m => features m
    | Raise _ => ReLU
    end.

(** ** The calls [MnasNetA1.__init__] makes

    The two loops, read for the arguments of each call of [MBConvBlock]
    rather than for its result: [in_channels] is threaded as in the
    program, and the scaled output channel count of each stage is given. *)

Record block_call : Type := {
  call_in_planes : Z;
  call_out_planes : Z;
  call_stride : Z;
  call_expand_ratio : Z;
  call_kernel_size : Z;
  call_reduction_ratio : Z;
  call_no_skip : bool
}.

Definition run_call (c : block_call) : result module :=
  MBConvBlock (call_in_planes c) (call_out_planes c) (call_stride c)
              (PyInt (call_expand_ratio c)) (call_kernel_size c)
              (PyInt (call_reduction_ratio c)) (call_no_skip c).

(** The calls of [for j in range(n)], [js] being what is left of the
    range. *)
Fixpoint repeat_calls (in_channels out_channels s t k r : Z) (no_skip : bool)
    (js : list nat) : list block_call :=
  match js with
  | [] => []
  | j :: js' =>
      {| call_in_planes := in_channels;
         call_out_planes := out_channels;
         call_stride := if (j =? 0)%nat then s else 1;
         call_expand_ratio := t;
         call_kernel_size := k;
         call_reduction_ratio := r;
         call_no_skip := no_skip |}
      :: repeat_calls out_channels out_channels s t k r no_skip js'
  end.

(** The value of [in_channels] after the inner loop. *)
Definition after_repeat (in_channels out_channels : Z) (js : list nat) : Z :=
  match js with [] => in_channels | _ :: _ => out_channels end.

(** The calls of the outer loop, stage by stage. *)
Fixpoint stage_calls (in_channels : Z)
    (rows : list (nat * (Z * Z * Z * Z * Z * Z))) (outs : list Z)
  : list (list block_call) :=
  match rows, outs with
  | (i, (t, c, n, s, k, r)) :: rows', out_channels :: outs' =>
      repeat_calls in_channels out_channels s t k r
                   (if (i =? 0)%nat then true else false) (range n)
      :: stage_calls (after_repeat in_channels out_channels (range n))
                     rows' outs'
  | _, _ => []
  end.

(** The value of [in_channels] after the outer loop. *)
Fixpoint final_channels (in_channels : Z)
    (rows : list (nat * (Z * Z * Z * Z * Z * Z))) (outs : list Z) : Z :=
  match rows, outs with
  | (i, (t, c, n, s, k, r)) :: rows', out_channels :: outs' =>
      final_channels (after_repeat in_channels out_channels (range n))
                     rows' outs'
  | _, _ => in_channels
  end.

(** The channel count [c] of a row of [settings]. *)
Definition row_channels (row : nat * (Z * Z * Z * Z * Z * Z)) : Z :=
  let '(_, (_, c, _, _, _, _)) := row in c.

(** Each module of a sequence hands the next the channel count it
    expects. *)
Fixpoint chained (ms : list module) : Prop :=
  match ms with
  | m :: (m' :: _) as rest =>
      (exists c, out_channels_of m = Some c /\ in_channels_of m' = Some c)
      /\ chained rest
  | _ => True
  end.

(** The network built with the default arguments. *)
Definition canonical_net : module :=
  Eval vm_compute in
    match MnasNetA1 default_width_mult default_num_classes with
    | Ok m => m
    | Raise _ => ReLU
    end.

(** ** Parameter tensors the framework can allocate

    A tensor has no negative extent: a module that asks for a parameter of
    a negative size is not built by the framework. *)
Definition allocatable (m : module) : Prop :=
  Forall (Forall (Z.le 0)) (parameters m).

Definition allocatableb (m : module) : bool :=
  forallb (forallb (Z.leb 0)) (parameters m).

(** [numel] summed over a list of modules. *)
Definition numel_list (ms : list module) : Z := sum (map numel ms).

(** Two calls of the block constructor that differ only in their channel
    counts, those of the first non-negative and no larger than those of the
    second. *)
Definition call_le (c1 c2 : block_call) : Prop :=
  call_stride c1 = call_stride c2
  /\ call_expand_ratio c1 = call_expand_ratio c2
  /\ call_kernel_size c1 = call_kernel_size c2
  /\ call_reduction_ratio c1 = call_reduction_ratio c2
  /\ 1 <= call_expand_ratio c1
  /\ 0 <= call_kernel_size c1
  /\ 1 <= call_reduction_ratio c1
  /\ 0 <= call_in_planes c1 <= call_in_planes c2
  /\ 0 <= call_out_planes c1 <= call_out_planes c2.

(** The output channel counts of two modules, compared. *)
Definition out_channels_le (m1 m2 : module) : Prop :=
  exists a b, out_channels_of m1 = Some a /\ out_channels_of m2 = Some b
              /\ a <= b.

(** The networks of width multipliers 0.5 and 1.0, with 1000 classes. *)
Definition half_net : module :=
  Eval vm_compute in
    match MnasNetA1 0.5 default_num_classes with
    | Ok m => m
    | Raise _ => ReLU
    end.

(** ** Rounding to binary64, on integers

    The notions in which the rounding of the standard library's
    [binary_round_aux] is described: a quotient by its integer part and the
    position of its fractional part, and rounding to nearest, ties to
    even. *)

(** Position of a remainder [r] of a division by [d] relative to [d / 2]. *)
Definition loc_of (r d : Z) : location :=
  if r =? 0 then loc_Exact else loc_Inexact (Z.compare (2 * r) d).

(** [(m, l)] is the quotient [N / D] as the rounding functions see it: its
    integer part and the position of its fractional part. *)
Definition describes (m : Z) (l : location) (N D : Z) : Prop :=
  m = N / D /\ l = loc_of (N mod D) D.

(** The integer nearest to [N / D], ties to even. *)
Definition rne (N D : Z) : Z :=
  let q := N / D in
  match Z.compare (2 * (N mod D)) D with
  | Lt => q
  | Gt => q + 1
  | Eq => if Z.even q then q else q + 1
  end.

(** A shift record seen as an integer part and a position. *)
Definition record_describes (mrs : shr_record) (N D : Z) : Prop :=
  describes (shr_m mrs) (loc_of_shr_record mrs) N D.

(** ** The value [binary_round_aux] returns

    A non-negative rational [M / D], counted in units of [2 ^ E0], is
    rounded to a multiple of [2 ^ K], where [K] places the 53 leading bits
    (or the least exponent, for small numbers). *)
Definition grid_exponent (E0 D M : Z) : Z :=
  Z.max (Zdigits2 (M / D) - prec) (emin - E0).

Definition round_units (E0 D M : Z) : Z :=
  let K := grid_exponent E0 D M in
  rne M (D * 2 ^ K) * 2 ^ K.

(** What [binary_round_aux] may return for a number of sign [s] whose
    rounded magnitude is [U] units of [2 ^ E0]. *)
Definition rounds_to (s : bool) (E0 U : Z) (f : spec_float) : Prop :=
  match f with
  | S754_zero s' => s' = s /\ U = 0
  | S754_finite s' m e => s' = s /\ E0 <= e /\ Z.pos m * 2 ^ (e - E0) = U
  | S754_infinity s' => s' = s
  | S754_nan => False
  end.


(** The magnitude of a finite number in units of [2 ^ emin]. *)
Definition magnitude (m : positive) (e : Z) : Z := Z.pos m * 2 ^ (e - emin).

(** ** Planes under a stride *)

(** The extent a plane of extent [size] keeps when a window that covers
    the border moves over it in steps of [stride]: [size / stride], rounded
    up. *)
Definition strided (stride size : Z) : Z := (size - 1) / stride + 1.

(** ** The parameter count of a block *)

(** The sum of the sizes of the parameter tensors of a block with the
    given channel counts, kernel size and hidden dimension, and with a gate
    of the given reduced dimension, if any: the pointwise expansion (a
    convolution without bias and a batch normalisation), the depthwise
    convolution (one [k * k] filter per channel) with its normalisation,
    the gate (two pointwise convolutions with bias), and the pointwise
    projection with its normalisation. *)
Definition block_numel (in_planes out_planes kernel_size hidden_dim : Z)
    (reduced_dim : option Z) : Z :=
  (if in_planes =? hidden_dim then 0
   else hidden_dim * in_planes + 2 * hidden_dim)
  + (hidden_dim * kernel_size * kernel_size + 2 * hidden_dim)
  + match reduced_dim with
    | Some rd => 2 * hidden_dim * rd + rd + hidden_dim
    | None => 0
    end
  + (out_planes * hidden_dim + 2 * out_planes).

(** ** Floats that are numbers *)

(** A binary64 value other than an infinity and NaN. *)
Definition is_number (f : spec_float) : bool :=
  match f with
  | S754_zero _ | S754_finite _ _ _ => true
  | _ => false
  end.

(** A row of [settings] as the calls of [MBConvBlock] need it: a stride
    and a kernel size that pass the assertions, a reduction ratio of 1 or
    at least 2, and a positive channel count below [2 ^ 53], whose float
    is a normal number. *)
Definition row_ok (row : nat * (Z * Z * Z * Z * Z * Z)) : Prop :=
  let '(_, (t, c, n, s, k, r)) := row in
  In s [1; 2] /\ In k [3; 5] /\ (r = 1 \/ 2 <= r)
  /\ exists q mk ek,
       float_of_int c = Ok (Prim2SF q)
       /\ Prim2SF q = S754_finite false mk ek
       /\ 2 ^ (prec - 1) <= Z.pos mk /\ ek <= 0.

(** ** The entry point *)

(** What a [print] call writes. *)
Inductive printed : Type :=
  | PrintedSize (s : shape)
  | PrintedInt (n : Z).

(** [main()], run on shapes: of the random input only its shape
    [(1, 3, 224, 224)] matters here.  The result lists what the two [print]
    calls write. *)
Definition main : result (list printed) :=
  m <- MnasNetA1 1 default_num_classes ;;
  let x := [1; 3; 224; 224] in
  y <- output_shape m x ;;
  Ok [PrintedSize y; PrintedInt (numel m)].

(** ** The constructors of the framework's layers

    The program builds its layers by calling [nn.Conv2d],
    [nn.BatchNorm2d] and [nn.Linear], and these calls can fail.
    [nn.Conv2d] first looks at [groups]: it raises [ValueError] unless
    [groups] is positive and divides both channel counts.  Every layer then
    creates its tensors, and a tensor is created only when none of its
    extents is negative and the machine can hold it; otherwise the creation
    raises [RuntimeError].  [capacity] stands for the number of elements of
    the largest tensor the machine can hold.  Strides and paddings are
    stored as they are given. *)

(** Whether [torch.empty(dims)] returns a tensor. *)
Definition creatable (capacity : Z) (dims : shape) : bool :=
  forallb (Z.leb 0) dims && (tensor_numel dims <=? capacity).

(** [torch.empty(dims)], for its outcome alone. *)
Definition torch_empty (capacity : Z) (dims : shape) : result unit :=
  if creatable capacity dims then Ok tt else Raise RuntimeError.

(** [nn.Conv2d(in_channels, out_channels, kernel_size, stride=stride,
    padding=padding, groups=groups, bias=bias)] *)
Definition Conv2d_init
    (capacity in_channels out_channels kernel_size stride padding groups : Z)
    (bias : bool) : result module :=
  if groups <=? 0 then Raise ValueError
  else if negb (in_channels mod groups =? 0) then Raise ValueError
  else if negb (out_channels mod groups =? 0) then Raise ValueError
  else
    torch_empty capacity
      [out_channels; in_channels / groups; kernel_size; kernel_size] ;;;
    (if bias then torch_empty capacity [out_channels] else Ok tt) ;;;
    Ok (Conv2d in_channels out_channels kernel_size stride padding groups
          bias).

(** [nn.BatchNorm2d(num_features)] *)
Definition BatchNorm2d_init (capacity num_features : Z) : result module :=
  torch_empty capacity [num_features] ;;;
  Ok (BatchNorm2d num_features).

(** [nn.Linear(in_features, out_features)] *)
Definition Linear_init (capacity in_features out_features : Z)
  : result module :=
  torch_empty capacity [out_features; in_features] ;;;
  torch_empty capacity [out_features] ;;;
  Ok (Linear in_features out_features).

(** [ConvBNReLU.__init__], with the calls of the framework's constructors
    in the order in which the arguments of [super().__init__] are
    evaluated. *)
Definition ConvBNReLU_init
    (capacity in_planes out_planes kernel_size stride groups : Z)
  : result module :=
  let padding := (kernel_size - 1) / 2 in
  conv <- Conv2d_init capacity in_planes out_planes kernel_size stride
            padding groups false ;;
  bn <- BatchNorm2d_init capacity out_planes ;;
  Ok (Sequential [conv; bn; ReLU]).

(** The group counts of the convolutions of a module pass the checks of
    [nn.Conv2d]. *)
Fixpoint groups_ok (m : module) : bool :=
  match m with
  | Conv2d i o _ _ _ g _ => (0 <? g) && (i mod g =? 0) && (o mod g =? 0)
  | BatchNorm2d _ | Linear _ _ | ReLU | Sigmoid | AdaptiveAvgPool2d _
  | AvgPool2d _ | Dropout _ => true
  | Sequential layers => forallb groups_ok layers
  | mkSqueezeExcitation se => groups_ok se
  | mkMBConvBlock _ conv => groups_ok conv
  | mkMnasNetA1 features avg_pool classifier =>
      groups_ok features && groups_ok avg_pool && groups_ok classifier
  end.

(** Every layer of a module passes the checks of its constructor: the
    framework builds the module. *)
Definition constructible (capacity : Z) (m : module) : bool :=
  groups_ok m && forallb (creatable capacity) (parameters m).

(** Every parameter tensor of a module fits the machine. *)
Definition fits (capacity : Z) (m : module) : Prop :=
  Forall (fun p => tensor_numel p <= capacity) (parameters m).

(** * Properties *)

(** ** The result monad *)

Lemma bind_Ok_inv {A B : Type} (r : result A) (k : A -> result B) (b : B) :
  bind r k = Ok b -> exists a, r = Ok a /\ k a = Ok b.
Proof. destruct r as [a|e]; simpl; [eauto | discriminate]. Qed.

(** ** No arithmetic step of a constructor raises [AssertionError] *)

Create HintDb noassert.

Lemma not_assertion_bind {A B : Type} (r : result A) (k : A -> result B) :
  not_assertion r -> (forall a, not_assertion (k a)) -> not_assertion (bind r k).
Proof.
  unfold not_assertion; intros Hr Hk; destruct r as [a|e]; simpl.
  - apply Hk.
  - intros E; apply Hr; congruence.
Qed.

Lemma not_assertion_Ok {A : Type} (a : A) : not_assertion (Ok a).
Proof. discriminate. Qed.

Lemma float_of_int_not_assertion (z : Z) : not_assertion (float_of_int z).
Proof.
  unfold not_assertion, float_of_int.
  destruct (binary_normalize prec emax z 0 false); discriminate.
Qed.

Lemma int_of_float_not_assertion (f : pyfloat) : not_assertion (int_of_float f).
Proof. destruct f; discriminate. Qed.

Lemma py_int_not_assertion (x : num) : not_assertion (py_int x).
Proof.
  destruct x; [apply not_assertion_Ok | apply int_of_float_not_assertion].
Qed.

#[local] Hint Resolve not_assertion_Ok float_of_int_not_assertion
  int_of_float_not_assertion py_int_not_assertion : noassert.

Lemma py_mul_not_assertion (x y : num) : not_assertion (py_mul x y).
Proof.
  destruct x, y; simpl; auto with noassert;
    apply not_assertion_bind; auto with noassert.
Qed.

Lemma int_true_divide_not_assertion (a b : Z) : not_assertion (int_true_divide a b).
Proof.
  unfold not_assertion, int_true_divide.
  destruct (b =? 0); [discriminate|].
  destruct (a =? 0); [discriminate|].
  destruct (SFdiv_core_binary prec emax (Z.abs a) 0 (Z.abs b) 0) as [[mz ez] lz].
  destruct (binary_round_aux prec emax _ mz ez lz); discriminate.
Qed.

Lemma float_true_divide_not_assertion (f g : pyfloat) :
  not_assertion (float_true_divide f g).
Proof. unfold not_assertion, float_true_divide; destruct (is_zero g); discriminate. Qed.

#[local] Hint Resolve py_mul_not_assertion int_true_divide_not_assertion
  float_true_divide_not_assertion : noassert.

Lemma py_truediv_not_assertion (x y : num) : not_assertion (py_truediv x y).
Proof.
  destruct x, y; simpl;
    repeat (apply not_assertion_bind; [auto with noassert | intros]);
    auto with noassert.
Qed.

#[local] Hint Resolve py_truediv_not_assertion : noassert.

Lemma hidden_dim_of_not_assertion (in_planes : Z) (expand_ratio : num) :
  not_assertion (hidden_dim_of in_planes expand_ratio).
Proof.
  unfold hidden_dim_of; apply not_assertion_bind; auto with noassert.
Qed.

Lemma reduced_dim_of_not_assertion (in_planes : Z) (reduction_ratio : num) :
  not_assertion (reduced_dim_of in_planes reduction_ratio).
Proof.
  unfold reduced_dim_of; apply not_assertion_bind; auto with noassert.
  intros q; apply not_assertion_bind; auto with noassert.
Qed.

#[local] Hint Resolve hidden_dim_of_not_assertion
  reduced_dim_of_not_assertion : noassert.

Lemma MBConvBlock_layers_not_assertion
    (in_planes out_planes stride : Z) (expand_ratio : num)
    (kernel_size : Z) (reduction_ratio : num) :
  not_assertion (MBConvBlock_layers in_planes out_planes stride expand_ratio
                                    kernel_size reduction_ratio).
Proof.
  unfold MBConvBlock_layers.
  apply not_assertion_bind; auto with noassert; intros hidden_dim.
  apply not_assertion_bind; auto with noassert.
  destruct (py_ne_1 reduction_ratio); auto with noassert.
  apply not_assertion_bind; auto with noassert.
Qed.

Lemma in_list_In (x : Z) (xs : list Z) : in_list x xs = true <-> In x xs.
Proof.
  unfold in_list; rewrite existsb_exists; split.
  - intros (y & Hy & E); apply Z.eqb_eq in E; subst; assumption.
  - intros Hx; exists x; split; [assumption | apply Z.eqb_refl].
Qed.

(** ** [int()] drops the fractional part *)

Lemma Qtruncate_inject_Z (z : Z) : Qtruncate (inject_Z z) = z.
Proof.
  unfold Qtruncate; destruct (Qle_bool 0 (inject_Z z));
    [apply Qfloor_Z | apply Qceiling_Z].
Qed.

Lemma Qtruncate_nonneg (q : Q) : (0 <= q)%Q -> Qtruncate q = Qfloor q.
Proof.
  intros Hq; unfold Qtruncate.
  apply Qle_bool_iff in Hq; rewrite Hq; reflexivity.
Qed.

Lemma int_of_float_finite (s : bool) (m : positive) (e : Z) :
  int_of_float (S754_finite s m e)
  = Ok (let a := if e <? 0 then Z.pos m / 2 ^ (- e) else Z.pos m * 2 ^ e in
        if s then - a else a).
Proof. destruct e; reflexivity. Qed.

Lemma SF2Q_finite (s : bool) (m : positive) (e : Z) :
  SF2Q (S754_finite s m e)
  = Some (let z := if s then Z.neg m else Z.pos m in
          if e <? 0 then Qmake z (Z.to_pos (2 ^ (- e)))
          else inject_Z (z * 2 ^ e)).
Proof.
  destruct e as [|p|p]; try reflexivity.
  cbn [SF2Q Z.ltb Z.compare Z.opp]; rewrite <- Pos2Z.inj_pow; reflexivity.
Qed.

Lemma int_of_float_truncates (f : pyfloat) (z : Z) :
  int_of_float f = Ok z -> exists q, SF2Q f = Some q /\ z = Qtruncate q.
Proof.
  destruct f as [s|s| |s m e]; try discriminate.
  - intros E; injection E as <-; eexists; split; [reflexivity|].
    symmetry; apply (Qtruncate_inject_Z 0).
  - rewrite int_of_float_finite, SF2Q_finite.
    intros E; injection E as <-; eexists; split; [reflexivity|].
    cbv zeta. destruct (e <? 0) eqn:He.
    + apply Z.ltb_lt in He.
      assert (Hp : 0 < 2 ^ (- e)) by (apply Z.pow_pos_nonneg; lia).
      unfold Qtruncate, Qle_bool, Qceiling, Qfloor, Qopp.
      cbn [Qnum Qden inject_Z].
      rewrite Z2Pos.id by assumption.
      destruct s.
      * replace (0 * Z.pos (Z.to_pos (2 ^ (- e))) <=? Z.neg m * 1) with false
          by (symmetry; apply Z.leb_gt; lia).
        reflexivity.
      * replace (0 * Z.pos (Z.to_pos (2 ^ (- e))) <=? Z.pos m * 1) with true
          by (symmetry; apply Z.leb_le; lia).
        reflexivity.
    + rewrite Qtruncate_inject_Z; destruct s; [|reflexivity].
      change (- (Z.pos m * 2 ^ e) = Z.neg m * 2 ^ e).
      rewrite <- Pos2Z.opp_pos; ring.
Qed.

Lemma py_int_truncates (x : num) (z : Z) :
  py_int x = Ok z -> exists q, value x = Some q /\ z = Qtruncate q.
Proof.
  destruct x as [a|f]; simpl.
  - intros E; injection E as <-; eexists; split; [reflexivity|].
    symmetry; apply Qtruncate_inject_Z.
  - apply int_of_float_truncates.
Qed.

(** ** What [MBConvBlock.__init__] builds *)

Lemma MBConvBlock_assertions
    (in_planes out_planes stride : Z) (expand_ratio : num)
    (kernel_size : Z) (reduction_ratio : num) (no_skip : bool) :
  MBConvBlock in_planes out_planes stride expand_ratio kernel_size
              reduction_ratio no_skip = Raise AssertionError
  <-> ~ In stride [1; 2] \/ ~ In kernel_size [3; 5].
Proof.
  unfold MBConvBlock.
  rewrite <- !in_list_In.
  destruct (in_list stride [1; 2]); cbn [assert_ bind].
  2: { split; [intros _; left; discriminate | reflexivity]. }
  destruct (in_list kernel_size [3; 5]); cbn [assert_ bind].
  2: { split; [intros _; right; discriminate | reflexivity]. }
  split.
  - intros E.
    pose proof (MBConvBlock_layers_not_assertion in_planes out_planes stride
                  expand_ratio kernel_size reduction_ratio) as Hl.
    unfold not_assertion in Hl.
    destruct (MBConvBlock_layers _ _ _ _ _ _); simpl in E; [discriminate|].
    exfalso; apply Hl; congruence.
  - intros [Hn|Hn]; exfalso; apply Hn; reflexivity.
Qed.

Lemma MBConvBlock_Ok_inv
    (in_planes out_planes stride : Z) (expand_ratio : num)
    (kernel_size : Z) (reduction_ratio : num) (no_skip : bool) (b : module) :
  MBConvBlock in_planes out_planes stride expand_ratio kernel_size
              reduction_ratio no_skip = Ok b ->
  In stride [1; 2] /\ In kernel_size [3; 5] /\
  exists hidden_dim se,
    hidden_dim_of in_planes expand_ratio = Ok hidden_dim /\
    (py_ne_1 reduction_ratio = true /\
       (exists reduced_dim,
          reduced_dim_of in_planes reduction_ratio = Ok reduced_dim /\
          se = [SqueezeExcitation hidden_dim reduced_dim])
     \/ py_ne_1 reduction_ratio = false /\ se = []) /\
    b = mkMBConvBlock
          ((in_planes =? out_planes) && (stride =? 1) && negb no_skip)
          (Sequential
             ((if in_planes =? hidden_dim then []
               else [ConvBNReLU in_planes hidden_dim 1 1 1])
              ++ ConvBNReLU hidden_dim hidden_dim kernel_size stride hidden_dim
              :: se
              ++ [ Conv2d hidden_dim out_planes 1 1 0 1 false;
                   BatchNorm2d out_planes ])).
Proof.
  unfold MBConvBlock; intros E.
  destruct (in_list stride [1; 2]) eqn:Hs; [|discriminate].
  destruct (in_list kernel_size [3; 5]) eqn:Hk; [|discriminate].
  apply in_list_In in Hs; apply in_list_In in Hk.
  cbn [assert_ bind] in E.
  apply bind_Ok_inv in E; destruct E as (layers & Hl & E).
  injection E as <-.
  unfold MBConvBlock_layers in Hl.
  apply bind_Ok_inv in Hl; destruct Hl as (hidden_dim & Hh & Hl).
  apply bind_Ok_inv in Hl; destruct Hl as (layers' & Hse & Hl).
  injection Hl as <-.
  split; [assumption|]; split; [assumption|].
  destruct (py_ne_1 reduction_ratio).
  - apply bind_Ok_inv in Hse; destruct Hse as (reduced_dim & Hr & Hse).
    injection Hse as <-.
    exists hidden_dim, [SqueezeExcitation hidden_dim reduced_dim].
    split; [assumption|]; split; [left; eauto|].
    destruct (in_planes =? hidden_dim); reflexivity.
  - injection Hse as <-.
    exists hidden_dim, [].
    split; [assumption|]; split; [right; eauto|].
    destruct (in_planes =? hidden_dim); reflexivity.
Qed.

(** ** Properties of a single block *)

(** C2.  For every block the constructor returns, [forward] adds the input
    to the output of [self.conv] exactly when the input and output channel
    counts are equal, the stride is 1 and [no_skip] is false; in every other
    case it returns the output of [self.conv] alone.  This holds for any
    tensors the framework's operations act on. *)
Theorem MBConvBlock_forward_residual
    (T : Type) (ops : Tensor T)
    (in_planes out_planes stride : Z) (expand_ratio : num)
    (kernel_size : Z) (reduction_ratio : num) (no_skip : bool)
    (b : module) (x : T) :
  MBConvBlock in_planes out_planes stride expand_ratio kernel_size
              reduction_ratio no_skip = Ok b ->
  (use_residual b = true
   <-> in_planes = out_planes /\ stride = 1 /\ no_skip = false) /\
  (in_planes = out_planes /\ stride = 1 /\ no_skip = false ->
   forward b x = (y <- forward (conv b) x ;; tensor_add x y)) /\
  (~ (in_planes = out_planes /\ stride = 1 /\ no_skip = false) ->
   forward b x = forward (conv b) x).
Proof.
  intros E.
  apply MBConvBlock_Ok_inv in E.
  destruct E as (_ & _ & hidden_dim & se & _ & _ & ->).
  assert (Hu : (in_planes =? out_planes) && (stride =? 1) && negb no_skip = true
               <-> in_planes = out_planes /\ stride = 1 /\ no_skip = false).
  { rewrite !andb_true_iff, !Z.eqb_eq, negb_true_iff. tauto. }
  cbn [use_residual conv forward].
  split; [exact Hu|]; split.
  - intros Hc; apply Hu in Hc; rewrite Hc; reflexivity.
  - intros Hn.
    destruct ((in_planes =? out_planes) && (stride =? 1) && negb no_skip);
      [exfalso; apply Hn, Hu; reflexivity | reflexivity].
Qed.

Lemma MBConvBlock_forward_residual_witness :
  MBConvBlock 16 16 1 (PyInt 6) default_kernel_size default_reduction_ratio
              default_no_skip = Ok residual_block /\
  (use_residual residual_block = true
   <-> 16 = 16 /\ 1 = 1 /\ default_no_skip = false) /\
  (16 = 16 /\ 1 = 1 /\ default_no_skip = false ->
   forward residual_block [1; 16; 8; 8]
   = (y <- forward (conv residual_block) [1; 16; 8; 8] ;;
      tensor_add [1; 16; 8; 8] y)) /\
  (~ (16 = 16 /\ 1 = 1 /\ default_no_skip = false) ->
   forward residual_block [1; 16; 8; 8]
   = forward (conv residual_block) [1; 16; 8; 8]).
Proof.
  split; [reflexivity|].
  apply (MBConvBlock_forward_residual shape shape_tensor
           16 16 1 (PyInt 6) default_kernel_size default_reduction_ratio
           default_no_skip residual_block [1; 16; 8; 8]).
  reflexivity.
Defined.

(** C3.  The constructor ends in [AssertionError] exactly when the stride is
    not 1 or 2 or the kernel size is not 3 or 5, whatever the other
    arguments are: the two assertions are evaluated before the hidden
    dimension is computed and before any layer is made, so neither a ratio
    that [int()] would reject nor anything else can pre-empt or replace
    them, and no block exists to be run. *)
Theorem MBConvBlock_fails_fast
    (in_planes out_planes stride : Z) (expand_ratio : num)
    (kernel_size : Z) (reduction_ratio : num) (no_skip : bool) :
  (MBConvBlock in_planes out_planes stride expand_ratio kernel_size
               reduction_ratio no_skip = Raise AssertionError
   <-> ~ In stride [1; 2] \/ ~ In kernel_size [3; 5]) /\
  (forall b,
     MBConvBlock in_planes out_planes stride expand_ratio kernel_size
                 reduction_ratio no_skip = Ok b ->
     In stride [1; 2] /\ In kernel_size [3; 5]) /\
  not_assertion (MBConvBlock_layers in_planes out_planes stride expand_ratio
                                    kernel_size reduction_ratio).
Proof.
  split; [apply MBConvBlock_assertions|]; split.
  - intros b E; apply MBConvBlock_Ok_inv in E; tauto.
  - apply MBConvBlock_layers_not_assertion.
Qed.

(** The assertion comes first even when a later step would raise too. *)
Example assertion_precedes_conversion :
  MBConvBlock 8 8 3 (PyFloat S754_nan) 3 (PyInt 0) false = Raise AssertionError
  /\ MBConvBlock 8 8 1 (PyFloat S754_nan) 3 (PyInt 0) false = Raise ValueError
  /\ MBConvBlock 8 8 1 (PyInt 6) 3 (PyInt 0) false = Raise ZeroDivisionError.
Proof. repeat split. Qed.

(** C6.  The hidden dimension of a block is the product
    [in_planes * expand_ratio] with its fractional part dropped (its floor,
    the product being non-negative), and [layers] starts with the pointwise
    expansion block exactly when the hidden dimension differs from
    [in_planes]; otherwise it starts with the depthwise block. *)
Theorem MBConvBlock_hidden_dim
    (in_planes out_planes stride : Z) (expand_ratio : num)
    (kernel_size : Z) (reduction_ratio : num) (no_skip : bool) (b : module) :
  MBConvBlock in_planes out_planes stride expand_ratio kernel_size
              reduction_ratio no_skip = Ok b ->
  exists (product : num) (q : Q) (hidden_dim : Z) (rest : list module),
    py_mul (PyInt in_planes) expand_ratio = Ok product /\
    value product = Some q /\
    hidden_dim = Qtruncate q /\
    ((0 <= q)%Q -> hidden_dim = Qfloor q) /\
    (hidden_dim <> in_planes /\
     children (conv b)
     = ConvBNReLU in_planes hidden_dim 1 1 1
       :: ConvBNReLU hidden_dim hidden_dim kernel_size stride hidden_dim
       :: rest
     \/
     hidden_dim = in_planes /\
     children (conv b)
     = ConvBNReLU hidden_dim hidden_dim kernel_size stride hidden_dim
       :: rest).
Proof.
  intros E.
  apply MBConvBlock_Ok_inv in E.
  destruct E as (_ & _ & hidden_dim & se & Hh & _ & ->).
  unfold hidden_dim_of in Hh.
  apply bind_Ok_inv in Hh; destruct Hh as (product & Hp & Hi).
  apply py_int_truncates in Hi; destruct Hi as (q & Hq & Hz).
  exists product, q, hidden_dim,
    (se ++ [Conv2d hidden_dim out_planes 1 1 0 1 false; BatchNorm2d out_planes]).
  repeat (split; [first [assumption | reflexivity]|]).
  split; [intros Hq0; rewrite Hz; apply Qtruncate_nonneg; assumption|].
  cbn [conv children].
  destruct (in_planes =? hidden_dim) eqn:Hc.
  - apply Z.eqb_eq in Hc; right; split; [congruence | reflexivity].
  - apply Z.eqb_neq in Hc; left; split; [congruence | reflexivity].
Qed.

Lemma MBConvBlock_hidden_dim_witness :
  MBConvBlock 16 16 1 (PyInt 6) default_kernel_size default_reduction_ratio
              default_no_skip = Ok residual_block /\
  exists (product : num) (q : Q) (hidden_dim : Z) (rest : list module),
    py_mul (PyInt 16) (PyInt 6) = Ok product /\
    value product = Some q /\
    hidden_dim = Qtruncate q /\
    ((0 <= q)%Q -> hidden_dim = Qfloor q) /\
    (hidden_dim <> 16 /\
     children (conv residual_block)
     = ConvBNReLU 16 hidden_dim 1 1 1
       :: ConvBNReLU hidden_dim hidden_dim default_kernel_size 1 hidden_dim
       :: rest
     \/
     hidden_dim = 16 /\
     children (conv residual_block)
     = ConvBNReLU hidden_dim hidden_dim default_kernel_size 1 hidden_dim
       :: rest).
Proof.
  split; [reflexivity|].
  apply (MBConvBlock_hidden_dim 16 16 1 (PyInt 6) default_kernel_size
           default_reduction_ratio default_no_skip residual_block).
  reflexivity.
Defined.

(** Truncation is neither rounding nor, below zero, the floor. *)
Example hidden_dim_truncation :
  hidden_dim_of 10 (of_float 0.25) = Ok 2
  /\ hidden_dim_of 10 (of_float 0.375) = Ok 3
  /\ hidden_dim_of 10 (of_float (-0.25)) = Ok (-2).
Proof. repeat split. Qed.
(** ** Shared facts on outcomes and on convolution windows *)

Lemma Ok_inj {A : Type} (a b : A) : Ok a = Ok b -> a = b.
Proof. intros E; injection E as E; exact E. Qed.

Lemma reduced_dim_of_positive (i : Z) (r : num) (rd : Z) :
  reduced_dim_of i r = Ok rd -> 1 <= rd.
Proof.
  unfold reduced_dim_of; intros E.
  apply bind_Ok_inv in E; destruct E as (q & _ & E).
  apply bind_Ok_inv in E; destruct E as (z & _ & E).
  apply Ok_inj in E; lia.
Qed.

Lemma window_out_pointwise (H : Z) : window_out H 1 1 0 = H.
Proof. unfold window_out; rewrite Z.div_1_r; lia. Qed.

Lemma window_out_same_padding (H k s : Z) :
  In k [3; 5] -> window_out H k s ((k - 1) / 2) = (H - 1) / s + 1.
Proof.
  intros [<-|[<-|[]]]; unfold window_out;
    [change ((3 - 1) / 2) with 1 | change ((5 - 1) / 2) with 2];
    do 2 f_equal; lia.
Qed.


Lemma py_ne_1_int (z : Z) : py_ne_1 (PyInt z) = true <-> z <> 1.
Proof. cbn [py_ne_1]; rewrite negb_true_iff; apply Z.eqb_neq. Qed.

Lemma filter_pw_part (in_planes hidden_dim : Z) :
  filter is_squeeze_excitation
    (if in_planes =? hidden_dim then []
     else [ConvBNReLU in_planes hidden_dim 1 1 1]) = [].
Proof. destruct (in_planes =? hidden_dim); reflexivity. Qed.

(** C7.  The layers of a block contain a squeeze-excitation gate exactly
    when [reduction_ratio != 1]; the gate is then the only one, it acts on
    the hidden dimension, and its reduced dimension is the larger of 1 and
    the quotient [in_planes / reduction_ratio] with its fractional part
    dropped.  With the default ratio there is no gate. *)
Theorem MBConvBlock_squeeze_excitation
    (in_planes out_planes stride : Z) (expand_ratio : num)
    (kernel_size : Z) (reduction_ratio : num) (no_skip : bool) (b : module) :
  MBConvBlock in_planes out_planes stride expand_ratio kernel_size
              reduction_ratio no_skip = Ok b ->
  existsb is_squeeze_excitation (children (conv b)) = py_ne_1 reduction_ratio /\
  (py_ne_1 reduction_ratio = true ->
   exists (hidden_dim : Z) (quotient : num) (q : Q),
     hidden_dim_of in_planes expand_ratio = Ok hidden_dim /\
     py_truediv (PyInt in_planes) reduction_ratio = Ok quotient /\
     value quotient = Some q /\
     filter is_squeeze_excitation (children (conv b))
     = [SqueezeExcitation hidden_dim (Z.max 1 (Qtruncate q))]) /\
  (forall z, reduction_ratio = PyInt z ->
             (py_ne_1 reduction_ratio = true <-> z <> 1)) /\
  (reduction_ratio = default_reduction_ratio ->
   filter is_squeeze_excitation (children (conv b)) = []).
Proof.
  intros E.
  apply MBConvBlock_Ok_inv in E.
  destruct E as (_ & _ & hidden_dim & se & Hh & Hse & ->).
  cbn [conv children].
  assert (Hf : filter is_squeeze_excitation
                 ((if in_planes =? hidden_dim then []
                   else [ConvBNReLU in_planes hidden_dim 1 1 1])
                  ++ ConvBNReLU hidden_dim hidden_dim kernel_size stride hidden_dim
                  :: se
                  ++ [Conv2d hidden_dim out_planes 1 1 0 1 false;
                      BatchNorm2d out_planes])
               = filter is_squeeze_excitation se).
  { rewrite filter_app, filter_pw_part. cbn [app filter ConvBNReLU is_squeeze_excitation].
    rewrite filter_app. cbn [filter is_squeeze_excitation]. apply app_nil_r. }
  assert (He : existsb is_squeeze_excitation
                 ((if in_planes =? hidden_dim then []
                   else [ConvBNReLU in_planes hidden_dim 1 1 1])
                  ++ ConvBNReLU hidden_dim hidden_dim kernel_size stride hidden_dim
                  :: se
                  ++ [Conv2d hidden_dim out_planes 1 1 0 1 false;
                      BatchNorm2d out_planes])
               = existsb is_squeeze_excitation se).
  { rewrite existsb_app.
    destruct (in_planes =? hidden_dim);
      cbn [existsb ConvBNReLU is_squeeze_excitation orb];
      rewrite existsb_app; cbn [existsb is_squeeze_excitation orb];
      apply orb_false_r. }
  rewrite He, Hf; clear He Hf.
  split; [|split; [|split; [intros z ->; apply py_ne_1_int|]]].
  - destruct Hse as [(Hr & reduced_dim & Hrd & ->) | (Hr & ->)];
      rewrite Hr; reflexivity.
  - intros Hr.
    destruct Hse as [(_ & reduced_dim & Hrd & ->) | (Hr' & _)];
      [|congruence].
    unfold reduced_dim_of in Hrd.
    apply bind_Ok_inv in Hrd; destruct Hrd as (quotient & Hq & Hrd).
    apply bind_Ok_inv in Hrd; destruct Hrd as (i & Hi & Hrd).
    injection Hrd as <-.
    apply py_int_truncates in Hi; destruct Hi as (q & Hv & ->).
    exists hidden_dim, quotient, q; repeat split; assumption.
  - intros ->.
    destruct Hse as [(Hr & _) | (_ & ->)]; [discriminate Hr | reflexivity].
Qed.

Lemma MBConvBlock_squeeze_excitation_witness :
  MBConvBlock 24 40 2 (PyInt 3) 5 (PyInt 4) default_no_skip = Ok gated_block /\
  existsb is_squeeze_excitation (children (conv gated_block)) = py_ne_1 (PyInt 4) /\
  (py_ne_1 (PyInt 4) = true ->
   exists (hidden_dim : Z) (quotient : num) (q : Q),
     hidden_dim_of 24 (PyInt 3) = Ok hidden_dim /\
     py_truediv (PyInt 24) (PyInt 4) = Ok quotient /\
     value quotient = Some q /\
     filter is_squeeze_excitation (children (conv gated_block))
     = [SqueezeExcitation hidden_dim (Z.max 1 (Qtruncate q))]) /\
  (forall z, PyInt 4 = PyInt z -> (py_ne_1 (PyInt 4) = true <-> z <> 1)) /\
  (PyInt 4 = default_reduction_ratio ->
   filter is_squeeze_excitation (children (conv gated_block)) = []).
Proof.
  split; [reflexivity|].
  apply (MBConvBlock_squeeze_excitation 24 40 2 (PyInt 3) 5 (PyInt 4)
           default_no_skip gated_block).
  reflexivity.
Defined.

(** The reduced dimension on a few inputs: [24 / 4], [5 / 4] (truncated to
    1), [3 / 4] (raised to 1), and a fractional ratio. *)
Example reduced_dim_values :
  reduced_dim_of 24 (PyInt 4) = Ok 6
  /\ reduced_dim_of 5 (PyInt 4) = Ok 1
  /\ reduced_dim_of 3 (PyInt 4) = Ok 1
  /\ reduced_dim_of 24 (of_float 2.5) = Ok 9.
Proof. repeat split. Qed.

(** *** What [ConvBNReLU] validates *)

Lemma Conv2d_init_Ok
    (capacity i o k s p g : Z) (b : bool) (m : module) :
  Conv2d_init capacity i o k s p g b = Ok m ->
  m = Conv2d i o k s p g b
  /\ 0 < g /\ i mod g = 0 /\ o mod g = 0
  /\ creatable capacity [o; i / g; k; k] = true.
Proof.
  unfold Conv2d_init, torch_empty.
  destruct (Z.leb_spec g 0) as [Hg|Hg]; [discriminate|].
  destruct (Z.eqb_spec (i mod g) 0) as [Hi|Hi]; [|discriminate].
  destruct (Z.eqb_spec (o mod g) 0) as [Ho|Ho]; [|discriminate].
  cbn [negb].
  destruct (creatable capacity [o; i / g; k; k]); [|discriminate].
  cbn [bind].
  destruct b; [destruct (creatable capacity [o]); [|discriminate]|];
    cbn [bind]; intros E; apply Ok_inj in E; auto.
Qed.

Lemma Conv2d_init_ValueError
    (capacity i o k s p g : Z) (b : bool) :
  Conv2d_init capacity i o k s p g b = Raise ValueError
  <-> g <= 0 \/ i mod g <> 0 \/ o mod g <> 0.
Proof.
  unfold Conv2d_init, torch_empty.
  destruct (Z.leb_spec g 0) as [Hg|Hg]; [split; auto|].
  destruct (Z.eqb_spec (i mod g) 0) as [Hi|Hi]; [|split; auto].
  destruct (Z.eqb_spec (o mod g) 0) as [Ho|Ho]; [|split; auto].
  cbn [negb].
  split; [|lia].
  destruct (creatable capacity [o; i / g; k; k]); [|discriminate].
  cbn [bind].
  destruct b; [destruct (creatable capacity [o]); [|discriminate]|];
    discriminate.
Qed.

Lemma creatable_weight (capacity o c k : Z) :
  creatable capacity [o; c; k; k] = true
  <-> 0 <= o /\ 0 <= c /\ 0 <= k /\ tensor_numel [o; c; k; k] <= capacity.
Proof.
  unfold creatable; cbn [forallb].
  rewrite !andb_true_iff, !Z.leb_le; tauto.
Qed.

Lemma creatable_vector (capacity n : Z) :
  creatable capacity [n] = true <-> 0 <= n /\ n <= capacity.
Proof.
  unfold creatable, tensor_numel; cbn [forallb fold_right].
  rewrite !andb_true_iff, !Z.leb_le, Z.mul_1_r; tauto.
Qed.

(** The weight of a convolution on positive extents has at least as many
    elements as it has filters. *)
Lemma weight_numel_filters (o c k : Z) :
  0 < o -> 0 < c -> 0 < k -> o <= tensor_numel [o; c; k; k].
Proof.
  intros Ho Hc Hk; unfold tensor_numel; cbn [fold_right].
  rewrite Z.mul_1_r.
  assert (1 <= k * k) by nia.
  assert (1 <= c * (k * k)) by nia.
  nia.
Qed.

Lemma ConvBNReLU_init_Ok
    (capacity in_planes out_planes kernel_size stride groups : Z)
    (m : module) :
  ConvBNReLU_init capacity in_planes out_planes kernel_size stride groups
  = Ok m ->
  m = ConvBNReLU in_planes out_planes kernel_size stride groups
  /\ 0 < groups /\ in_planes mod groups = 0 /\ out_planes mod groups = 0
  /\ creatable capacity
       [out_planes; in_planes / groups; kernel_size; kernel_size] = true
  /\ creatable capacity [out_planes] = true.
Proof.
  unfold ConvBNReLU_init; cbv zeta; intros E.
  apply bind_Ok_inv in E; destruct E as (conv & Hconv & E).
  apply bind_Ok_inv in E; destruct E as (bn & Hbn & E).
  apply Ok_inj in E; subst m.
  apply Conv2d_init_Ok in Hconv.
  destruct Hconv as (-> & Hg & Hi & Ho & Hw).
  unfold BatchNorm2d_init, torch_empty in Hbn.
  destruct (creatable capacity [out_planes]) eqn:Hv; [|discriminate Hbn].
  cbn [bind] in Hbn; apply Ok_inj in Hbn; subst bn.
  repeat split; assumption.
Qed.

Lemma ConvBNReLU_init_returns
    (capacity in_planes out_planes kernel_size stride groups : Z) :
  0 < groups -> in_planes mod groups = 0 -> out_planes mod groups = 0 ->
  creatable capacity
    [out_planes; in_planes / groups; kernel_size; kernel_size] = true ->
  creatable capacity [out_planes] = true ->
  ConvBNReLU_init capacity in_planes out_planes kernel_size stride groups
  = Ok (ConvBNReLU in_planes out_planes kernel_size stride groups).
Proof.
  intros Hg Hi Ho Hw Hv.
  unfold ConvBNReLU_init, Conv2d_init, BatchNorm2d_init, torch_empty.
  cbv zeta.
  replace (groups <=? 0) with false by (symmetry; apply Z.leb_gt; lia).
  rewrite Hi, Ho, Hw, Hv; reflexivity.
Qed.

(** What [ConvBNReLU.__init__] returns is the module [ConvBNReLU] of the
    blocks and of the network, and it returns it exactly when the
    framework builds its layers. *)
Lemma ConvBNReLU_init_constructible
    (capacity in_planes out_planes kernel_size stride groups : Z)
    (m : module) :
  ConvBNReLU_init capacity in_planes out_planes kernel_size stride groups
  = Ok m
  <-> m = ConvBNReLU in_planes out_planes kernel_size stride groups
      /\ constructible capacity m = true.
Proof.
  split.
  - intros E; apply ConvBNReLU_init_Ok in E.
    destruct E as (-> & Hg & Hi & Ho & Hw & Hv).
    split; [reflexivity|].
    unfold constructible, ConvBNReLU;
      cbn [groups_ok forallb parameters flat_map app].
    rewrite Hi, Ho, Hw, Hv.
    replace (0 <? groups) with true by (symmetry; apply Z.ltb_lt; lia).
    reflexivity.
  - intros (-> & Hc).
    unfold constructible, ConvBNReLU in Hc;
      cbn [groups_ok forallb parameters flat_map app] in Hc.
    rewrite !andb_true_iff, Z.ltb_lt, !Z.eqb_eq in Hc.
    apply ConvBNReLU_init_returns; tauto.
Qed.

(** C10.  [ConvBNReLU.__init__] has no assertion and no check of its own,
    and derives the padding as [(kernel_size - 1) // 2]; but the
    [nn.Conv2d] it calls validates the group count.  So the constructor
    never raises [AssertionError]; it raises [ValueError] exactly when
    [groups] is not positive or does not divide both channel counts; what
    it returns is the three layers, the convolution carrying the arguments
    as given and the floor of the half as padding, and then the group count
    is positive and divides both channel counts, none of which is
    negative; it does return, for every stride and every positive kernel
    size (outside {1, 2} and {3, 5} too), whenever the group count is valid
    and the machine can hold the weight; the stride is never looked at, the
    outcome being the same for any two strides; and with a stride outside
    {1, 2} or a kernel size outside {3, 5} it is [MBConvBlock] that ends in
    [AssertionError], whatever its other arguments are. *)
Theorem ConvBNReLU_validation
    (capacity in_planes out_planes kernel_size stride groups : Z) :
  ConvBNReLU_init capacity in_planes out_planes kernel_size stride groups
  <> Raise AssertionError
  /\ (ConvBNReLU_init capacity in_planes out_planes kernel_size stride groups
      = Raise ValueError
      <-> groups <= 0 \/ in_planes mod groups <> 0
          \/ out_planes mod groups <> 0)
  /\ (forall m,
        ConvBNReLU_init capacity in_planes out_planes kernel_size stride
                        groups = Ok m ->
        (exists padding,
           m = Sequential
                 [ Conv2d in_planes out_planes kernel_size stride padding
                          groups false;
                   BatchNorm2d out_planes;
                   ReLU ]
           /\ 2 * padding <= kernel_size - 1 < 2 * padding + 2)
        /\ 0 < groups /\ in_planes mod groups = 0
        /\ out_planes mod groups = 0
        /\ 0 <= in_planes /\ 0 <= out_planes /\ 0 <= kernel_size)
  /\ (0 < groups -> in_planes mod groups = 0 -> out_planes mod groups = 0 ->
      0 < in_planes -> 0 < out_planes -> 0 < kernel_size ->
      tensor_numel [out_planes; in_planes / groups; kernel_size; kernel_size]
      <= capacity ->
      ConvBNReLU_init capacity in_planes out_planes kernel_size stride groups
      = Ok (ConvBNReLU in_planes out_planes kernel_size stride groups))
  /\ (forall stride',
        match ConvBNReLU_init capacity in_planes out_planes kernel_size
                              stride groups with
        | Ok _ =>
            ConvBNReLU_init capacity in_planes out_planes kernel_size stride'
                            groups
            = Ok (ConvBNReLU in_planes out_planes kernel_size stride' groups)
        | Raise e =>
            ConvBNReLU_init capacity in_planes out_planes kernel_size stride'
                            groups
            = Raise e
        end)
  /\ (~ In stride [1; 2] \/ ~ In kernel_size [3; 5] ->
      forall (expand_ratio reduction_ratio : num) (no_skip : bool),
        MBConvBlock in_planes out_planes stride expand_ratio kernel_size
                    reduction_ratio no_skip = Raise AssertionError).
Proof.
  split; [|split; [|split; [|split; [|split]]]].
  - unfold ConvBNReLU_init, Conv2d_init, BatchNorm2d_init, torch_empty.
    cbv zeta.
    destruct (groups <=? 0); [discriminate|].
    destruct (in_planes mod groups =? 0); [|discriminate].
    destruct (out_planes mod groups =? 0); [|discriminate].
    cbn [negb bind].
    destruct (creatable _ [_; _; _; _]); [|discriminate].
    cbn [bind].
    destruct (creatable _ [_]); discriminate.
  - unfold ConvBNReLU_init; cbv zeta.
    rewrite <- (Conv2d_init_ValueError capacity in_planes out_planes
                  kernel_size stride ((kernel_size - 1) / 2) groups false).
    destruct (Conv2d_init capacity in_planes out_planes kernel_size stride
                ((kernel_size - 1) / 2) groups false) as [conv|e];
      cbn [bind]; [|tauto].
    unfold BatchNorm2d_init, torch_empty.
    destruct (creatable _ [_]); cbn [bind]; split; discriminate.
  - intros m E; apply ConvBNReLU_init_Ok in E.
    destruct E as (-> & Hg & Hi & Ho & Hw & Hv).
    apply creatable_weight in Hw; destruct Hw as (Ho0 & Hc0 & Hk0 & _).
    split.
    { exists ((kernel_size - 1) / 2); split; [reflexivity|].
      Z.div_mod_to_equations; lia. }
    repeat split; try assumption.
    apply Z.mod_divide in Hi; [|lia].
    destruct Hi as (q & ->).
    rewrite Z.div_mul in Hc0 by lia; nia.
  - intros Hg Hi Ho Hi0 Ho0 Hk0 Hfit.
    assert (Hc : 0 < in_planes / groups).
    { apply Z.mod_divide in Hi; [|lia].
      destruct Hi as (q & ->).
      rewrite Z.div_mul by lia; nia. }
    apply ConvBNReLU_init_returns; try assumption.
    + apply creatable_weight; lia.
    + apply creatable_vector; split; [lia|].
      pose proof (weight_numel_filters out_planes (in_planes / groups)
                    kernel_size Ho0 Hc Hk0); lia.
  - intros stride'.
    unfold ConvBNReLU_init, Conv2d_init, BatchNorm2d_init, torch_empty.
    cbv zeta.
    destruct (groups <=? 0); [reflexivity|].
    destruct (in_planes mod groups =? 0); [|reflexivity].
    destruct (out_planes mod groups =? 0); [|reflexivity].
    cbn [negb bind].
    destruct (creatable _ [_; _; _; _]); [|reflexivity].
    cbn [bind].
    destruct (creatable _ [_]); reflexivity.
  - intros Hn expand_ratio reduction_ratio no_skip.
    apply MBConvBlock_assertions; exact Hn.
Qed.

(** The group count is validated: 3 groups do not divide 10 channels, and
    there is no convolution in 0 groups. *)
Lemma ConvBNReLU_groups_rejected :
  ConvBNReLU_init (2 ^ 31) 10 20 3 1 3 = Raise ValueError
  /\ ConvBNReLU_init (2 ^ 31) 10 20 4 0 0 = Raise ValueError.
Proof. split; reflexivity. Qed.

(** A 7x7 convolution of stride 3 in 5 groups is built as asked, with
    padding 3; an even kernel size gets the floor of the half; a negative
    channel count is refused when the weight is created; and a stride of 3
    or a kernel size of 7 is what [MBConvBlock] asserts against. *)
Example ConvBNReLU_any_arguments :
  ConvBNReLU_init (2 ^ 31) 10 20 7 3 5
  = Ok (Sequential [Conv2d 10 20 7 3 3 5 false; BatchNorm2d 20; ReLU])
  /\ ConvBNReLU_init (2 ^ 31) 10 20 4 0 1
     = Ok (Sequential [Conv2d 10 20 4 0 1 1 false; BatchNorm2d 20; ReLU])
  /\ ConvBNReLU_init (2 ^ 31) (-10) 20 3 1 1 = Raise RuntimeError
  /\ MBConvBlock 10 20 3 (PyInt 6) 7 (PyInt 1) false = Raise AssertionError.
Proof. repeat split. Qed.

(** ** Shapes *)

Lemma broadcast_dim_refl (a : Z) : broadcast_dim a a = Ok a.
Proof. unfold broadcast_dim; rewrite Z.eqb_refl; reflexivity. Qed.

Lemma broadcast_dim_1_r (a : Z) : broadcast_dim a 1 = Ok a.
Proof.
  unfold broadcast_dim.
  destruct (a =? 1) eqn:E; [reflexivity|].
  reflexivity.
Qed.

Lemma broadcast_rev_refl (xs : list Z) : broadcast_rev xs xs = Ok xs.
Proof.
  induction xs as [|a xs IH]; [reflexivity|].
  cbn [broadcast_rev]; rewrite broadcast_dim_refl, IH; reflexivity.
Qed.

(** Adding a tensor to one of its own shape keeps the shape. *)
Lemma broadcast_refl (x : shape) : broadcast x x = Ok x.
Proof.
  unfold broadcast; rewrite broadcast_rev_refl; cbn [bind].
  rewrite rev_involutive; reflexivity.
Qed.

(** Multiplying by a per-channel gate keeps the shape. *)
Lemma broadcast_gate (N C H W : Z) :
  broadcast [N; C; H; W] [N; C; 1; 1] = Ok [N; C; H; W].
Proof.
  unfold broadcast; cbn [rev app broadcast_rev].
  rewrite !broadcast_dim_1_r, !broadcast_dim_refl; reflexivity.
Qed.

(** The same for a single image. *)
Lemma broadcast_gate_image (C H W : Z) :
  broadcast [C; H; W] [C; 1; 1] = Ok [C; H; W].
Proof.
  unfold broadcast; cbn [rev app broadcast_rev].
  rewrite !broadcast_dim_1_r, !broadcast_dim_refl; reflexivity.
Qed.

Lemma pooled_length (o : Z) (x y : shape) :
  pooled o x = Some y -> length y = length x.
Proof.
  revert y; induction x as [|a x IH]; intros y E; [discriminate E|].
  cbn [pooled] in E.
  destruct x as [|b [|c x]]; [discriminate E | |].
  - injection E as <-; reflexivity.
  - destruct (pooled o (b :: c :: x)) as [z|]; [|discriminate E].
    cbn [option_map] in E; injection E as <-.
    cbn [length]; f_equal; apply IH; reflexivity.
Qed.

(** The pointwise convolutions of the gate, on a pooled batch and on a
    pooled image. *)
Lemma conv2d_accepts_pooled (i o N C : Z) :
  conv2d_accepts i o 1 1 0 1 N C 1 1 = (C =? i) && (1 <=? o).
Proof.
  unfold conv2d_accepts.
  change (0 <? 1) with true; change (0 <=? 0) with true.
  change (1 <=? 1 + 2 * 0) with true.
  rewrite !andb_true_r, orb_true_r, andb_true_r; reflexivity.
Qed.

(** [self.se] of a gate, on a batch and on an image. *)
Lemma gate_batch (num_features reduced_dim N C : Z) :
  run_layers (forward (T := shape))
    [ Conv2d num_features reduced_dim 1 1 0 1 true; ReLU;
      Conv2d reduced_dim num_features 1 1 0 1 true; Sigmoid ] [N; C; 1; 1]
  = if (C =? num_features) && (1 <=? reduced_dim) && (1 <=? num_features)
    then Ok [N; num_features; 1; 1]
    else Raise RuntimeError.
Proof.
  cbn [forward run_layers bind shape_tensor conv2d relu sigmoid shape_conv2d].
  rewrite conv2d_accepts_pooled.
  destruct ((C =? num_features) && (1 <=? reduced_dim)); [|reflexivity].
  cbn [bind andb shape_conv2d].
  rewrite conv2d_accepts_pooled, Z.eqb_refl, !window_out_pointwise.
  cbn [andb]; destruct (1 <=? num_features); reflexivity.
Qed.

Lemma gate_image (num_features reduced_dim C : Z) :
  run_layers (forward (T := shape))
    [ Conv2d num_features reduced_dim 1 1 0 1 true; ReLU;
      Conv2d reduced_dim num_features 1 1 0 1 true; Sigmoid ] [C; 1; 1]
  = if (C =? num_features) && (1 <=? reduced_dim) && (1 <=? num_features)
    then Ok [num_features; 1; 1]
    else Raise RuntimeError.
Proof.
  cbn [forward run_layers bind shape_tensor conv2d relu sigmoid shape_conv2d].
  rewrite conv2d_accepts_pooled.
  destruct ((C =? num_features) && (1 <=? reduced_dim)); [|reflexivity].
  cbn [bind andb shape_conv2d].
  rewrite conv2d_accepts_pooled, Z.eqb_refl, !window_out_pointwise.
  cbn [andb]; destruct (1 <=? num_features); reflexivity.
Qed.

Lemma forward_SqueezeExcitation (num_features reduced_dim : Z) (x : shape) :
  forward (T := shape) (SqueezeExcitation num_features reduced_dim) x
  = (p <- match pooled 1 x with
          | Some p => Ok p
          | None => Raise IndexError
          end ;;
     y <- run_layers (forward (T := shape))
            [ Conv2d num_features reduced_dim 1 1 0 1 true; ReLU;
              Conv2d reduced_dim num_features 1 1 0 1 true; Sigmoid ] p ;;
     broadcast x y).
Proof.
  unfold SqueezeExcitation.
  cbn [forward run_layers bind shape_tensor adaptive_avg_pool2d tensor_mul
       shape_adaptive_avg_pool2d Z.eqb Pos.eqb].
  destruct (pooled 1 x); reflexivity.
Qed.

Lemma SqueezeExcitation_shape (num_features reduced_dim N H W : Z) :
  1 <= num_features -> 1 <= reduced_dim ->
  forward (T := shape) (SqueezeExcitation num_features reduced_dim) [N; num_features; H; W]
  = Ok [N; num_features; H; W].
Proof.
  intros HC HR.
  rewrite forward_SqueezeExcitation.
  cbn [pooled option_map bind]; rewrite gate_batch, Z.eqb_refl.
  apply Z.leb_le in HC, HR; rewrite HC, HR; cbn [andb bind].
  apply broadcast_gate.
Qed.

Lemma SqueezeExcitation_shape_image (num_features reduced_dim H W : Z) :
  1 <= num_features -> 1 <= reduced_dim ->
  forward (T := shape) (SqueezeExcitation num_features reduced_dim) [num_features; H; W]
  = Ok [num_features; H; W].
Proof.
  intros HC HR.
  rewrite forward_SqueezeExcitation.
  cbn [pooled option_map bind]; rewrite gate_image, Z.eqb_refl.
  apply Z.leb_le in HC, HR; rewrite HC, HR; cbn [andb bind].
  apply broadcast_gate_image.
Qed.

(** When the gate returns, its channel counts are positive, its input is a
    batch or an image with [num_features] channels, and the result has the
    shape of the input. *)
Lemma SqueezeExcitation_Ok_inv (num_features reduced_dim : Z) (x y : shape) :
  forward (T := shape) (SqueezeExcitation num_features reduced_dim) x = Ok y ->
  1 <= num_features /\ 1 <= reduced_dim /\ y = x
  /\ ((exists N H W, x = [N; num_features; H; W])
      \/ (exists H W, x = [num_features; H; W])).
Proof.
  rewrite forward_SqueezeExcitation.
  destruct (pooled 1 x) as [p|] eqn:Ep; [|discriminate].
  cbn [bind]; intros E.
  pose proof (pooled_length 1 x p Ep) as Hlen.
  destruct x as [|a [|b [|c [|d [|e x]]]]]; try discriminate Ep.
  - (* two extents: not an image *)
    cbn [pooled] in Ep; injection Ep as <-; discriminate E.
  - (* an image *)
    cbn [pooled option_map] in Ep; injection Ep as <-.
    rewrite gate_image in E.
    destruct ((a =? num_features) && (1 <=? reduced_dim)
              && (1 <=? num_features)) eqn:Hc; [|discriminate E].
    apply andb_true_iff in Hc; destruct Hc as [Hc H1].
    apply andb_true_iff in Hc; destruct Hc as [Ha H2].
    apply Z.eqb_eq in Ha; apply Z.leb_le in H1, H2; subst a.
    cbn [bind] in E; rewrite broadcast_gate_image in E.
    injection E as <-.
    repeat split; try assumption; right; eauto.
  - (* a batch *)
    cbn [pooled option_map] in Ep; injection Ep as <-.
    rewrite gate_batch in E.
    destruct ((b =? num_features) && (1 <=? reduced_dim)
              && (1 <=? num_features)) eqn:Hc; [|discriminate E].
    apply andb_true_iff in Hc; destruct Hc as [Hc H1].
    apply andb_true_iff in Hc; destruct Hc as [Ha H2].
    apply Z.eqb_eq in Ha; apply Z.leb_le in H1, H2; subst b.
    cbn [bind] in E; rewrite broadcast_gate in E.
    injection E as <-.
    repeat split; try assumption; left; eauto.
  - (* more than four extents *)
    cbn [length] in Hlen.
    destruct p as [|? [|? [|? [|? [|? ?]]]]]; try discriminate Hlen.
    discriminate E.
Qed.

(** C9.  A gate built on [num_features >= 1] channels with a reduced
    dimension [reduced_dim >= 1] returns a tensor of exactly the shape of
    its input, for every batch [(N, num_features, H, W)] and every single
    image [(num_features, H, W)], whatever the extents are (an empty batch
    or an empty plane included); and on no input at all does it return a
    tensor of another shape. *)
Theorem SqueezeExcitation_keeps_shape (num_features reduced_dim : Z) :
  1 <= num_features -> 1 <= reduced_dim ->
  (forall N H W : Z,
     0 <= N -> 0 <= H -> 0 <= W ->
     output_shape (SqueezeExcitation num_features reduced_dim)
                  [N; num_features; H; W]
     = Ok [N; num_features; H; W])
  /\ (forall H W : Z,
        0 <= H -> 0 <= W ->
        output_shape (SqueezeExcitation num_features reduced_dim)
                     [num_features; H; W]
        = Ok [num_features; H; W])
  /\ (forall x y : shape,
        output_shape (SqueezeExcitation num_features reduced_dim) x = Ok y ->
        y = x).
Proof.
  intros HC HR; split; [|split].
  - intros N H W _ _ _; apply SqueezeExcitation_shape; assumption.
  - intros H W _ _; apply SqueezeExcitation_shape_image; assumption.
  - intros x y E; apply SqueezeExcitation_Ok_inv in E; tauto.
Qed.

Lemma SqueezeExcitation_keeps_shape_witness :
  1 <= 72 /\ 1 <= 6 /\
  (forall N H W : Z,
     0 <= N -> 0 <= H -> 0 <= W ->
     output_shape (SqueezeExcitation 72 6) [N; 72; H; W] = Ok [N; 72; H; W])
  /\ (forall H W : Z,
        0 <= H -> 0 <= W ->
        output_shape (SqueezeExcitation 72 6) [72; H; W] = Ok [72; H; W])
  /\ (forall x y : shape,
        output_shape (SqueezeExcitation 72 6) x = Ok y -> y = x).
Proof.
  split; [discriminate|]; split; [discriminate|].
  apply (SqueezeExcitation_keeps_shape 72 6); discriminate.
Defined.

(** The gate of [MBConvBlock(24, 40, 2, 3, kernel_size=5,
    reduction_ratio=4)] on a batch, on an empty plane and on a single
    image; a gate with no reduced channel fails in its first
    convolution. *)
Example gate_shapes :
  output_shape (SqueezeExcitation 72 6) [1; 72; 28; 28] = Ok [1; 72; 28; 28]
  /\ output_shape (SqueezeExcitation 72 6) [1; 72; 0; 28] = Ok [1; 72; 0; 28]
  /\ output_shape (SqueezeExcitation 72 6) [72; 28; 28] = Ok [72; 28; 28]
  /\ output_shape (SqueezeExcitation 72 0) [1; 72; 28; 28]
     = Raise RuntimeError.
Proof. repeat split; reflexivity. Qed.

(** ** What [MnasNetA1.__init__] builds *)

Lemma repeat_loop_inv (out_channels s t k r : Z) (no_skip : bool)
    (js : list nat) :
  forall (fs : list module) (in_channels : Z) (st : loop_state),
    foldM (repeat_body out_channels s t k r no_skip) js (fs, in_channels)
    = Ok st ->
    exists blocks,
      Forall2 (fun c b => run_call c = Ok b)
              (repeat_calls in_channels out_channels s t k r no_skip js)
              blocks
      /\ st = (fs ++ blocks, after_repeat in_channels out_channels js).
Proof.
  induction js as [|j js IH]; intros fs in_channels st E.
  - injection E as <-; exists []; split; [constructor|].
    rewrite app_nil_r; reflexivity.
  - cbn [foldM] in E.
    apply bind_Ok_inv in E; destruct E as (st1 & H1 & E).
    unfold repeat_body in H1.
    apply bind_Ok_inv in H1; destruct H1 as (b & Hb & H1).
    injection H1 as <-.
    apply IH in E; destruct E as (blocks & HF & ->).
    exists (b :: blocks); split.
    + cbn [repeat_calls]; constructor; [exact Hb | exact HF].
    + rewrite <- app_assoc; cbn [app after_repeat].
      destruct js; reflexivity.
Qed.

Lemma stage_loop_inv (width_mult : float)
    (rows : list (nat * (Z * Z * Z * Z * Z * Z))) :
  forall (fs : list module) (in_channels : Z) (st : loop_state),
    foldM (stage_body width_mult) rows (fs, in_channels) = Ok st ->
    exists outs stages,
      Forall2 (fun row out => scaled (row_channels row) width_mult = Ok out)
              rows outs
      /\ Forall2 (Forall2 (fun c b => run_call c = Ok b))
                 (stage_calls in_channels rows outs) stages
      /\ st = (fs ++ concat stages, final_channels in_channels rows outs).
Proof.
  induction rows as [|[i [[[[[t c] n] s] k] r]] rows IH];
    intros fs in_channels st E.
  - injection E as <-; exists [], []; repeat split; try constructor.
    cbn [concat]; rewrite app_nil_r; reflexivity.
  - cbn [foldM] in E.
    apply bind_Ok_inv in E; destruct E as (st1 & H1 & E).
    unfold stage_body in H1.
    apply bind_Ok_inv in H1; destruct H1 as (out_channels & Hs & H1).
    apply repeat_loop_inv in H1; destruct H1 as (blocks & HF & ->).
    apply IH in E; destruct E as (outs & stages & Ho & Hst & ->).
    exists (out_channels :: outs), (blocks :: stages); split; [|split].
    + constructor; [exact Hs | exact Ho].
    + cbn [stage_calls]; constructor; [exact HF | exact Hst].
    + cbn [concat final_channels]; rewrite <- app_assoc; reflexivity.
Qed.

(** The network is the stem, the blocks the calls return, and the head. *)
Lemma MnasNetA1_inv (width_mult : float) (num_classes : Z) (net : module) :
  MnasNetA1 width_mult num_classes = Ok net ->
  exists c0 outs stages,
    scaled 32 width_mult = Ok c0
    /\ Forall2 (fun row out => scaled (row_channels row) width_mult = Ok out)
               (enumerate settings) outs
    /\ Forall2 (Forall2 (fun c b => run_call c = Ok b))
               (stage_calls c0 (enumerate settings) outs) stages
    /\ net = mkMnasNetA1
               (Sequential
                  (ConvBNReLU 3 c0 3 2 1
                   :: concat stages
                   ++ [ConvBNReLU (final_channels c0 (enumerate settings) outs)
                                  1280 1 1 1]))
               (AvgPool2d 7)
               (Sequential [Dropout dropout_p; Linear 1280 num_classes]).
Proof.
  unfold MnasNetA1; intros E.
  apply bind_Ok_inv in E; destruct E as (c0 & Hc0 & E).
  apply bind_Ok_inv in E; destruct E as (c0' & Hc0' & E).
  assert (c0' = c0) by congruence; subst c0'.
  apply bind_Ok_inv in E; destruct E as (st & Hst & E).
  apply stage_loop_inv in Hst; destruct Hst as (outs & stages & Ho & Hs & ->).
  injection E as <-.
  exists c0, outs, stages; repeat split; assumption.
Qed.

(** ** Channel counts of the modules *)

Lemma last_some_app_Some {A : Type} (xs ys : list (option A)) (a : A) :
  last_some ys = Some a -> last_some (xs ++ ys) = Some a.
Proof.
  unfold last_some; rewrite rev_app_distr.
  generalize (rev xs); generalize (rev ys); clear xs ys.
  intros ys xs; induction ys as [|[b|] ys IH]; cbn [first_some app]; intros H;
    [discriminate | exact H | apply IH; exact H].
Qed.

Lemma last_some_cons_Some {A : Type} (x : option A) (ys : list (option A))
    (a : A) :
  last_some ys = Some a -> last_some (x :: ys) = Some a.
Proof. apply (last_some_app_Some [x]). Qed.

Lemma MBConvBlock_channels
    (in_planes out_planes stride : Z) (expand_ratio : num)
    (kernel_size : Z) (reduction_ratio : num) (no_skip : bool) (b : module) :
  MBConvBlock in_planes out_planes stride expand_ratio kernel_size
              reduction_ratio no_skip = Ok b ->
  in_channels_of b = Some in_planes /\ out_channels_of b = Some out_planes.
Proof.
  intros E; apply MBConvBlock_Ok_inv in E.
  destruct E as (_ & _ & hidden_dim & se & _ & _ & ->); split.
  - cbn [in_channels_of].
    destruct (in_planes =? hidden_dim) eqn:Hc; [|reflexivity].
    apply Z.eqb_eq in Hc; subst; reflexivity.
  - cbn [out_channels_of].
    rewrite map_app; apply last_some_app_Some.
    rewrite map_cons; apply last_some_cons_Some.
    rewrite map_app; apply last_some_app_Some; reflexivity.
Qed.

Lemma run_call_channels (c : block_call) (b : module) :
  run_call c = Ok b ->
  in_channels_of b = Some (call_in_planes c)
  /\ out_channels_of b = Some (call_out_planes c).
Proof. apply MBConvBlock_channels. Qed.


(** Takes apart the [Forall2] facts over lists whose length is known. *)
Ltac inv_Forall2 :=
  repeat match goal with
         | H : Forall2 _ (_ :: _) _ |- _ => inversion H; subst; clear H
         | H : Forall2 _ [] _ |- _ => inversion H; subst; clear H
         end.

(** Unfolds the loops of the calls over the rows of [settings]. *)
Ltac unroll_stage_calls H :=
  cbv [enumerate settings length seq combine stage_calls range Z.to_nat
       Pos.to_nat Pos.iter_op Nat.add repeat_calls after_repeat Nat.eqb] in H.

(** The network by its blocks: seven stages of 1, 2, 3, 4, 2, 3 and 1
    blocks, each block the result of the call shown. *)
Lemma MnasNetA1_blocks (width_mult : float) (num_classes : Z) (net : module) :
  MnasNetA1 width_mult num_classes = Ok net ->
  exists c0 c1 c2 c3 c4 c5 c6 c7 stages,
    scaled 32 width_mult = Ok c0 /\ scaled 16 width_mult = Ok c1 /\
    scaled 24 width_mult = Ok c2 /\ scaled 40 width_mult = Ok c3 /\
    scaled 80 width_mult = Ok c4 /\ scaled 112 width_mult = Ok c5 /\
    scaled 160 width_mult = Ok c6 /\ scaled 320 width_mult = Ok c7 /\
    Forall2 (Forall2 (fun c b => run_call c = Ok b))
            (stage_calls c0 (enumerate settings) [c1; c2; c3; c4; c5; c6; c7])
            stages /\
    net = mkMnasNetA1
            (Sequential
               (ConvBNReLU 3 c0 3 2 1
                :: concat stages ++ [ConvBNReLU c7 1280 1 1 1]))
            (AvgPool2d 7)
            (Sequential [Dropout dropout_p; Linear 1280 num_classes]).
Proof.
  intros E; apply MnasNetA1_inv in E.
  destruct E as (c0 & outs & stages & Hc0 & Ho & Hs & ->).
  cbv [enumerate settings length seq combine] in Ho.
  inv_Forall2.
  cbn [row_channels] in *.
  do 8 eexists; exists stages.
  do 8 (split; [eassumption|]).
  split; [exact Hs | reflexivity].
Qed.

(** ** The network's topology *)

(** C4.  In the network built for any width multiplier, [self.features] is
    the stem, seven stages of 1, 2, 3, 4, 2, 3 and 1 blocks, and the head.
    The stem takes 3 channels and gives the scaled 32; every block of a
    stage gives the scaled channel count of its row of [settings]; the head
    gives 1280; and every module of the sequence expects as input channel
    count the output channel count of the module before it. *)
Theorem MnasNetA1_channel_chain
    (width_mult : float) (num_classes : Z) (net : module) :
  MnasNetA1 width_mult num_classes = Ok net ->
  exists c0 stem stages head,
    scaled 32 width_mult = Ok c0 /\
    children (features net) = stem :: concat stages ++ [head] /\
    map (@length module) stages = [1; 2; 3; 4; 2; 3; 1]%nat /\
    in_channels_of stem = Some 3 /\
    out_channels_of stem = Some c0 /\
    Forall2 (fun row blocks =>
               exists c, scaled (row_channels row) width_mult = Ok c /\
                         Forall (fun b => out_channels_of b = Some c) blocks)
            (enumerate settings) stages /\
    out_channels_of head = Some 1280 /\
    chained (stem :: concat stages ++ [head]).
Proof.
  intros E; apply MnasNetA1_blocks in E.
  destruct E as (c0 & c1 & c2 & c3 & c4 & c5 & c6 & c7 & stages
                 & H0 & H1 & H2 & H3 & H4 & H5 & H6 & H7 & Hs & ->).
  cbv [enumerate settings length seq combine stage_calls range Z.to_nat
       Pos.to_nat Pos.iter_op Nat.add repeat_calls after_repeat Nat.eqb]
    in Hs.
  inv_Forall2.
  repeat match goal with
         | H : run_call _ = Ok _ |- _ =>
             apply run_call_channels in H;
             cbn [call_in_planes call_out_planes] in H; destruct H
         end.
  exists c0, (ConvBNReLU 3 c0 3 2 1).
  eexists; exists (ConvBNReLU c7 1280 1 1 1).
  split; [assumption|].
  split; [reflexivity|].
  split; [reflexivity|].
  split; [reflexivity|].
  split; [reflexivity|].
  split.
  { cbv [enumerate settings length seq combine].
    repeat (constructor;
            [cbn [row_channels]; eexists; split;
             [eassumption | repeat constructor; assumption]|]).
    constructor. }
  split; [reflexivity|].
  cbn [concat app chained].
  repeat (split;
          [eexists; split; first [eassumption | reflexivity]|]).
  exact I.
Qed.

Lemma MnasNetA1_channel_chain_witness :
  MnasNetA1 default_width_mult default_num_classes = Ok canonical_net /\
  exists c0 stem stages head,
    scaled 32 default_width_mult = Ok c0 /\
    children (features canonical_net) = stem :: concat stages ++ [head] /\
    map (@length module) stages = [1; 2; 3; 4; 2; 3; 1]%nat /\
    in_channels_of stem = Some 3 /\
    out_channels_of stem = Some c0 /\
    Forall2 (fun row blocks =>
               exists c, scaled (row_channels row) default_width_mult = Ok c /\
                         Forall (fun b => out_channels_of b = Some c) blocks)
            (enumerate settings) stages /\
    out_channels_of head = Some 1280 /\
    chained (stem :: concat stages ++ [head]).
Proof.
  split; [reflexivity|].
  apply (MnasNetA1_channel_chain default_width_mult default_num_classes
           canonical_net).
  reflexivity.
Defined.

(** The channel counts at two multipliers; [int()] truncates
    [16 * 0.35 = 5.6] to 5. *)
Example scaled_channels :
  map (fun c => scaled c 1) [32; 16; 24; 40; 80; 112; 160; 320]
  = map Ok [32; 16; 24; 40; 80; 112; 160; 320]
  /\ map (fun c => scaled c 0x1.6666666666666p-2) [32; 16; 24; 40; 80; 112; 160; 320]
     = map Ok [11; 5; 8; 14; 28; 39; 56; 112].
Proof. split; reflexivity. Qed.

(** ** The shape of a forward pass, for any channel counts *)

Lemma run_layers_app (ls1 ls2 : list module) (x : shape) :
  run_layers (forward (T := shape)) (ls1 ++ ls2) x
  = (y <- run_layers (forward (T := shape)) ls1 x ;; run_layers (forward (T := shape)) ls2 y).
Proof.
  revert x; induction ls1 as [|l ls1 IH]; intros x; cbn [app run_layers bind];
    [reflexivity|].
  destruct (forward l x); cbn [bind]; [apply IH | reflexivity].
Qed.



Lemma strided_extent_pos (H s : Z) : 0 < H -> 0 < s -> 0 < (H - 1) / s + 1.
Proof.
  intros HH Hs; pose proof (Z.div_pos (H - 1) s ltac:(lia) Hs); lia.
Qed.

Lemma ConvBNReLU_shape (i o k s g N H W : Z) :
  0 < s -> 0 < k -> 0 <= (k - 1) / 2 ->
  k <= H + 2 * ((k - 1) / 2) -> k <= W + 2 * ((k - 1) / 2) ->
  0 < g -> g <= o -> 0 < H -> 0 < W ->
  forward (T := shape) (ConvBNReLU i o k s g) [N; i; H; W]
  = Ok [N; o; window_out H k s ((k - 1) / 2); window_out W k s ((k - 1) / 2)].
Proof.
  intros Hs Hk Hp HH HW Hg Hgo HH0 HW0.
  unfold ConvBNReLU.
  cbn [forward run_layers bind shape_tensor conv2d batch_norm2d relu
       shape_conv2d shape_batch_norm2d].
  unfold conv2d_accepts; rewrite Z.eqb_refl.
  apply Z.ltb_lt in Hs, Hk, Hg, HH0, HW0; apply Z.leb_le in Hp, HH, HW, Hgo.
  rewrite Hs, Hk, Hp, HH, HW, Hg, Hgo, HH0, HW0, orb_true_r.
  cbn [andb bind shape_batch_norm2d].
  rewrite Z.eqb_refl; reflexivity.
Qed.

Lemma pointwise_linear_shape (h o N H W : Z) :
  0 < o -> 0 < H -> 0 < W ->
  run_layers (forward (T := shape)) [Conv2d h o 1 1 0 1 false; BatchNorm2d o] [N; h; H; W]
  = Ok [N; o; H; W].
Proof.
  intros Ho HH HW.
  cbn [forward run_layers bind shape_tensor conv2d batch_norm2d
       shape_conv2d shape_batch_norm2d].
  unfold conv2d_accepts; rewrite Z.eqb_refl, !window_out_pointwise.
  replace (1 <=? H + 2 * 0) with true by (symmetry; apply Z.leb_le; lia).
  replace (1 <=? W + 2 * 0) with true by (symmetry; apply Z.leb_le; lia).
  replace (1 <=? o) with true by (symmetry; apply Z.leb_le; lia).
  replace (0 <? H) with true by (symmetry; apply Z.ltb_lt; lia).
  replace (0 <? W) with true by (symmetry; apply Z.ltb_lt; lia).
  rewrite orb_true_r.
  cbn [andb Z.ltb Z.leb Z.compare bind shape_batch_norm2d].
  rewrite Z.eqb_refl; reflexivity.
Qed.

(** A block called with integer ratios on positive channel counts maps
    [(N, in_planes, H, W)] to [(N, out_planes, H', W')], the plane shrunk
    by the stride. *)
Lemma run_call_shape (c : block_call) (b : module) (N H W : Z) :
  run_call c = Ok b ->
  0 < call_in_planes c -> 0 < call_out_planes c ->
  1 <= call_expand_ratio c -> 0 < H -> 0 < W ->
  forward (T := shape) b [N; call_in_planes c; H; W]
  = Ok [N; call_out_planes c;
        (H - 1) / call_stride c + 1; (W - 1) / call_stride c + 1].
Proof.
  destruct c as [i o s t k r ns]; unfold run_call;
    cbn [call_in_planes call_out_planes call_stride call_expand_ratio
         call_kernel_size call_reduction_ratio call_no_skip].
  intros E Hi Ho Ht HH HW; apply MBConvBlock_Ok_inv in E.
  destruct E as (Hs & Hk & h & se & Hh & Hse & ->).
  cbn in Hh; injection Hh as <-.
  assert (Hh : 0 < i * t) by nia.
  assert (Hs0 : 0 < s) by (destruct Hs as [<-|[<-|[]]]; lia).
  pose proof (strided_extent_pos H s HH Hs0) as HH'.
  pose proof (strided_extent_pos W s HW Hs0) as HW'.
  (* self.conv *)
  assert (Hconv : run_layers (forward (T := shape))
                    ((if i =? i * t then []
                      else [ConvBNReLU i (i * t) 1 1 1])
                     ++ ConvBNReLU (i * t) (i * t) k s (i * t)
                     :: se
                     ++ [Conv2d (i * t) o 1 1 0 1 false; BatchNorm2d o])
                    [N; i; H; W]
                  = Ok [N; o; (H - 1) / s + 1; (W - 1) / s + 1]).
  { rewrite run_layers_app.
    assert (Hpw : run_layers (forward (T := shape))
                    (if i =? i * t then []
                     else [ConvBNReLU i (i * t) 1 1 1]) [N; i; H; W]
                  = Ok [N; i * t; H; W]).
    { destruct (Z.eqb_spec i (i * t)) as [E|E].
      - cbn [run_layers]; rewrite <- E; reflexivity.
      - cbn [run_layers].
        rewrite ConvBNReLU_shape by (cbn; lia).
        rewrite !window_out_pointwise; reflexivity. }
    rewrite Hpw; cbn [bind run_layers].
    rewrite ConvBNReLU_shape.
    2-10: destruct Hk as [<-|[<-|[]]]; cbn; lia.
    rewrite !window_out_same_padding by assumption.
    cbn [bind]; rewrite run_layers_app.
    assert (Hgate : run_layers (forward (T := shape)) se
                      [N; i * t; (H - 1) / s + 1; (W - 1) / s + 1]
                    = Ok [N; i * t; (H - 1) / s + 1; (W - 1) / s + 1]).
    { destruct Hse as [(_ & rd & Hrd & ->) | (_ & ->)]; [|reflexivity].
      apply reduced_dim_of_positive in Hrd.
      cbn [run_layers]; rewrite SqueezeExcitation_shape by lia.
      reflexivity. }
    rewrite Hgate; cbn [bind].
    apply pointwise_linear_shape; assumption. }
  cbn [forward]; rewrite Hconv.
  destruct ((i =? o) && (s =? 1) && negb ns) eqn:Hu; [|reflexivity].
  apply andb_true_iff in Hu; destruct Hu as [Hu _].
  apply andb_true_iff in Hu; destruct Hu as [Hio Hs1].
  apply Z.eqb_eq in Hio, Hs1; subst o s.
  cbn [bind shape_tensor tensor_add].
  rewrite !Z.div_1_r.
  replace (H - 1 + 1) with H by lia; replace (W - 1 + 1) with W by lia.
  apply broadcast_refl.
Qed.

(** Runs the next block of a sequence with [run_call_shape]; the extents
    of the plane are numbers and are computed. *)
Ltac step_block :=
  cbn [run_layers];
  lazymatch goal with
  | |- context [forward ?y [?N; _; ?H; ?W]] =>
      lazymatch goal with
      | Hr : run_call ?c = Ok y |- _ =>
          let Hx := fresh "Hx" in
          pose proof (run_call_shape c y N H W Hr ltac:(assumption)
                        ltac:(assumption) ltac:(cbn; lia)
                        ltac:(lia) ltac:(lia)) as Hx;
          cbn [call_in_planes call_out_planes call_stride] in Hx;
          match type of Hx with
          | _ = Ok [_; _; ?h; ?w] =>
              let h' := eval vm_compute in h in
              let w' := eval vm_compute in w in
              change h with h' in Hx; change w with w' in Hx
          end;
          rewrite Hx; clear Hx;
          cbn [bind]
      end
  end.

(** [self.features] of any network with positive channel counts maps a
    batch of 224x224 images to [(N, 1280, 7, 7)]. *)
Lemma features_shape (width_mult : float) (num_classes : Z) (net : module)
    (N : Z) :
  MnasNetA1 width_mult num_classes = Ok net ->
  Forall (fun c => exists z, scaled c width_mult = Ok z /\ 0 < z)
         [32; 16; 24; 40; 80; 112; 160; 320] ->
  forward (T := shape) (features net) [N; 3; 224; 224] = Ok [N; 1280; 7; 7].
Proof.
  intros E Hpos; apply MnasNetA1_blocks in E.
  destruct E as (c0 & c1 & c2 & c3 & c4 & c5 & c6 & c7 & stages
                 & H0 & H1 & H2 & H3 & H4 & H5 & H6 & H7 & Hs & ->).
  repeat match goal with
         | H : Forall _ (_ :: _) |- _ => inversion H; subst; clear H
         end.
  repeat match goal with
         | H : exists z, scaled _ _ = Ok z /\ _ |- _ =>
             let z := fresh "z" in
             let Hz := fresh "Hz" in
             let Hp := fresh "Hp" in
             destruct H as (z & Hz & Hp);
             first [ rewrite H0 in Hz | rewrite H1 in Hz | rewrite H2 in Hz
                   | rewrite H3 in Hz | rewrite H4 in Hz | rewrite H5 in Hz
                   | rewrite H6 in Hz | rewrite H7 in Hz ];
             injection Hz as <-
         end.
  unroll_stage_calls Hs.
  inv_Forall2.
  cbn [features forward concat app run_layers].
  rewrite ConvBNReLU_shape by (cbn; lia).
  cbn [bind].
  change (window_out 224 3 2 ((3 - 1) / 2)) with 112.
  do 16 step_block.
  cbn [run_layers].
  rewrite ConvBNReLU_shape by (cbn; lia).
  reflexivity.
Qed.

Lemma forward_MnasNetA1 (f a c : module) (x : shape) :
  forward (mkMnasNetA1 f a c) x
  = (x1 <- forward f x ;;
     x2 <- forward a x1 ;;
     x3 <- view_rows x2 ;;
     forward c x3).
Proof. reflexivity. Qed.

Lemma network_shape (width_mult : float) (num_classes : Z) (net : module)
    (N : Z) :
  N <> 0 ->
  MnasNetA1 width_mult num_classes = Ok net ->
  Forall (fun c => exists z, scaled c width_mult = Ok z /\ 0 < z)
         [32; 16; 24; 40; 80; 112; 160; 320] ->
  output_shape net [N; 3; 224; 224] = Ok [N; num_classes].
Proof.
  intros HN E Hpos.
  pose proof (features_shape width_mult num_classes net N E Hpos) as HF.
  apply MnasNetA1_inv in E.
  destruct E as (c0 & outs & stages & _ & _ & _ & ->).
  cbn [features] in HF.
  unfold output_shape; rewrite forward_MnasNetA1, HF.
  cbn [run_layers forward bind shape_tensor avg_pool2d view_rows dropout
       linear shape_avg_pool2d shape_view_rows].
  apply Z.eqb_neq in HN.
  cbn -[Z.eqb]; rewrite HN; reflexivity.
Qed.

(** C1.  The network built with width multiplier 1.0 maps a batch of [N]
    images of shape [(3, 224, 224)] to a tensor of shape
    [(N, num_classes)]: for one image and 1000 classes, [(1, 1000)].  So
    does the network built with any other width multiplier that leaves
    every scaled channel count positive. *)
Theorem MnasNetA1_output_shape (N num_classes : Z) :
  N <> 0 ->
  (exists m,
     MnasNetA1 default_width_mult num_classes = Ok m /\
     output_shape m [N; 3; 224; 224] = Ok [N; num_classes]) /\
  (forall (width_mult : float) (net : module),
     MnasNetA1 width_mult num_classes = Ok net ->
     Forall (fun c => exists z, scaled c width_mult = Ok z /\ 0 < z)
            [32; 16; 24; 40; 80; 112; 160; 320] ->
     output_shape net [N; 3; 224; 224] = Ok [N; num_classes]).
Proof.
  intros HN; split.
  - exists (mkMnasNetA1 canonical_features (AvgPool2d 7)
              (Sequential [Dropout dropout_p; Linear 1280 num_classes])).
    split; [reflexivity|].
    apply (network_shape default_width_mult); [assumption | reflexivity|].
    repeat (constructor; [eexists; split; [reflexivity | reflexivity]|]).
    constructor.
  - intros width_mult net E Hpos; apply (network_shape width_mult); assumption.
Qed.

Lemma MnasNetA1_output_shape_witness :
  1 <> 0 /\
  (exists m,
     MnasNetA1 default_width_mult default_num_classes = Ok m /\
     output_shape m [1; 3; 224; 224] = Ok [1; 1000]) /\
  (forall (width_mult : float) (net : module),
     MnasNetA1 width_mult default_num_classes = Ok net ->
     Forall (fun c => exists z, scaled c width_mult = Ok z /\ 0 < z)
            [32; 16; 24; 40; 80; 112; 160; 320] ->
     output_shape net [1; 3; 224; 224] = Ok [1; default_num_classes]).
Proof.
  split; [discriminate|].
  apply (MnasNetA1_output_shape 1 default_num_classes); discriminate.
Defined.

(** What the program prints first: the shape for one random image. *)
Example main_prints_shape :
  output_shape canonical_net [1; 3; 224; 224] = Ok [1; 1000].
Proof. reflexivity. Qed.

(** At another resolution the fixed 7x7 pooling window no longer yields one
    value per channel, and the classifier rejects its input. *)
Example other_resolution :
  (m <- MnasNetA1 default_width_mult default_num_classes ;;
   output_shape m [1; 3; 448; 448]) = Raise RuntimeError.
Proof. reflexivity. Qed.

(** With multiplier 0.05 the second channel count is [int(0.8) = 0]. *)
Example vanishing_channels : scaled 16 0x1.999999999999ap-5 = Ok 0.
Proof. reflexivity. Qed.



(** With equal channel counts and stride 1 the flag alone decides. *)
Example no_skip_decides :
  (b <- MBConvBlock 16 16 1 (PyInt 1) 3 (PyInt 1) true ;; Ok (use_residual b))
  = Ok false
  /\ (b <- MBConvBlock 16 16 1 (PyInt 1) 3 (PyInt 1) false ;; Ok (use_residual b))
     = Ok true.
Proof. split; reflexivity. Qed.

(** ** Rounding: the shift, the digits and the rounded value *)

Lemma round_nearest_even_rne (m : Z) (l : location) (N D : Z) :
  0 < D -> describes m l N D -> round_nearest_even m l = rne N D.
Proof.
  intros HD [-> ->]; unfold loc_of, rne, round_nearest_even.
  pose proof (Z.mod_pos_bound N D HD) as Hr.
  destruct (N mod D =? 0) eqn:E.
  - apply Z.eqb_eq in E; rewrite E.
    replace (2 * 0 ?= D) with Lt by (symmetry; apply Z.compare_lt_iff; lia).
    reflexivity.
  - destruct (2 * (N mod D) ?= D); reflexivity.
Qed.

Lemma rne_bounds (N D : Z) : 0 < D -> N / D <= rne N D <= N / D + 1.
Proof.
  intros HD; unfold rne.
  destruct (2 * (N mod D) ?= D); [destruct (Z.even (N / D))| |]; lia.
Qed.

Lemma rne_exact (q D : Z) : 0 < D -> rne (q * D) D = q.
Proof.
  intros HD; unfold rne.
  rewrite Z.mod_mul, Z.div_mul by lia.
  replace (2 * 0 ?= D) with Lt by (symmetry; apply Z.compare_lt_iff; lia).
  reflexivity.
Qed.

Lemma rne_mono (N1 N2 D : Z) : 0 < D -> N1 <= N2 -> rne N1 D <= rne N2 D.
Proof.
  intros HD HN.
  pose proof (Z.div_le_mono N1 N2 D HD HN) as Hq.
  pose proof (rne_bounds N1 D HD) as H1.
  pose proof (rne_bounds N2 D HD) as H2.
  destruct (Z.eq_dec (N1 / D) (N2 / D)) as [E|NE].
  2: { revert Hq H1 H2 NE.
       generalize (rne N1 D) (rne N2 D) (N1 / D) (N2 / D); intros; lia. }
  pose proof (Z.div_mod N1 D ltac:(lia)) as E1.
  pose proof (Z.div_mod N2 D ltac:(lia)) as E2.
  assert (Hr : N1 mod D <= N2 mod D).
  { rewrite E in E1; revert E1 E2 HN.
    generalize (N1 mod D) (N2 mod D) (D * (N2 / D)); intros; lia. }
  unfold rne; rewrite E.
  destruct (Z.compare_spec (2 * (N1 mod D)) D);
    destruct (Z.compare_spec (2 * (N2 mod D)) D);
    destruct (Z.even (N2 / D)); lia.
Qed.

Lemma describes_scale (m : Z) (l : location) (N D k : Z) :
  0 < D -> 0 < k -> describes m l N D -> describes m l (N * k) (D * k).
Proof.
  intros HD Hk [-> ->]; split.
  - rewrite Z.div_mul_cancel_r by lia; reflexivity.
  - rewrite Zmult_mod_distr_r.
    unfold loc_of.
    pose proof (Z.mod_pos_bound N D HD) as Hr.
    destruct (N mod D =? 0) eqn:E.
    + apply Z.eqb_eq in E; rewrite E; reflexivity.
    + apply Z.eqb_neq in E.
      replace (N mod D * k =? 0) with false by (symmetry; apply Z.eqb_neq; nia).
      f_equal.
      replace (2 * (N mod D * k)) with (2 * (N mod D) * k) by ring.
      apply Zmult_compare_compat_r; lia.
Qed.

(** One step of the right shift. *)
Lemma shr_1_nonneg (m : Z) (r s : bool) :
  0 <= m ->
  shr_1 {| shr_m := m; shr_r := r; shr_s := s |}
  = {| shr_m := m / 2; shr_r := Z.odd m; shr_s := r || s |}.
Proof.
  intros Hm; destruct m as [|p|p]; [reflexivity| |lia].
  destruct p as [p|p|]; cbn [shr_1 Z.odd].
  - rewrite (Pos2Z.inj_xI p), Z.add_comm, Z.mul_comm, Z.div_add by lia.
    reflexivity.
  - rewrite (Pos2Z.inj_xO p), Z.mul_comm, Z.div_mul by lia; reflexivity.
  - reflexivity.
Qed.

Lemma record_of_loc_describes (m : Z) (l : location) (N D : Z) :
  describes m l N D -> record_describes (shr_record_of_loc m l) N D.
Proof.
  unfold record_describes; intros [Hm Hl]; split.
  - destruct l as [|[]]; exact Hm.
  - destruct l as [|[]]; exact Hl.
Qed.

Lemma loc_of_shr_record_cases (mrs : shr_record) :
  loc_of_shr_record mrs
  = match shr_r mrs, shr_s mrs with
    | false, false => loc_Exact
    | false, true => loc_Inexact Lt
    | true, false => loc_Inexact Eq
    | true, true => loc_Inexact Gt
    end.
Proof. destruct mrs as [m [] []]; reflexivity. Qed.

Lemma loc_of_exact_iff (r d : Z) : loc_of r d = loc_Exact <-> r = 0.
Proof.
  unfold loc_of; destruct (r =? 0) eqn:E.
  - apply Z.eqb_eq in E; tauto.
  - apply Z.eqb_neq in E; split; [discriminate | contradiction].
Qed.

Lemma loc_of_0 (d : Z) : loc_of 0 d = loc_Exact.
Proof. reflexivity. Qed.

Lemma loc_of_Lt (r d : Z) : 0 < r -> 2 * r < d -> loc_of r d = loc_Inexact Lt.
Proof.
  intros Hr Hd; unfold loc_of.
  replace (r =? 0) with false by (symmetry; apply Z.eqb_neq; lia).
  f_equal; apply Z.compare_lt_iff; exact Hd.
Qed.

Lemma loc_of_Eq (r d : Z) : 0 < r -> 2 * r = d -> loc_of r d = loc_Inexact Eq.
Proof.
  intros Hr Hd; unfold loc_of.
  replace (r =? 0) with false by (symmetry; apply Z.eqb_neq; lia).
  f_equal; apply Z.compare_eq_iff; exact Hd.
Qed.

Lemma loc_of_Gt (r d : Z) : 0 < r -> d < 2 * r -> loc_of r d = loc_Inexact Gt.
Proof.
  intros Hr Hd; unfold loc_of.
  replace (r =? 0) with false by (symmetry; apply Z.eqb_neq; lia).
  f_equal; apply Z.compare_gt_iff; exact Hd.
Qed.

(** Shifting by one bit halves the quotient: the divisor doubles. *)
Lemma shr_1_describes (mrs : shr_record) (N D : Z) :
  0 <= N -> 0 < D ->
  record_describes mrs N D -> record_describes (shr_1 mrs) N (2 * D).
Proof.
  intros HN HD [Hm Hl].
  destruct mrs as [m r s]; cbn [shr_m] in Hm.
  assert (Hm0 : 0 <= m) by (subst m; apply Z.div_pos; lia).
  rewrite shr_1_nonneg by assumption.
  rewrite loc_of_shr_record_cases in Hl; cbn [shr_r shr_s] in Hl.
  unfold record_describes; rewrite loc_of_shr_record_cases; cbn [shr_m shr_r shr_s].
  pose proof (Z.mod_pos_bound N D HD) as Hr.
  pose proof (Z.div_mod N D ltac:(lia)) as EN.
  rewrite <- Hm in EN.
  pose proof (Z.div_mod m 2 ltac:(lia)) as Em.
  pose proof (Z.mod_pos_bound m 2 ltac:(lia)) as Hm2.
  assert (Hq : N / (2 * D) = m / 2).
  { symmetry; apply Z.div_unique with (r := (m mod 2) * D + N mod D); nia. }
  assert (Hrem : N mod (2 * D) = (m mod 2) * D + N mod D).
  { symmetry; apply Z.mod_unique with (q := m / 2); nia. }
  split; [symmetry; exact Hq|].
  rewrite Hrem, Zodd_mod.
  assert (Hs : r || s = negb (N mod D =? 0)).
  { unfold loc_of in Hl; destruct (N mod D =? 0), r, s;
      try discriminate; reflexivity. }
  rewrite Hs; clear Hl Hs Hq Hrem.
  destruct (Z.eq_dec (m mod 2) 0) as [E0|E1].
  - rewrite E0; change (0 =? 1) with false.
    rewrite Z.mul_0_l, Z.add_0_l.
    destruct (N mod D =? 0) eqn:Er; cbn [negb].
    + apply Z.eqb_eq in Er; rewrite Er; reflexivity.
    + apply Z.eqb_neq in Er; symmetry; apply loc_of_Lt; lia.
  - assert (E : m mod 2 = 1) by lia.
    rewrite E; change (1 =? 1) with true.
    rewrite Z.mul_1_l.
    destruct (N mod D =? 0) eqn:Er; cbn [negb].
    + apply Z.eqb_eq in Er; rewrite Er, Z.add_0_r.
      symmetry; apply loc_of_Eq; lia.
    + apply Z.eqb_neq in Er; symmetry; apply loc_of_Gt; lia.
Qed.

Lemma pow2_xI (p : positive) :
  2 ^ Z.pos p~1 = 2 ^ Z.pos p * (2 ^ Z.pos p * 2).
Proof.
  replace (Z.pos p~1) with (Z.pos p + (Z.pos p + 1)) by lia.
  rewrite !Z.pow_add_r by lia; reflexivity.
Qed.

Lemma pow2_xO (p : positive) : 2 ^ Z.pos p~0 = 2 ^ Z.pos p * 2 ^ Z.pos p.
Proof.
  replace (Z.pos p~0) with (Z.pos p + Z.pos p) by lia.
  rewrite Z.pow_add_r by lia; reflexivity.
Qed.

Lemma pow2_pos (k : Z) : 0 <= k -> 0 < 2 ^ k.
Proof. intros; apply Z.pow_pos_nonneg; lia. Qed.

(** Shifting by [p] bits divides the quotient by [2 ^ p]. *)
Lemma iter_pos_shr_1_describes (p : positive) :
  forall (mrs : shr_record) (N D : Z),
    0 <= N -> 0 < D ->
    record_describes mrs N D ->
    record_describes (iter_pos shr_1 p mrs) N (2 ^ Z.pos p * D).
Proof.
  induction p as [p IH|p IH|]; intros mrs N D HN HD H; cbn [iter_pos].
  - assert (HP : 0 < 2 ^ Z.pos p) by (apply pow2_pos; lia).
    apply shr_1_describes in H; [|assumption..].
    apply IH in H; [|lia..].
    apply IH in H; [|lia|nia].
    rewrite pow2_xI.
    replace (2 ^ Z.pos p * (2 ^ Z.pos p * 2) * D)
      with (2 ^ Z.pos p * (2 ^ Z.pos p * (2 * D))) by ring.
    exact H.
  - assert (HP : 0 < 2 ^ Z.pos p) by (apply pow2_pos; lia).
    apply IH in H; [|lia..].
    apply IH in H; [|lia|nia].
    rewrite pow2_xO.
    replace (2 ^ Z.pos p * 2 ^ Z.pos p * D)
      with (2 ^ Z.pos p * (2 ^ Z.pos p * D)) by ring.
    exact H.
  - rewrite Z.pow_1_r; apply shr_1_describes; assumption.
Qed.

(** [shr] by [n] bits, [n] of any sign. *)
Lemma shr_describes (mrs : shr_record) (e n N D : Z) :
  0 <= N -> 0 < D ->
  record_describes mrs N D ->
  record_describes (fst (shr mrs e n)) N (2 ^ Z.max 0 n * D)
  /\ snd (shr mrs e n) = e + Z.max 0 n.
Proof.
  intros HN HD H; destruct n as [|p|p]; cbn [shr fst snd Z.max Z.compare].
  - rewrite Z.pow_0_r, Z.mul_1_l, Z.add_0_r; split; [exact H | reflexivity].
  - split; [apply iter_pos_shr_1_describes; assumption | reflexivity].
  - rewrite Z.pow_0_r, Z.mul_1_l, Z.add_0_r; split; [exact H | reflexivity].
Qed.

(** ** Digits *)

Lemma digits2_pos_size (p : positive) : digits2_pos p = Pos.size p.
Proof. induction p; cbn; congruence. Qed.

Lemma Zdigits2_log2 (x : Z) : 0 < x -> Zdigits2 x = Z.log2 x + 1.
Proof.
  destruct x as [|p|p]; try lia; intros _.
  cbn [Zdigits2]; rewrite digits2_pos_size.
  destruct p; cbn [Pos.size Z.log2]; lia.
Qed.

Lemma Zdigits2_nonneg (x : Z) : 0 <= Zdigits2 x.
Proof. destruct x; cbn; lia. Qed.

Lemma Zdigits2_bounds (x : Z) :
  0 < x -> 2 ^ (Zdigits2 x - 1) <= x < 2 ^ Zdigits2 x.
Proof.
  intros Hx; rewrite Zdigits2_log2 by assumption.
  replace (Z.log2 x + 1 - 1) with (Z.log2 x) by lia.
  replace (Z.log2 x + 1) with (Z.succ (Z.log2 x)) by lia.
  apply Z.log2_spec; assumption.
Qed.

Lemma Zdigits2_lt_pow (x : Z) : 0 <= x -> x < 2 ^ Zdigits2 x.
Proof.
  intros Hx; destruct (Z.eq_dec x 0) as [->|]; [reflexivity|].
  apply Zdigits2_bounds; lia.
Qed.

Lemma Zdigits2_mono (x y : Z) : 0 <= x <= y -> Zdigits2 x <= Zdigits2 y.
Proof.
  intros [Hx Hy]; destruct (Z.eq_dec x 0) as [->|].
  - apply Zdigits2_nonneg.
  - rewrite !Zdigits2_log2 by lia.
    pose proof (Z.log2_le_mono x y Hy); lia.
Qed.

Lemma Zdigits2_ge (x k : Z) : 0 <= k -> 2 ^ k <= x -> k + 1 <= Zdigits2 x.
Proof.
  intros Hk Hx.
  assert (0 < x) by (pose proof (pow2_pos k Hk); lia).
  rewrite Zdigits2_log2 by assumption.
  pose proof (Z.log2_le_mono _ _ Hx) as H1.
  rewrite Z.log2_pow2 in H1 by assumption; lia.
Qed.

Lemma Zdigits2_le (x k : Z) : 0 <= x -> 0 <= k -> x < 2 ^ k -> Zdigits2 x <= k.
Proof.
  intros Hx Hk Hlt; destruct (Z.eq_dec x 0) as [->|]; [assumption|].
  rewrite Zdigits2_log2 by lia.
  assert (Z.log2 x < k) by (apply Z.log2_lt_pow2; lia).
  lia.
Qed.

Lemma Zdigits2_div_pow2 (x a : Z) :
  0 <= a -> 1 <= x / 2 ^ a -> Zdigits2 x = Zdigits2 (x / 2 ^ a) + a.
Proof.
  intros Ha Hq.
  pose proof (pow2_pos a Ha) as HP.
  assert (Hx : 2 ^ a <= x).
  { pose proof (Z.mul_div_le x (2 ^ a) HP); nia. }
  rewrite !Zdigits2_log2 by lia.
  rewrite <- Z.shiftr_div_pow2 by assumption.
  rewrite Z.log2_shiftr by lia.
  pose proof (Z.log2_le_mono _ _ Hx) as H1.
  rewrite Z.log2_pow2 in H1 by assumption.
  lia.
Qed.

Lemma fexp_eq (e : Z) : fexp prec emax e = Z.max (e - prec) (emin).
Proof. reflexivity. Qed.

Lemma grid_exponent_nonneg (E0 D M : Z) :
  E0 <= emin -> 0 <= grid_exponent E0 D M.
Proof. unfold grid_exponent; lia. Qed.

Lemma round_units_mono (E0 D M1 M2 : Z) :
  E0 <= emin -> 0 < D -> 0 <= M1 <= M2 ->
  round_units E0 D M1 <= round_units E0 D M2.
Proof.
  intros HE HD [H1 H12].
  unfold round_units.
  set (K1 := grid_exponent E0 D M1); set (K2 := grid_exponent E0 D M2).
  assert (HK1 : 0 <= K1) by (apply grid_exponent_nonneg; assumption).
  assert (HK2 : 0 <= K2) by (apply grid_exponent_nonneg; assumption).
  assert (HQ : 0 <= M1 / D <= M2 / D).
  { split; [apply Z.div_pos; lia | apply Z.div_le_mono; lia]. }
  assert (HK : K1 <= K2).
  { unfold K1, K2, grid_exponent.
    pose proof (Zdigits2_mono _ _ HQ); lia. }
  pose proof (pow2_pos K1 HK1) as HP1.
  pose proof (pow2_pos K2 HK2) as HP2.
  destruct (Z.eq_dec K1 K2) as [E|NE].
  - rewrite <- E.
    apply Z.mul_le_mono_nonneg_r; [lia|].
    apply rne_mono; [nia | lia].
  - (* a power of two lies between the two numbers, on both grids *)
    set (d2 := Zdigits2 (M2 / D)).
    assert (Hd2 : K2 = d2 - prec /\ emin - E0 < d2 - prec).
    { unfold K1, K2, grid_exponent in *; fold d2 in HK, NE |- *.
      pose proof (Zdigits2_mono _ _ HQ); fold d2 in H. lia. }
    destruct Hd2 as [EK2 Hd2].
    assert (Hprec : prec = 53) by reflexivity.
    assert (HQ2 : 0 < M2 / D).
    { destruct (Z.eq_dec (M2 / D) 0) as [Z0|]; [|lia].
      unfold d2 in Hd2; rewrite Z0 in Hd2; cbn [Zdigits2] in Hd2; lia. }
    pose proof (Zdigits2_bounds _ HQ2) as HB2; fold d2 in HB2.
    assert (Hd1 : Zdigits2 (M1 / D) <= d2 - 1).
    { unfold K1, K2, grid_exponent in HK, NE; fold d2 in HK, NE; lia. }
    set (Y := 2 ^ (d2 - 1)).
    assert (HY1 : M1 <= Y * D).
    { assert (M1 / D < Y).
      { apply Z.lt_le_trans with (2 ^ Zdigits2 (M1 / D));
          [apply Zdigits2_lt_pow; lia|].
        apply Z.pow_le_mono_r; lia. }
      pose proof (Z.div_mod M1 D ltac:(lia)).
      pose proof (Z.mod_pos_bound M1 D HD). nia. }
    assert (HY2 : Y * D <= M2).
    { pose proof (Z.mul_div_le M2 D HD). unfold Y; nia. }
    assert (HYK1 : Y = 2 ^ (d2 - 1 - K1) * 2 ^ K1).
    { unfold Y; rewrite <- Z.pow_add_r by lia; f_equal; lia. }
    assert (HYK2 : Y = 2 ^ (d2 - 1 - K2) * 2 ^ K2).
    { unfold Y; rewrite <- Z.pow_add_r by lia; f_equal; lia. }
    apply Z.le_trans with Y.
    + assert (Hr : rne M1 (D * 2 ^ K1) <= 2 ^ (d2 - 1 - K1)).
      { rewrite <- (rne_exact (2 ^ (d2 - 1 - K1)) (D * 2 ^ K1)) by nia.
        apply rne_mono; [nia|].
        replace (2 ^ (d2 - 1 - K1) * (D * 2 ^ K1))
          with (2 ^ (d2 - 1 - K1) * 2 ^ K1 * D) by ring.
        rewrite <- HYK1; exact HY1. }
      rewrite HYK1; apply Z.mul_le_mono_nonneg_r; [lia | exact Hr].
    + assert (Hr : 2 ^ (d2 - 1 - K2) <= rne M2 (D * 2 ^ K2)).
      { rewrite <- (rne_exact (2 ^ (d2 - 1 - K2)) (D * 2 ^ K2)) by nia.
        apply rne_mono; [nia|].
        replace (2 ^ (d2 - 1 - K2) * (D * 2 ^ K2))
          with (2 ^ (d2 - 1 - K2) * 2 ^ K2 * D) by ring.
        rewrite <- HYK2; exact HY2. }
      rewrite HYK2; apply Z.mul_le_mono_nonneg_r; [lia | exact Hr].
Qed.

Lemma grid_exponent_shift (m e E0 M D : Z) :
  0 <= M -> 0 < D -> E0 <= e -> E0 <= emin ->
  m = M / (D * 2 ^ (e - E0)) ->
  e <= fexp prec emax (Zdigits2 m + e) ->
  fexp prec emax (Zdigits2 m + e) - E0 = grid_exponent E0 D M.
Proof.
  intros HM HD HE0 HEm Hm Hpre.
  pose proof (pow2_pos (e - E0) ltac:(lia)) as HP.
  assert (Hmq : m = M / D / 2 ^ (e - E0)) by (rewrite Z.div_div; lia).
  assert (HQ : 0 <= M / D) by (apply Z.div_pos; lia).
  assert (Hm0 : 0 <= m) by (rewrite Hmq; apply Z.div_pos; lia).
  rewrite fexp_eq in *; unfold grid_exponent.
  destruct (Z.eq_dec m 0) as [Z0|NZ].
  - rewrite Z0 in *; cbn [Zdigits2] in *.
    assert (HQlt : M / D < 2 ^ (e - E0)).
    { symmetry in Hmq; apply Z.div_small_iff in Hmq; lia. }
    pose proof (Zdigits2_le (M / D) (e - E0) HQ ltac:(lia) HQlt).
    assert (prec = 53) by reflexivity.
    lia.
  - rewrite (Zdigits2_div_pow2 (M / D) (e - E0)) by lia.
    rewrite <- Hmq; lia.
Qed.

Lemma round_quotient_bound (E0 D M : Z) :
  0 <= M -> 0 < D -> E0 <= emin ->
  0 <= rne M (D * 2 ^ grid_exponent E0 D M) <= 2 ^ prec.
Proof.
  intros HM HD HE.
  set (K := grid_exponent E0 D M).
  assert (HK : 0 <= K) by (apply grid_exponent_nonneg; assumption).
  pose proof (pow2_pos K HK) as HP.
  assert (HDK : 0 < D * 2 ^ K) by nia.
  pose proof (rne_bounds M (D * 2 ^ K) HDK) as Hb.
  assert (HQ : 0 <= M / D) by (apply Z.div_pos; lia).
  assert (Hq0 : 0 <= M / (D * 2 ^ K)) by (apply Z.div_pos; lia).
  assert (Hq : M / (D * 2 ^ K) < 2 ^ prec).
  { rewrite <- Z.div_div by lia.
    apply Z.div_lt_upper_bound; [lia|].
    assert (Hprec : prec = 53) by reflexivity.
    rewrite <- Z.pow_add_r by lia.
    apply Z.lt_le_trans with (2 ^ Zdigits2 (M / D));
      [apply Zdigits2_lt_pow; assumption|].
    apply Z.pow_le_mono_r; [lia|].
    unfold K, grid_exponent; lia. }
  lia.
Qed.

Lemma binary_round_aux_units (s : bool) (m : Z) (l : location) (e E0 M D : Z) :
  0 <= M -> 0 < D -> E0 <= e -> E0 <= emin ->
  describes m l M (D * 2 ^ (e - E0)) ->
  e <= fexp prec emax (Zdigits2 m + e) ->
  rounds_to s E0 (round_units E0 D M) (binary_round_aux prec emax s m e l).
Proof.
  intros HM HD HE0 HEm Hdesc Hpre.
  assert (Hprec : prec = 53) by reflexivity.
  assert (Hemin : emin = -1074) by reflexivity.
  assert (Hemax : emax = 1024) by reflexivity.
  pose proof (pow2_pos (e - E0) ltac:(lia)) as HP.
  pose proof (grid_exponent_shift m e E0 M D HM HD HE0 HEm (proj1 Hdesc) Hpre)
    as HK.
  pose proof (round_quotient_bound E0 D M HM HD HEm) as Hm1.
  unfold round_units.
  set (K := grid_exponent E0 D M) in *.
  set (F := fexp prec emax (Zdigits2 m + e)) in *.
  assert (HF : emin <= F) by (unfold F; rewrite fexp_eq; lia).
  unfold binary_round_aux, shr_fexp; fold F.
  (* the first shift *)
  pose proof (shr_describes (shr_record_of_loc m l) e (F - e) M
                (D * 2 ^ (e - E0)) HM ltac:(nia)
                (record_of_loc_describes _ _ _ _ Hdesc)) as [Hd1 He1].
  destruct (shr (shr_record_of_loc m l) e (F - e)) as [mrs1 e1].
  cbn [fst snd] in Hd1, He1.
  replace (Z.max 0 (F - e)) with (F - e) in * by lia.
  replace (e + (F - e)) with F in He1 by lia; subst e1.
  replace (2 ^ (F - e) * (D * 2 ^ (e - E0))) with (D * 2 ^ K) in Hd1.
  2: { replace K with ((F - e) + (e - E0)) by lia.
       rewrite Z.pow_add_r by lia; ring. }
  assert (HKn : 0 <= K) by lia.
  pose proof (pow2_pos K HKn) as HPK.
  rewrite (round_nearest_even_rne _ _ M (D * 2 ^ K)) by (try nia; exact Hd1).
  set (m1 := rne M (D * 2 ^ K)) in *.
  (* the second shift *)
  assert (Hself : record_describes (shr_record_of_loc m1 loc_Exact) m1 1).
  { apply record_of_loc_describes; split;
      [rewrite Z.div_1_r; reflexivity | rewrite Z.mod_1_r; reflexivity]. }
  pose proof (shr_describes (shr_record_of_loc m1 loc_Exact) F
                (fexp prec emax (Zdigits2 m1 + F) - F) m1 1
                ltac:(lia) ltac:(lia) Hself) as [Hd2 He2].
  destruct (shr (shr_record_of_loc m1 loc_Exact) F
              (fexp prec emax (Zdigits2 m1 + F) - F)) as [mrs2 e2].
  cbn [fst snd] in Hd2, He2.
  destruct Hd2 as [Hm2 _]; rewrite Z.mul_1_r in Hm2.
  rewrite fexp_eq in He2, Hm2.
  destruct (Z.eq_dec m1 (2 ^ prec)) as [Etop|Ntop].
  - (* the rounding carried into a 54th bit *)
    assert (Hdig : Zdigits2 m1 = 54) by (rewrite Etop; reflexivity).
    rewrite Hdig in *.
    replace (Z.max 0 (Z.max (54 + F - prec) emin - F)) with 1 in * by lia.
    rewrite Etop in Hm2; rewrite Hm2.
    change (2 ^ prec / 2 ^ 1) with (Z.pos (2 ^ 52)).
    cbv iota.
    destruct (e2 <=? emax - prec); cbn [rounds_to]; [|reflexivity].
    split; [reflexivity|]; split; [lia|].
    rewrite Etop; subst e2.
    replace (F + 1 - E0) with (1 + K) by lia.
    rewrite Z.pow_add_r by lia.
    rewrite Pos2Z.inj_pow, Hprec.
    change (2 ^ 53) with (2 ^ 52 * 2 ^ 1); ring.
  - assert (Hlt : m1 < 2 ^ prec) by lia.
    assert (Hdig : Zdigits2 m1 <= prec).
    { apply Zdigits2_le; lia. }
    replace (Z.max 0 (Z.max (Zdigits2 m1 + F - prec) emin - F)) with 0 in *
      by lia.
    rewrite Z.pow_0_r, Z.div_1_r in Hm2; rewrite Hm2.
    rewrite Z.add_0_r in He2; subst e2.
    destruct m1 as [|p|p] eqn:Em1; [| |lia].
    + cbn [rounds_to]; split; [reflexivity | apply Z.mul_0_l].
    + destruct (F <=? emax - prec); cbn [rounds_to]; [|reflexivity].
      split; [reflexivity|]; split; [lia|].
      replace (F - E0) with K by lia; reflexivity.
Qed.

(** ** [int()] of a rounded value *)

Lemma int_of_float_units (s : bool) (E0 U : Z) (f : pyfloat) (z : Z) :
  E0 <= 0 -> rounds_to s E0 U f -> int_of_float f = Ok z ->
  z = if s then - (U / 2 ^ (- E0)) else U / 2 ^ (- E0).
Proof.
  intros HE Hr Hz.
  pose proof (pow2_pos (- E0) ltac:(lia)) as HP.
  destruct f as [s'|s'| |s' m e]; cbn [rounds_to] in Hr.
  - destruct Hr as [-> ->]; injection Hz as <-.
    rewrite Z.div_0_l by lia; destruct s; reflexivity.
  - discriminate Hz.
  - contradiction.
  - destruct Hr as (-> & He & <-).
    rewrite int_of_float_finite in Hz; injection Hz as <-.
    cbv zeta.
    assert (Hq : Z.pos m * 2 ^ (e - E0) / 2 ^ (- E0)
                 = if e <? 0 then Z.pos m / 2 ^ (- e) else Z.pos m * 2 ^ e).
    { destruct (e <? 0) eqn:Ee.
      - apply Z.ltb_lt in Ee.
        replace (- E0) with ((e - E0) + (- e)) by lia.
        rewrite Z.pow_add_r by lia.
        rewrite (Z.mul_comm (Z.pos m)).
        apply Z.div_mul_cancel_l; apply Z.pow_nonzero; lia.
      - apply Z.ltb_ge in Ee.
        replace (e - E0) with (e + (- E0)) by lia.
        rewrite Z.pow_add_r, Z.mul_assoc by lia.
        apply Z.div_mul; lia. }
    rewrite Hq; reflexivity.
Qed.

Lemma units_trunc_mono (E0 U1 U2 : Z) :
  U1 <= U2 -> U1 / 2 ^ (- E0) <= U2 / 2 ^ (- E0).
Proof.
  intros HU; destruct (Z.le_gt_cases 0 (- E0)) as [H|H].
  - apply Z.div_le_mono; [apply pow2_pos; assumption | assumption].
  - rewrite Z.pow_neg_r, !Z.div_0_r by lia; lia.
Qed.

Lemma round_units_nonneg (E0 D M : Z) :
  0 <= M -> 0 < D -> E0 <= emin -> 0 <= round_units E0 D M.
Proof.
  intros HM HD HE; unfold round_units.
  pose proof (round_quotient_bound E0 D M HM HD HE).
  pose proof (pow2_pos _ (grid_exponent_nonneg E0 D M HE)).
  cbv zeta; nia.
Qed.

(** ** Valid binary64 numbers and their order *)

Lemma valid_finite (s : bool) (m : positive) (e : Z) :
  valid_binary (S754_finite s m e) = true ->
  emin <= e /\ Z.pos m < 2 ^ prec
  /\ (emin < e -> 2 ^ (prec - 1) <= Z.pos m).
Proof.
  cbn [SpecFloat.valid_binary]; unfold bounded, canonical_mantissa.
  rewrite andb_true_iff, Z.eqb_eq, Z.leb_le, fexp_eq.
  intros [Hc _].
  assert (Hprec : prec = 53) by reflexivity.
  change (Z.pos (digits2_pos m)) with (Zdigits2 (Z.pos m)) in Hc.
  pose proof (Zdigits2_bounds (Z.pos m) ltac:(lia)) as Hb.
  split; [lia|]; split.
  - apply Z.lt_le_trans with (2 ^ Zdigits2 (Z.pos m)); [lia|].
    apply Z.pow_le_mono_r; lia.
  - intros He.
    replace (prec - 1) with (Zdigits2 (Z.pos m) - 1) by lia; lia.
Qed.

Lemma magnitude_exponent_lt (m1 m2 : positive) (e1 e2 : Z) :
  valid_binary (S754_finite false m1 e1) = true ->
  valid_binary (S754_finite false m2 e2) = true ->
  e1 < e2 -> magnitude m1 e1 <= magnitude m2 e2.
Proof.
  intros H1 H2 He.
  apply valid_finite in H1; destruct H1 as (He1 & Hm1 & _).
  apply valid_finite in H2; destruct H2 as (He2 & _ & Hm2).
  specialize (Hm2 ltac:(lia)).
  assert (Hprec : prec = 53) by reflexivity.
  unfold magnitude.
  pose proof (pow2_pos (e1 - emin) ltac:(lia)) as HP1.
  apply Z.le_trans with (2 ^ prec * 2 ^ (e1 - emin)); [nia|].
  apply Z.le_trans with (2 ^ (prec - 1) * 2 ^ (e2 - emin)).
  - rewrite <- !Z.pow_add_r by lia.
    apply Z.pow_le_mono_r; lia.
  - pose proof (pow2_pos (e2 - emin) ltac:(lia)); nia.
Qed.

Lemma magnitude_le_of_compare (m1 m2 : positive) (e1 e2 : Z) :
  valid_binary (S754_finite false m1 e1) = true ->
  valid_binary (S754_finite false m2 e2) = true ->
  match Z.compare e1 e2 with
  | Lt => Lt
  | Gt => Gt
  | Eq => Pos.compare_cont Eq m1 m2
  end <> Gt ->
  magnitude m1 e1 <= magnitude m2 e2.
Proof.
  intros H1 H2 Hc.
  destruct (Z.compare_spec e1 e2) as [E|L|G].
  - subst e2; unfold magnitude.
    change (Pos.compare_cont Eq m1 m2) with (Pos.compare m1 m2) in Hc.
    change (m1 <= m2)%positive in Hc.
    apply valid_finite in H1; destruct H1 as (He1 & _).
    pose proof (pow2_pos (e1 - emin) ltac:(lia)).
    apply Z.mul_le_mono_nonneg_r; lia.
  - apply magnitude_exponent_lt; assumption.
  - contradiction Hc; reflexivity.
Qed.

Lemma SFleb_positive (m1 m2 : positive) (e1 e2 : Z) :
  valid_binary (S754_finite false m1 e1) = true ->
  valid_binary (S754_finite false m2 e2) = true ->
  SFleb (S754_finite false m1 e1) (S754_finite false m2 e2) = true ->
  magnitude m1 e1 <= magnitude m2 e2.
Proof.
  intros H1 H2 Hle; apply magnitude_le_of_compare; try assumption.
  unfold SFleb in Hle; cbn [SFcompare] in Hle.
  intros Hc; rewrite Hc in Hle; discriminate Hle.
Qed.

Lemma SFleb_negative (m1 m2 : positive) (e1 e2 : Z) :
  valid_binary (S754_finite true m1 e1) = true ->
  valid_binary (S754_finite true m2 e2) = true ->
  SFleb (S754_finite true m1 e1) (S754_finite true m2 e2) = true ->
  magnitude m2 e2 <= magnitude m1 e1.
Proof.
  intros H1 H2 Hle; apply magnitude_le_of_compare; try assumption.
  unfold SFleb in Hle; cbn [SFcompare] in Hle.
  rewrite (Z.compare_antisym e1 e2).
  change (Pos.compare_cont Eq m2 m1) with (Pos.compare_cont (CompOpp Eq) m2 m1).
  rewrite <- (Pos.compare_cont_antisym m1 m2 Eq).
  intros Hc.
  destruct (e1 ?= e2); cbn [CompOpp] in *;
    [destruct (Pos.compare_cont Eq m1 m2); cbn [CompOpp] in *| |];
    discriminate.
Qed.

(** ** The product of a positive constant and a float, truncated *)

Lemma SF64mul_rounds (mk mw : positive) (ek ew : Z) (sw : bool) :
  2 ^ (prec - 1) <= Z.pos mk -> ek <= 0 -> emin <= ew ->
  rounds_to sw (ek + emin)
    (round_units (ek + emin) 1 (Z.pos mk * magnitude mw ew))
    (SF64mul (S754_finite false mk ek) (S754_finite sw mw ew)).
Proof.
  intros Hmk Hek Hew.
  unfold SF64mul, SFmul; cbn [xorb].
  pose proof (pow2_pos (ew - emin) ltac:(lia)) as HP.
  assert (Hprec : prec = 53) by reflexivity.
  assert (Hpos : 0 <= Z.pos mk * magnitude mw ew) by (unfold magnitude; nia).
  apply binary_round_aux_units; try lia.
  - replace (ek + ew - (ek + emin)) with (ew - emin) by lia.
    rewrite Z.mul_1_l; unfold magnitude.
    rewrite Z.mul_assoc, <- Pos2Z.inj_mul; split.
    + rewrite Z.div_mul by lia; reflexivity.
    + rewrite Z.mod_mul by lia; reflexivity.
  - rewrite fexp_eq.
    assert (2 ^ (prec - 1) <= Z.pos (mk * mw)) by (rewrite Pos2Z.inj_mul; nia).
    pose proof (Zdigits2_ge (Z.pos (mk * mw)) (prec - 1) ltac:(lia) H).
    lia.
Qed.

(** [int(k * w)] for a finite [w], by sign and magnitude. *)
Lemma mul_trunc_finite (mk mw : positive) (ek ew : Z) (sw : bool) (z : Z) :
  2 ^ (prec - 1) <= Z.pos mk -> ek <= 0 ->
  valid_binary (S754_finite sw mw ew) = true ->
  int_of_float (SF64mul (S754_finite false mk ek) (S754_finite sw mw ew))
  = Ok z ->
  let t := round_units (ek + emin) 1 (Z.pos mk * magnitude mw ew)
           / 2 ^ (- (ek + emin)) in
  0 <= t /\ z = if sw then - t else t.
Proof.
  intros Hmk Hek Hv Hz t.
  apply valid_finite in Hv; destruct Hv as (Hew & _).
  assert (Hemin : emin = -1074) by reflexivity.
  split.
  - apply Z.div_pos; [|apply pow2_pos; lia].
    apply round_units_nonneg; try lia.
    unfold magnitude; pose proof (pow2_pos (ew - emin) ltac:(lia)); nia.
  - eapply int_of_float_units;
      [|apply SF64mul_rounds; eassumption | exact Hz]; lia.
Qed.

Lemma mul_trunc_mono (mk : positive) (ek : Z) (f1 f2 : pyfloat) (z1 z2 : Z) :
  2 ^ (prec - 1) <= Z.pos mk -> ek <= 0 ->
  valid_binary f1 = true -> valid_binary f2 = true ->
  SFleb f1 f2 = true ->
  int_of_float (SF64mul (S754_finite false mk ek) f1) = Ok z1 ->
  int_of_float (SF64mul (S754_finite false mk ek) f2) = Ok z2 ->
  z1 <= z2.
Proof.
  intros Hmk Hek Hv1 Hv2 Hle H1 H2.
  assert (Hemin : emin = -1074) by reflexivity.
  destruct f1 as [s1|s1| |s1 m1 e1]; try discriminate;
    destruct f2 as [s2|s2| |s2 m2 e2]; try discriminate.
  - (* zero, zero *)
    injection H1 as <-; injection H2 as <-; lia.
  - (* zero, finite *)
    injection H1 as <-.
    apply mul_trunc_finite in H2; try assumption.
    destruct H2 as [Ht ->]; destruct s2; [discriminate Hle | lia].
  - (* finite, zero *)
    injection H2 as <-.
    apply mul_trunc_finite in H1; try assumption.
    destruct H1 as [Ht ->]; destruct s1; [lia | discriminate Hle].
  - (* finite, finite *)
    pose proof (mul_trunc_finite _ _ _ _ _ _ Hmk Hek Hv1 H1) as [Ht1 ->].
    pose proof (mul_trunc_finite _ _ _ _ _ _ Hmk Hek Hv2 H2) as [Ht2 ->].
    assert (Hmono : forall a b,
               0 <= a <= b ->
               round_units (ek + emin) 1 (Z.pos mk * a) / 2 ^ (- (ek + emin))
               <= round_units (ek + emin) 1 (Z.pos mk * b) / 2 ^ (- (ek + emin))).
    { intros a b Hab; apply units_trunc_mono, round_units_mono; try lia.
      split; [nia | apply Z.mul_le_mono_nonneg_l; lia]. }
    assert (Hm1 : 0 <= magnitude m1 e1).
    { apply valid_finite in Hv1; destruct Hv1 as (He1 & _).
      unfold magnitude; pose proof (pow2_pos (e1 - emin) ltac:(lia)); nia. }
    assert (Hm2 : 0 <= magnitude m2 e2).
    { apply valid_finite in Hv2; destruct Hv2 as (He2 & _).
      unfold magnitude; pose proof (pow2_pos (e2 - emin) ltac:(lia)); nia. }
    destruct s1, s2.
    + apply SFleb_negative in Hle; try assumption.
      specialize (Hmono _ _ (conj Hm2 Hle)); lia.
    + lia.
    + discriminate Hle.
    + apply SFleb_positive in Hle; try assumption.
      specialize (Hmono _ _ (conj Hm1 Hle)); lia.
Qed.

(** [int(c * width_mult)] does not decrease when [width_mult] grows, for a
    constant [c] that [float(c)] turns into a positive normal number. *)
Lemma scaled_mono (c : Z) (mk : positive) (ek : Z) (w1 w2 : float) (z1 z2 : Z) :
  float_of_int c = Ok (S754_finite false mk ek) ->
  2 ^ (prec - 1) <= Z.pos mk -> ek <= 0 ->
  (w1 <=? w2)%float = true ->
  scaled c w1 = Ok z1 -> scaled c w2 = Ok z2 -> z1 <= z2.
Proof.
  intros Hc Hmk Hek Hle H1 H2.
  unfold scaled, of_float, py_mul in H1, H2.
  rewrite Hc in H1, H2; cbn [bind py_int] in H1, H2.
  rewrite leb_spec in Hle.
  eapply mul_trunc_mono; eauto using Prim2SF_valid.
Qed.

(** ** The quotient of two positive integers, truncated *)

Lemma new_location_loc_of (d r : Z) :
  0 < d -> 0 <= r < d -> new_location d r = loc_of r d.
Proof.
  intros Hd Hr; unfold new_location, new_location_even, new_location_odd, loc_of.
  destruct (Z.even d) eqn:Ev; [reflexivity|].
  destruct (r =? 0); [reflexivity|]; f_equal.
  assert (Hodd : Z.odd d = true) by (rewrite <- Z.negb_even, Ev; reflexivity).
  apply Z.odd_spec in Hodd; destruct Hodd as [h Hh].
  destruct (Z.compare_spec (2 * r + 1) d);
    destruct (Z.compare_spec (2 * r) d); try reflexivity; lia.
Qed.

Lemma enough_digits (m e : Z) :
  2 ^ (prec - 1) <= m -> e <= fexp prec emax (Zdigits2 m + e).
Proof.
  intros Hm; rewrite fexp_eq.
  assert (Hprec : prec = 53) by reflexivity.
  pose proof (Zdigits2_ge m (prec - 1) ltac:(lia) Hm); lia.
Qed.

(** The quotient and the position [SFdiv_core_binary] computes for two
    positive integers describe [a / b], in units of [2 ^ emin]. *)
Lemma SFdiv_core_binary_describes (a b : Z) :
  0 < a -> 0 < b ->
  let '(q, e, l) := SFdiv_core_binary prec emax a 0 b 0 in
  emin <= e /\
  describes q l (a * 2 ^ (- emin)) (b * 2 ^ (e - emin)) /\
  e <= fexp prec emax (Zdigits2 q + e).
Proof.
  intros Ha Hb.
  assert (Hprec : prec = 53) by reflexivity.
  assert (Hemin : emin = -1074) by reflexivity.
  unfold SFdiv_core_binary.
  rewrite !Z.add_0_r, !Z.sub_0_r, Z.sub_0_l.
  set (d1 := Zdigits2 a); set (d2 := Zdigits2 b).
  set (e := Z.min (fexp prec emax (d1 - d2)) 0).
  assert (He : emin <= e <= 0) by (unfold e; rewrite fexp_eq; lia).
  assert (Hshift : match - e with
                   | Z.pos _ => Z.shiftl a (- e)
                   | 0 => a
                   | Z.neg _ => 0
                   end = a * 2 ^ (- e)).
  { destruct (- e) as [|p|p] eqn:Es; [rewrite Z.mul_1_r; reflexivity| |lia].
    apply Z.shiftl_mul_pow2; lia. }
  rewrite Hshift; clear Hshift.
  pose proof (pow2_pos (- e) ltac:(lia)) as HPe.
  pose proof (pow2_pos (e - emin) ltac:(lia)) as HPm.
  pose proof (Z.mod_pos_bound (a * 2 ^ (- e)) b Hb) as Hr.
  assert (Heucl : Z.div_eucl (a * 2 ^ (- e)) b
                  = ((a * 2 ^ (- e)) / b, (a * 2 ^ (- e)) mod b)).
  { unfold Z.div, Z.modulo; destruct (Z.div_eucl (a * 2 ^ (- e)) b);
      reflexivity. }
  rewrite Heucl, new_location_loc_of by assumption.
  split; [lia|]; split.
  - replace (a * 2 ^ (- emin)) with (a * 2 ^ (- e) * 2 ^ (e - emin)).
    2: { rewrite <- Z.mul_assoc, <- Z.pow_add_r by lia; do 2 f_equal; lia. }
    apply describes_scale; [assumption | assumption | split; reflexivity].
  - destruct (Z.eq_dec e emin) as [Em|Nm].
    + rewrite fexp_eq; lia.
    + (* the quotient has at least 53 bits *)
      apply enough_digits.
      pose proof (Zdigits2_bounds a Ha) as Hda; fold d1 in Hda.
      pose proof (Zdigits2_bounds b Hb) as Hdb; fold d2 in Hdb.
      assert (Hd2 : 1 <= d2) by (pose proof (Zdigits2_ge b 0 ltac:(lia) ltac:(lia)); lia).
      assert (Hd1 : 1 <= d1) by (pose proof (Zdigits2_ge a 0 ltac:(lia) ltac:(lia)); lia).
      assert (Hs : d2 + prec <= d1 - e).
      { unfold e in Nm |- *; rewrite fexp_eq in Nm |- *; lia. }
      apply Z.div_le_lower_bound; [lia|].
      apply Z.le_trans with (2 ^ d2 * 2 ^ (prec - 1)); [nia|].
      apply Z.le_trans with (2 ^ (d1 - 1) * 2 ^ (- e)); [|nia].
      rewrite <- !Z.pow_add_r by lia.
      apply Z.pow_le_mono_r; lia.
Qed.

(** [int(a / b)] for positive integers. *)
Lemma int_true_divide_trunc (a b : Z) (f : pyfloat) (z : Z) :
  0 < a -> 0 < b ->
  int_true_divide a b = Ok f -> int_of_float f = Ok z ->
  z = round_units emin b (a * 2 ^ (- emin)) / 2 ^ (- emin).
Proof.
  intros Ha Hb Hf Hz.
  unfold int_true_divide in Hf.
  replace (b =? 0) with false in Hf by (symmetry; apply Z.eqb_neq; lia).
  replace (a =? 0) with false in Hf by (symmetry; apply Z.eqb_neq; lia).
  replace (a <? 0) with false in Hf by (symmetry; apply Z.ltb_ge; lia).
  replace (b <? 0) with false in Hf by (symmetry; apply Z.ltb_ge; lia).
  rewrite !Z.abs_eq in Hf by lia; cbn [xorb] in Hf.
  pose proof (SFdiv_core_binary_describes a b Ha Hb) as Hd.
  destruct (SFdiv_core_binary prec emax a 0 b 0) as [[q e] l].
  destruct Hd as (He & Hd & Hpre).
  assert (Hemin : emin = -1074) by reflexivity.
  pose proof (binary_round_aux_units false q l e emin (a * 2 ^ (- emin)) b
                ltac:(pose proof (pow2_pos (- emin) ltac:(lia)); nia)
                Hb He ltac:(lia) Hd Hpre) as Hr.
  assert (Hf' : binary_round_aux prec emax false q e l = f).
  { destruct (binary_round_aux prec emax false q e l);
      try discriminate Hf; injection Hf as <-; reflexivity. }
  rewrite Hf' in Hr.
  apply (int_of_float_units false emin _ f z ltac:(lia) Hr Hz).
Qed.

Lemma int_true_divide_trunc_mono (a1 a2 b : Z) (f1 f2 : pyfloat) (z1 z2 : Z) :
  0 <= a1 <= a2 -> 0 < b ->
  int_true_divide a1 b = Ok f1 -> int_of_float f1 = Ok z1 ->
  int_true_divide a2 b = Ok f2 -> int_of_float f2 = Ok z2 ->
  0 <= z1 <= z2.
Proof.
  intros [Ha1 Ha] Hb Hf1 Hz1 Hf2 Hz2.
  assert (Hemin : emin = -1074) by reflexivity.
  pose proof (pow2_pos (- emin) ltac:(lia)) as HP.
  assert (Hnn : forall a, 0 < a ->
                  0 <= round_units emin b (a * 2 ^ (- emin)) / 2 ^ (- emin)).
  { intros a Hpos; apply Z.div_pos; [|assumption].
    apply round_units_nonneg; try lia; nia. }
  assert (Hzero : forall f z, int_true_divide 0 b = Ok f ->
                              int_of_float f = Ok z -> z = 0).
  { intros f z Hf Hz; unfold int_true_divide in Hf.
    replace (b =? 0) with false in Hf by (symmetry; apply Z.eqb_neq; lia).
    cbn in Hf; injection Hf as <-; injection Hz as <-; reflexivity. }
  destruct (Z.eq_dec a1 0) as [->|N1].
  - rewrite (Hzero _ _ Hf1 Hz1).
    destruct (Z.eq_dec a2 0) as [->|N2].
    + rewrite (Hzero _ _ Hf2 Hz2); lia.
    + rewrite (int_true_divide_trunc a2 b f2 z2) by (assumption || lia).
      split; [lia | apply Hnn; lia].
  - rewrite (int_true_divide_trunc a1 b f1 z1) by (assumption || lia).
    rewrite (int_true_divide_trunc a2 b f2 z2) by (assumption || lia).
    split; [apply Hnn; lia|].
    apply units_trunc_mono, round_units_mono; try lia.
    split; [nia | apply Z.mul_le_mono_nonneg_r; lia].
Qed.

(** [max(1, int(in_planes / r))] does not decrease when [in_planes]
    grows, for a positive integer ratio. *)
Lemma reduced_dim_of_mono (a1 a2 r d1 d2 : Z) :
  0 <= a1 <= a2 -> 0 < r ->
  reduced_dim_of a1 (PyInt r) = Ok d1 ->
  reduced_dim_of a2 (PyInt r) = Ok d2 ->
  1 <= d1 <= d2.
Proof.
  intros Ha Hr H1 H2.
  unfold reduced_dim_of, py_truediv in H1, H2.
  apply bind_Ok_inv in H1; destruct H1 as (q1 & Hq1 & H1).
  apply bind_Ok_inv in Hq1; destruct Hq1 as (f1 & Hf1 & Hq1).
  injection Hq1 as <-.
  apply bind_Ok_inv in H1; destruct H1 as (i1 & Hi1 & H1).
  injection H1 as <-.
  apply bind_Ok_inv in H2; destruct H2 as (q2 & Hq2 & H2).
  apply bind_Ok_inv in Hq2; destruct Hq2 as (f2 & Hf2 & Hq2).
  injection Hq2 as <-.
  apply bind_Ok_inv in H2; destruct H2 as (i2 & Hi2 & H2).
  injection H2 as <-.
  cbn [py_int] in Hi1, Hi2.
  pose proof (int_true_divide_trunc_mono a1 a2 r f1 f2 i1 i2 Ha Hr
                Hf1 Hi1 Hf2 Hi2).
  lia.
Qed.

(** ** Parameter counts *)

Lemma sum_app (xs ys : list Z) : sum (xs ++ ys) = sum xs + sum ys.
Proof.
  unfold sum; induction xs as [|x xs IH]; cbn [app fold_right]; lia.
Qed.

Lemma numel_Sequential (ms : list module) :
  numel (Sequential ms) = numel_list ms.
Proof.
  unfold numel, numel_list; cbn [parameters].
  induction ms as [|m ms IH]; [reflexivity|].
  cbn [flat_map map]; rewrite map_app, sum_app, IH; reflexivity.
Qed.

Lemma numel_list_cons (m : module) (ms : list module) :
  numel_list (m :: ms) = numel m + numel_list ms.
Proof. reflexivity. Qed.

Lemma numel_list_app (ms1 ms2 : list module) :
  numel_list (ms1 ++ ms2) = numel_list ms1 + numel_list ms2.
Proof. unfold numel_list; rewrite map_app; apply sum_app. Qed.

Lemma numel_list_nil : numel_list [] = 0.
Proof. reflexivity. Qed.

Lemma numel_MBConvBlock (u : bool) (c : module) :
  numel (mkMBConvBlock u c) = numel c.
Proof. reflexivity. Qed.

Lemma numel_MnasNetA1 (f a c : module) :
  numel (mkMnasNetA1 f a c) = numel f + numel a + numel c.
Proof.
  unfold numel; cbn [parameters]; rewrite !map_app, !sum_app; lia.
Qed.

Lemma numel_ConvBNReLU (i o k s g : Z) :
  numel (ConvBNReLU i o k s g) = o * (i / g) * k * k + 2 * o.
Proof.
  unfold numel, ConvBNReLU; cbn [parameters flat_map app map sum fold_right
                                 tensor_numel].
  ring.
Qed.

Lemma numel_SqueezeExcitation (n r : Z) :
  numel (SqueezeExcitation n r) = 2 * n * r + r + n.
Proof.
  unfold numel, SqueezeExcitation;
    cbn [parameters flat_map app map sum fold_right tensor_numel].
  rewrite !Z.div_1_r; ring.
Qed.

Lemma numel_Conv2d_unbiased (i o k s p g : Z) :
  numel (Conv2d i o k s p g false) = o * (i / g) * k * k.
Proof. unfold numel; cbn [parameters map sum fold_right tensor_numel]; ring. Qed.

Lemma numel_BatchNorm2d (n : Z) : numel (BatchNorm2d n) = 2 * n.
Proof. unfold numel; cbn [parameters map sum fold_right tensor_numel]; ring. Qed.

(** The parameter count of a block called with integer ratios. *)
Lemma run_call_numel (c : block_call) (b : module) :
  run_call c = Ok b ->
  1 <= call_expand_ratio c ->
  exists se_numel,
    numel b
    = (if call_expand_ratio c =? 1 then 0
       else let h := call_in_planes c * call_expand_ratio c in
            h * call_in_planes c + 2 * h)
      + (let h := call_in_planes c * call_expand_ratio c in
         h * call_kernel_size c * call_kernel_size c + 2 * h)
      + se_numel
      + (let h := call_in_planes c * call_expand_ratio c in
         call_out_planes c * h + 2 * call_out_planes c)
    /\ (call_reduction_ratio c = 1 -> se_numel = 0)
    /\ (call_reduction_ratio c <> 1 ->
        exists rd,
          reduced_dim_of (call_in_planes c) (PyInt (call_reduction_ratio c))
          = Ok rd
          /\ se_numel
             = let h := call_in_planes c * call_expand_ratio c in
               2 * h * rd + rd + h).
Proof.
  destruct c as [i o s t k r ns]; unfold run_call;
    cbn [call_in_planes call_out_planes call_stride call_expand_ratio
         call_kernel_size call_reduction_ratio call_no_skip].
  intros E Ht; apply MBConvBlock_Ok_inv in E.
  destruct E as (_ & _ & h & se & Hh & Hse & ->).
  cbn in Hh; injection Hh as <-.
  exists (numel_list se).
  rewrite numel_MBConvBlock, numel_Sequential, numel_list_app,
    numel_list_cons, numel_list_app, !numel_list_cons, numel_list_nil,
    numel_ConvBNReLU.
  split; [|split].
  - assert (Hpw : numel_list (if i =? i * t then []
                              else [ConvBNReLU i (i * t) 1 1 1])
                  = if t =? 1 then 0 else i * t * i + 2 * (i * t)).
    { destruct (Z.eqb_spec i (i * t)) as [E1|E1];
        destruct (Z.eqb_spec t 1) as [E2|E2].
      - reflexivity.
      - assert (H0 : i * (t - 1) = 0) by (ring_simplify; lia).
        apply Z.mul_eq_0 in H0; destruct H0 as [->|]; [reflexivity | lia].
      - subst t; rewrite Z.mul_1_r in E1; contradiction.
      - rewrite numel_list_cons, numel_ConvBNReLU, numel_list_nil, Z.div_1_r.
        ring. }
    rewrite Hpw; clear Hpw.
    assert (Hdw : i * t * (i * t / (i * t)) * k * k = i * t * k * k).
    { destruct (Z.eq_dec (i * t) 0) as [Z0|NZ].
      - rewrite Z0; reflexivity.
      - rewrite Z.div_same by assumption; ring. }
    rewrite Hdw; clear Hdw.
    rewrite numel_Conv2d_unbiased, numel_BatchNorm2d, Z.div_1_r.
    cbv zeta; ring.
  - intros ->; destruct Hse as [(Hne & _) | (_ & ->)];
      [discriminate Hne | reflexivity].
  - intros Hr; destruct Hse as [(_ & rd & Hrd & ->) | (Hne & _)].
    + exists rd; split; [exact Hrd|].
      rewrite numel_list_cons, numel_list_nil, numel_SqueezeExcitation.
      cbv zeta; ring.
    + cbn [py_ne_1] in Hne; apply negb_false_iff, Z.eqb_eq in Hne.
      contradiction.
Qed.

Lemma run_call_numel_mono (c1 c2 : block_call) (b1 b2 : module) :
  call_le c1 c2 -> run_call c1 = Ok b1 -> run_call c2 = Ok b2 ->
  numel b1 <= numel b2.
Proof.
  intros (Hs & Ht & Hk & Hr & Ht1 & Hk0 & Hr1 & Hi & Ho) E1 E2.
  pose proof (run_call_numel c1 b1 E1 Ht1) as (se1 & -> & Hz1 & Hn1).
  pose proof (run_call_numel c2 b2 E2 ltac:(lia)) as (se2 & -> & Hz2 & Hn2).
  rewrite <- Ht, <- Hk in *; rewrite <- Hr in Hz2, Hn2.
  set (t := call_expand_ratio c1) in *; set (k := call_kernel_size c1) in *.
  set (i1 := call_in_planes c1) in *; set (i2 := call_in_planes c2) in *.
  set (o1 := call_out_planes c1) in *; set (o2 := call_out_planes c2) in *.
  cbv zeta.
  assert (Hh : 0 <= i1 * t <= i2 * t) by nia.
  assert (Hse : se1 <= se2).
  { destruct (Z.eq_dec (call_reduction_ratio c1) 1) as [E|NE].
    - rewrite (Hz1 E), (Hz2 E); lia.
    - destruct (Hn1 NE) as (rd1 & Hrd1 & ->).
      destruct (Hn2 NE) as (rd2 & Hrd2 & ->).
      pose proof (reduced_dim_of_mono i1 i2 (call_reduction_ratio c1) rd1 rd2
                    Hi ltac:(lia) Hrd1 Hrd2).
      cbv zeta; nia. }
  assert (Hpw : (if t =? 1 then 0 else i1 * t * i1 + 2 * (i1 * t))
                <= (if t =? 1 then 0 else i2 * t * i2 + 2 * (i2 * t))).
  { destruct (t =? 1); [lia | nia]. }
  assert (Hdw : i1 * t * k * k + 2 * (i1 * t) <= i2 * t * k * k + 2 * (i2 * t)).
  { assert (0 <= k * k) by nia.
    replace (i1 * t * k * k) with (i1 * t * (k * k)) by ring.
    replace (i2 * t * k * k) with (i2 * t * (k * k)) by ring.
    nia. }
  assert (Hpl : o1 * (i1 * t) + 2 * o1 <= o2 * (i2 * t) + 2 * o2) by nia.
  lia.
Qed.

(** ** Two networks, block by block *)

Lemma blocks_numel_mono (calls1 calls2 : list block_call) :
  Forall2 call_le calls1 calls2 ->
  forall bs1 bs2,
    Forall2 (fun c b => run_call c = Ok b) calls1 bs1 ->
    Forall2 (fun c b => run_call c = Ok b) calls2 bs2 ->
    numel_list bs1 <= numel_list bs2.
Proof.
  induction 1 as [|c1 c2 calls1 calls2 Hc _ IH]; intros bs1 bs2 H1 H2;
    inversion H1; subst; inversion H2; subst.
  - lia.
  - rewrite !numel_list_cons.
    pose proof (run_call_numel_mono c1 c2 _ _ Hc ltac:(eassumption)
                  ltac:(eassumption)).
    specialize (IH _ _ ltac:(eassumption) ltac:(eassumption)); lia.
Qed.

Lemma stages_numel_mono (calls1 calls2 : list (list block_call)) :
  Forall2 (Forall2 call_le) calls1 calls2 ->
  forall stages1 stages2,
    Forall2 (Forall2 (fun c b => run_call c = Ok b)) calls1 stages1 ->
    Forall2 (Forall2 (fun c b => run_call c = Ok b)) calls2 stages2 ->
    numel_list (concat stages1) <= numel_list (concat stages2).
Proof.
  induction 1 as [|cs1 cs2 calls1 calls2 Hc _ IH]; intros st1 st2 H1 H2;
    inversion H1; subst; inversion H2; subst.
  - lia.
  - cbn [concat]; rewrite !numel_list_app.
    pose proof (blocks_numel_mono cs1 cs2 Hc _ _ ltac:(eassumption)
                  ltac:(eassumption)).
    specialize (IH _ _ ltac:(eassumption) ltac:(eassumption)); lia.
Qed.

Lemma blocks_out_channels_le (calls1 calls2 : list block_call) :
  Forall2 (fun c1 c2 => call_out_planes c1 <= call_out_planes c2)
          calls1 calls2 ->
  forall bs1 bs2,
    Forall2 (fun c b => run_call c = Ok b) calls1 bs1 ->
    Forall2 (fun c b => run_call c = Ok b) calls2 bs2 ->
    Forall2 out_channels_le bs1 bs2.
Proof.
  induction 1 as [|c1 c2 calls1 calls2 Hc _ IH]; intros bs1 bs2 H1 H2;
    inversion H1; subst; inversion H2; subst; constructor.
  - exists (call_out_planes c1), (call_out_planes c2).
    repeat split; try assumption;
      eapply run_call_channels; eassumption.
  - apply IH; assumption.
Qed.

Lemma stages_out_channels_le (calls1 calls2 : list (list block_call)) :
  Forall2 (Forall2 (fun c1 c2 => call_out_planes c1 <= call_out_planes c2))
          calls1 calls2 ->
  forall stages1 stages2,
    Forall2 (Forall2 (fun c b => run_call c = Ok b)) calls1 stages1 ->
    Forall2 (Forall2 (fun c b => run_call c = Ok b)) calls2 stages2 ->
    Forall2 out_channels_le (concat stages1) (concat stages2).
Proof.
  induction 1 as [|cs1 cs2 calls1 calls2 Hc _ IH]; intros st1 st2 H1 H2;
    inversion H1; subst; inversion H2; subst; cbn [concat].
  - constructor.
  - apply Forall2_app; [eapply blocks_out_channels_le; eassumption|].
    apply IH; assumption.
Qed.

(** ** Allocatable networks have non-negative channel counts *)

Lemma allocatable_app (xs ys : list (list Z)) :
  Forall (Forall (Z.le 0)) (xs ++ ys) ->
  Forall (Forall (Z.le 0)) xs /\ Forall (Forall (Z.le 0)) ys.
Proof. apply Forall_app. Qed.

Lemma allocatable_Sequential (ms : list module) :
  allocatable (Sequential ms) -> Forall allocatable ms.
Proof.
  unfold allocatable; cbn [parameters].
  induction ms as [|m ms IH]; intros H; [constructor|].
  cbn [flat_map] in H; apply Forall_app in H; destruct H as [H1 H2].
  constructor; [exact H1 | apply IH; exact H2].
Qed.

Lemma allocatable_features (f a c : module) :
  allocatable (mkMnasNetA1 f a c) -> allocatable f.
Proof.
  unfold allocatable; cbn [parameters]; intros H.
  apply Forall_app in H; tauto.
Qed.

Lemma allocatable_ConvBNReLU (i o k s g : Z) :
  allocatable (ConvBNReLU i o k s g) -> 0 <= o.
Proof.
  unfold allocatable, ConvBNReLU; cbn [parameters flat_map app]; intros H.
  inversion H as [|? ? H1 _]; inversion H1; assumption.
Qed.

Lemma allocatable_run_call (c : block_call) (b : module) :
  run_call c = Ok b -> allocatable b -> 0 <= call_out_planes c.
Proof.
  intros E; apply MBConvBlock_Ok_inv in E.
  destruct E as (_ & _ & h & se & _ & _ & ->).
  unfold allocatable; cbn [parameters]; intros H.
  rewrite flat_map_app in H; apply Forall_app in H; destruct H as [_ H].
  cbn [flat_map] in H; apply Forall_app in H; destruct H as [_ H].
  rewrite flat_map_app in H; apply Forall_app in H; destruct H as [_ H].
  cbn [flat_map parameters app] in H.
  inversion H as [|? ? H1 _]; inversion H1; assumption.
Qed.

Lemma blocks_out_nonneg (calls : list block_call) (bs : list module) :
  Forall2 (fun c b => run_call c = Ok b) calls bs ->
  Forall allocatable bs ->
  Forall (fun c => 0 <= call_out_planes c) calls.
Proof.
  induction 1 as [|c b calls bs Hr _ IH]; intros Ha; constructor;
    inversion Ha; subst.
  - eapply allocatable_run_call; eassumption.
  - apply IH; assumption.
Qed.

Lemma stages_out_nonneg (calls : list (list block_call))
    (stages : list (list module)) :
  Forall2 (Forall2 (fun c b => run_call c = Ok b)) calls stages ->
  Forall allocatable (concat stages) ->
  Forall (fun c => 0 <= call_out_planes c) (concat calls).
Proof.
  induction 1 as [|cs bs calls stages Hr _ IH]; intros Ha; cbn [concat] in *.
  - constructor.
  - apply Forall_app in Ha; destruct Ha as [Ha1 Ha2].
    apply Forall_app; split;
      [eapply blocks_out_nonneg; eassumption | apply IH; assumption].
Qed.

Lemma allocatableb_sound (m : module) : allocatableb m = true -> allocatable m.
Proof.
  unfold allocatableb, allocatable; intros H.
  apply Forall_forall; intros shape Hs.
  rewrite forallb_forall in H; specialize (H shape Hs).
  apply Forall_forall; intros d Hd.
  rewrite forallb_forall in H; apply Z.leb_le, H, Hd.
Qed.

(** ** Monotonicity in the width multiplier *)

(** Applies [scaled_mono] at a constant of the table; [float(c)] is
    computed. *)
Ltac scaled_le c H1 H2 Hle :=
  eapply (scaled_mono c);
  [ vm_compute; reflexivity
  | vm_compute; discriminate
  | vm_compute; discriminate
  | exact Hle
  | exact H1
  | exact H2 ].

(** C8.  Let [w1 <= w2] be two width multipliers for which the networks
    are built.  Each scaled channel count [int(c * w1)] of the table is at
    most [int(c * w2)]; every module of [self.features] of the first
    network gives at most as many channels as its counterpart in the
    second; and, the parameter tensors of the first network having no
    negative extent, its parameter count is at most that of the second. *)
Theorem MnasNetA1_width_monotone
    (w1 w2 : float) (num_classes : Z) (net1 net2 : module) :
  (w1 <=? w2)%float = true ->
  MnasNetA1 w1 num_classes = Ok net1 ->
  MnasNetA1 w2 num_classes = Ok net2 ->
  Forall (fun c => exists z1 z2,
              scaled c w1 = Ok z1 /\ scaled c w2 = Ok z2 /\ z1 <= z2)
         [32; 16; 24; 40; 80; 112; 160; 320]
  /\ Forall2 out_channels_le (children (features net1))
                             (children (features net2))
  /\ (allocatable net1 -> numel net1 <= numel net2).
Proof.
  intros Hle E1 E2.
  apply MnasNetA1_blocks in E1.
  destruct E1 as (c0 & c1 & c2 & c3 & c4 & c5 & c6 & c7 & stages1
                  & Hc0 & Hc1 & Hc2 & Hc3 & Hc4 & Hc5 & Hc6 & Hc7 & Hs1 & ->).
  apply MnasNetA1_blocks in E2.
  destruct E2 as (d0 & d1 & d2 & d3 & d4 & d5 & d6 & d7 & stages2
                  & Hd0 & Hd1 & Hd2 & Hd3 & Hd4 & Hd5 & Hd6 & Hd7 & Hs2 & ->).
  assert (L0 : c0 <= d0) by scaled_le 32 Hc0 Hd0 Hle.
  assert (L1 : c1 <= d1) by scaled_le 16 Hc1 Hd1 Hle.
  assert (L2 : c2 <= d2) by scaled_le 24 Hc2 Hd2 Hle.
  assert (L3 : c3 <= d3) by scaled_le 40 Hc3 Hd3 Hle.
  assert (L4 : c4 <= d4) by scaled_le 80 Hc4 Hd4 Hle.
  assert (L5 : c5 <= d5) by scaled_le 112 Hc5 Hd5 Hle.
  assert (L6 : c6 <= d6) by scaled_le 160 Hc6 Hd6 Hle.
  assert (L7 : c7 <= d7) by scaled_le 320 Hc7 Hd7 Hle.
  split; [|split].
  - repeat (constructor;
            [do 2 eexists; split; [eassumption|]; split; [eassumption|];
             assumption|]).
    constructor.
  - cbn [features children].
    constructor; [exists c0, d0; repeat split; assumption|].
    apply Forall2_app.
    + eapply stages_out_channels_le; [|exact Hs1 | exact Hs2].
      cbv [enumerate settings length seq combine stage_calls range Z.to_nat
           Pos.to_nat Pos.iter_op Nat.add repeat_calls after_repeat Nat.eqb].
      repeat constructor; cbn [call_out_planes]; assumption.
    + constructor; [|constructor].
      exists 1280, 1280; repeat split; lia.
  - intros Ha.
    (* the channel counts of the first network are not negative *)
    apply allocatable_features, allocatable_Sequential in Ha.
    inversion Ha as [|? ? Hstem Hrest]; subst.
    apply allocatable_ConvBNReLU in Hstem.
    apply Forall_app in Hrest; destruct Hrest as [Hrest _].
    apply (stages_out_nonneg _ _ Hs1) in Hrest.
    unroll_stage_calls Hrest; cbn [concat app] in Hrest.
    repeat match goal with
           | H : Forall _ (_ :: _) |- _ => inversion H; subst; clear H
           end.
    cbn [call_out_planes] in *.
    (* block by block *)
    assert (Hblocks : numel_list (concat stages1)
                      <= numel_list (concat stages2)).
    { eapply stages_numel_mono; [|exact Hs1 | exact Hs2].
      cbv [enumerate settings length seq combine stage_calls range Z.to_nat
           Pos.to_nat Pos.iter_op Nat.add repeat_calls after_repeat Nat.eqb].
      repeat constructor;
        cbn [call_in_planes call_out_planes call_stride call_expand_ratio
             call_kernel_size call_reduction_ratio]; lia. }
    rewrite !numel_MnasNetA1, !numel_Sequential, !numel_list_cons,
      !numel_list_app, !numel_list_cons, !numel_list_nil, !numel_ConvBNReLU,
      !Z.div_1_r.
    nia.
Qed.

Lemma MnasNetA1_width_monotone_witness :
  (0.5 <=? 1)%float = true /\
  MnasNetA1 0.5 default_num_classes = Ok half_net /\
  MnasNetA1 1 default_num_classes = Ok canonical_net /\
  Forall (fun c => exists z1 z2,
              scaled c 0.5 = Ok z1 /\ scaled c 1 = Ok z2 /\ z1 <= z2)
         [32; 16; 24; 40; 80; 112; 160; 320]
  /\ Forall2 out_channels_le (children (features half_net))
                             (children (features canonical_net))
  /\ (allocatable half_net -> numel half_net <= numel canonical_net).
Proof.
  split; [reflexivity|]; split; [reflexivity|]; split; [reflexivity|].
  apply (MnasNetA1_width_monotone 0.5 1 default_num_classes half_net
           canonical_net); reflexivity.
Defined.

(** The parameter counts of the two networks; the one the program prints
    is the second. *)
Example numel_values :
  numel half_net = 2073131 /\ numel canonical_net = 3887038.
Proof. split; reflexivity. Qed.

Example half_net_allocatable : allocatable half_net.
Proof. apply allocatableb_sound; reflexivity. Qed.

(** A negative multiplier asks for tensors of negative size: the model
    records the request, the framework refuses to allocate them. *)
Example negative_width_not_allocatable :
  exists net, MnasNetA1 (-1) default_num_classes = Ok net /\ ~ allocatable net.
Proof.
  eexists; split; [reflexivity|].
  unfold allocatable; intros H.
  rewrite Forall_forall in H.
  specialize (H [-32] ltac:(vm_compute; tauto)).
  inversion H as [|? ? Hneg _]; lia.
Qed.

(** ** Shapes, for any plane *)

Lemma strided_1 (H : Z) : strided 1 H = H.
Proof. unfold strided; rewrite Z.div_1_r; lia. Qed.

Lemma strided_strided (a b H : Z) :
  0 < a -> 0 < b -> strided b (strided a H) = strided (a * b) H.
Proof.
  intros Ha Hb; unfold strided.
  replace ((H - 1) / a + 1 - 1) with ((H - 1) / a) by lia.
  rewrite Z.div_div by lia; reflexivity.
Qed.

Lemma strided_pos (s H : Z) : 0 < s -> 0 < H -> 0 < strided s H.
Proof. intros Hs HH; apply strided_extent_pos; assumption. Qed.

(** A block on positive hidden channels maps [(N, in_planes, H, W)] to
    [(N, out_planes, H', W')], whatever its ratios are. *)
Lemma block_shape
    (in_planes out_planes stride : Z) (expand_ratio : num)
    (kernel_size : Z) (reduction_ratio : num) (no_skip : bool) (b : module)
    (hidden_dim N H W : Z) :
  MBConvBlock in_planes out_planes stride expand_ratio kernel_size
              reduction_ratio no_skip = Ok b ->
  hidden_dim_of in_planes expand_ratio = Ok hidden_dim ->
  0 < out_planes -> 0 < hidden_dim -> 0 < H -> 0 < W ->
  forward (T := shape) b [N; in_planes; H; W]
  = Ok [N; out_planes; strided stride H; strided stride W].
Proof.
  intros E Hh Ho Hpos HH HW; apply MBConvBlock_Ok_inv in E.
  destruct E as (Hs & Hk & h & se & Hh' & Hse & ->).
  assert (h = hidden_dim) by congruence; subst h; clear Hh'.
  rename in_planes into i, out_planes into o, stride into s,
         kernel_size into k, hidden_dim into h.
  assert (Hs0 : 0 < s) by (destruct Hs as [<-|[<-|[]]]; lia).
  pose proof (strided_pos s H Hs0 HH) as HH'.
  pose proof (strided_pos s W Hs0 HW) as HW'.
  unfold strided in *.
  assert (Hconv : run_layers (forward (T := shape))
                    ((if i =? h then [] else [ConvBNReLU i h 1 1 1])
                     ++ ConvBNReLU h h k s h
                     :: se
                     ++ [Conv2d h o 1 1 0 1 false; BatchNorm2d o])
                    [N; i; H; W]
                  = Ok [N; o; (H - 1) / s + 1; (W - 1) / s + 1]).
  { rewrite run_layers_app.
    assert (Hpw : run_layers (forward (T := shape))
                    (if i =? h then [] else [ConvBNReLU i h 1 1 1])
                    [N; i; H; W]
                  = Ok [N; h; H; W]).
    { destruct (Z.eqb_spec i h) as [E|E].
      - cbn [run_layers]; rewrite <- E; reflexivity.
      - cbn [run_layers].
        rewrite ConvBNReLU_shape by (cbn; lia).
        rewrite !window_out_pointwise; reflexivity. }
    rewrite Hpw; cbn [bind run_layers].
    rewrite ConvBNReLU_shape.
    2-10: destruct Hk as [<-|[<-|[]]]; cbn; lia.
    rewrite !window_out_same_padding by assumption.
    cbn [bind]; rewrite run_layers_app.
    assert (Hgate : run_layers (forward (T := shape)) se
                      [N; h; (H - 1) / s + 1; (W - 1) / s + 1]
                    = Ok [N; h; (H - 1) / s + 1; (W - 1) / s + 1]).
    { destruct Hse as [(_ & rd & Hrd & ->) | (_ & ->)]; [|reflexivity].
      apply reduced_dim_of_positive in Hrd.
      cbn [run_layers]; rewrite SqueezeExcitation_shape by lia.
      reflexivity. }
    rewrite Hgate; cbn [bind].
    apply pointwise_linear_shape; assumption. }
  cbn [forward]; rewrite Hconv.
  destruct ((i =? o) && (s =? 1) && negb no_skip) eqn:Hu; [|reflexivity].
  apply andb_true_iff in Hu; destruct Hu as [Hu _].
  apply andb_true_iff in Hu; destruct Hu as [Hio Hs1].
  apply Z.eqb_eq in Hio, Hs1; subst o s.
  cbn [bind shape_tensor tensor_add].
  rewrite !Z.div_1_r.
  replace (H - 1 + 1) with H by lia; replace (W - 1 + 1) with W by lia.
  apply broadcast_refl.
Qed.

Lemma call_shape (c : block_call) (b : module) (N H W : Z) :
  run_call c = Ok b ->
  0 < call_in_planes c -> 0 < call_out_planes c ->
  1 <= call_expand_ratio c -> 0 < H -> 0 < W ->
  forward (T := shape) b [N; call_in_planes c; H; W]
  = Ok [N; call_out_planes c;
        strided (call_stride c) H; strided (call_stride c) W].
Proof.
  intros E Hi Ho Ht HH HW.
  unfold run_call in E.
  apply (block_shape _ _ _ _ _ _ _ _ (call_in_planes c * call_expand_ratio c)
           N H W E);
    [reflexivity | assumption | nia | assumption | assumption].
Qed.

Ltac step_strided :=
  cbn [run_layers];
  lazymatch goal with
  | |- context [forward ?y [?N; _; strided ?a ?H; strided ?a ?W]] =>
      lazymatch goal with
      | Hr : run_call ?c = Ok y |- _ =>
          let Hx := fresh "Hx" in
          pose proof (call_shape c y N (strided a H) (strided a W) Hr
                        ltac:(assumption) ltac:(assumption) ltac:(cbn; lia)
                        ltac:(apply strided_pos; [lia | assumption])
                        ltac:(apply strided_pos; [lia | assumption])) as Hx;
          cbn [call_in_planes call_out_planes call_stride] in Hx;
          rewrite !strided_strided in Hx by lia;
          match type of Hx with
          | _ = Ok [_; _; strided ?h _; _] =>
              let h' := eval vm_compute in h in
              change h with h' in Hx
          end;
          rewrite Hx; clear Hx;
          cbn [bind]
      end
  end.

Lemma stem_shape (o k s N H W : Z) :
  In k [3; 5] -> 0 < s -> 0 < o -> 0 < H -> 0 < W ->
  forward (T := shape) (ConvBNReLU 3 o k s 1) [N; 3; H; W]
  = Ok [N; o; strided s H; strided s W].
Proof.
  intros Hk Hs Ho HH HW.
  rewrite ConvBNReLU_shape.
  2-10: destruct Hk as [<-|[<-|[]]]; cbn; lia.
  rewrite !window_out_same_padding by assumption; reflexivity.
Qed.

(** [self.features] of any network with positive channel counts divides
    the plane by 32, rounding up. *)
Lemma features_strided (width_mult : float) (num_classes : Z) (net : module)
    (N H W : Z) :
  MnasNetA1 width_mult num_classes = Ok net ->
  Forall (fun c => exists z, scaled c width_mult = Ok z /\ 0 < z)
         [32; 16; 24; 40; 80; 112; 160; 320] ->
  0 < H -> 0 < W ->
  forward (T := shape) (features net) [N; 3; H; W]
  = Ok [N; 1280; strided 32 H; strided 32 W].
Proof.
  intros E Hpos HH HW; apply MnasNetA1_blocks in E.
  destruct E as (c0 & c1 & c2 & c3 & c4 & c5 & c6 & c7 & stages
                 & H0 & H1 & H2 & H3 & H4 & H5 & H6 & H7 & Hs & ->).
  repeat match goal with
         | H : Forall _ (_ :: _) |- _ => inversion H; subst; clear H
         end.
  repeat match goal with
         | H : exists z, scaled _ _ = Ok z /\ _ |- _ =>
             let z := fresh "z" in
             let Hz := fresh "Hz" in
             let Hp := fresh "Hp" in
             destruct H as (z & Hz & Hp);
             first [ rewrite H0 in Hz | rewrite H1 in Hz | rewrite H2 in Hz
                   | rewrite H3 in Hz | rewrite H4 in Hz | rewrite H5 in Hz
                   | rewrite H6 in Hz | rewrite H7 in Hz ];
             injection Hz as <-
         end.
  unroll_stage_calls Hs.
  inv_Forall2.
  cbn [features forward concat app run_layers].
  rewrite stem_shape by (cbn; auto; lia).
  cbn [bind].
  do 16 step_strided.
  cbn [run_layers].
  rewrite ConvBNReLU_shape.
  - rewrite !window_out_pointwise; reflexivity.
  - lia.
  - lia.
  - cbn; lia.
  - pose proof (strided_pos 32 H ltac:(lia) HH); cbn; lia.
  - pose proof (strided_pos 32 W ltac:(lia) HW); cbn; lia.
  - lia.
  - lia.
  - apply strided_pos; [lia | assumption].
  - apply strided_pos; [lia | assumption].
Qed.

Lemma stem_rejects (o N C H W : Z) (rest : list module) :
  ~ (C = 3 /\ 0 < H /\ 0 < W) ->
  forward (T := shape) (Sequential (ConvBNReLU 3 o 3 2 1 :: rest)) [N; C; H; W]
  = Raise RuntimeError.
Proof.
  intros Hn.
  unfold ConvBNReLU.
  cbn [forward run_layers bind shape_tensor conv2d shape_conv2d].
  unfold conv2d_accepts; change ((3 - 1) / 2) with 1.
  destruct (Z.eqb_spec C 3); [|reflexivity].
  destruct (Z.leb_spec 3 (H + 2 * 1)); [|reflexivity].
  destruct (Z.leb_spec 3 (W + 2 * 1)); [|reflexivity].
  exfalso; apply Hn; lia.
Qed.

Lemma head_shape (nc N h w : Z) :
  0 < h -> 0 < w ->
  forall y,
    (x2 <- forward (T := shape) (AvgPool2d 7) [N; 1280; h; w] ;;
     x3 <- view_rows x2 ;;
     forward (Sequential [Dropout dropout_p; Linear 1280 nc]) x3) = Ok y
    <-> N <> 0 /\ 7 <= h < 14 /\ 7 <= w < 14 /\ y = [N; nc].
Proof.
  intros Hh Hw y.
  cbn [forward run_layers bind shape_tensor avg_pool2d view_rows dropout
       linear shape_avg_pool2d].
  change (0 <? 7) with true; cbn [andb].
  destruct (Z.leb_spec 7 h) as [H7|H7]; cbn [andb bind].
  2: { split; [discriminate | lia]. }
  destruct (Z.leb_spec 7 w) as [W7|W7]; cbn [andb bind].
  2: { split; [discriminate | lia]. }
  unfold shape_view_rows.
  destruct (Z.eqb_spec N 0) as [HN|HN]; cbn [bind].
  { split; [discriminate | intros []; contradiction]. }
  unfold shape_linear, tensor_numel, window_out; cbn [rev app fold_right].
  rewrite Z.mul_1_r.
  set (h' := (h + 2 * 0 - 7) / 7 + 1); set (w' := (w + 2 * 0 - 7) / 7 + 1).
  assert (Hh' : 1 <= h' /\ (h' = 1 <-> h < 14))
    by (unfold h'; split; [|split; intros]; Z.div_mod_to_equations; lia).
  assert (Hw' : 1 <= w' /\ (w' = 1 <-> w < 14))
    by (unfold w'; split; [|split; intros]; Z.div_mod_to_equations; lia).
  destruct (Z.eqb_spec (1280 * (h' * w')) 1280) as [E|E].
  - assert (h' = 1 /\ w' = 1) as [E1 E2] by nia.
    split.
    + intros Ey; injection Ey as <-.
      apply Hh' in E1; apply Hw' in E2.
      split; [assumption|]; split; [lia|]; split; [lia | reflexivity].
    + intros (_ & _ & _ & ->); reflexivity.
  - split; [discriminate|].
    intros (_ & [_ A] & [_ B] & _); exfalso; apply E.
    apply Hh' in A; apply Hw' in B; rewrite A, B; reflexivity.
Qed.

(** X2.  [self.features] of a network with positive channel counts maps a
    batch of images of any height and width to 1280 channels on a plane
    32 times smaller, rounded up: the five layers of stride 2 each halve
    it.  (The batch is to leave more than one value per channel on that
    last plane, which the framework's batch normalisation asks for while
    training.) *)
Theorem MnasNetA1_features_downsample
    (width_mult : float) (num_classes : Z) (net : module) (N H W : Z) :
  MnasNetA1 width_mult num_classes = Ok net ->
  Forall (fun c => exists z, scaled c width_mult = Ok z /\ 0 < z)
         [32; 16; 24; 40; 80; 112; 160; 320] ->
  0 < H -> 0 < W ->
  1 < N * ((H + 31) / 32 * ((W + 31) / 32)) ->
  output_shape (features net) [N; 3; H; W]
  = Ok [N; 1280; (H + 31) / 32; (W + 31) / 32].
Proof.
  intros E Hpos HH HW _.
  unfold output_shape.
  rewrite (features_strided width_mult num_classes net N H W E Hpos HH HW).
  unfold strided; do 4 f_equal; [|f_equal]; Z.div_mod_to_equations; lia.
Qed.

Lemma MnasNetA1_features_downsample_witness :
  MnasNetA1 default_width_mult default_num_classes = Ok canonical_net /\
  output_shape (features canonical_net) [2; 3; 320; 250]
  = Ok [2; 1280; (320 + 31) / 32; (250 + 31) / 32].
Proof.
  split; [reflexivity|].
  apply (MnasNetA1_features_downsample default_width_mult default_num_classes
           canonical_net 2 320 250); [reflexivity | | lia | lia | reflexivity].
  repeat (constructor; [eexists; split; [reflexivity | reflexivity]|]).
  constructor.
Defined.

(** X1.  A network with positive channel counts accepts a batch of
    [N >= 0] images [(N, C, H, W)] exactly when the batch is not empty, the
    images have 3 channels, and height and width lie between 193 and 416:
    then the plane that reaches the 7x7 average pooling has between 7 and 13
    rows and columns, the pooling leaves one value per channel, and the
    classifier receives its 1280 features.  The result is
    [(N, num_classes)]; on any other input the forward pass raises. *)
Theorem MnasNetA1_forward_accepts
    (width_mult : float) (num_classes : Z) (net : module)
    (N C H W : Z) (y : shape) :
  MnasNetA1 width_mult num_classes = Ok net ->
  Forall (fun c => exists z, scaled c width_mult = Ok z /\ 0 < z)
         [32; 16; 24; 40; 80; 112; 160; 320] ->
  0 <= N ->
  (output_shape net [N; C; H; W] = Ok y
   <-> N <> 0 /\ C = 3 /\ 193 <= H <= 416 /\ 193 <= W <= 416
       /\ y = [N; num_classes]).
Proof.
  intros E Hpos _.
  destruct (Z.eq_dec C 3) as [->|HC].
  2: { apply MnasNetA1_inv in E.
       destruct E as (c0 & outs & stages & _ & _ & _ & ->).
       unfold output_shape; rewrite forward_MnasNetA1, stem_rejects by lia.
       split; [discriminate | lia]. }
  destruct (Z_lt_le_dec 0 H) as [HH|HH].
  2: { apply MnasNetA1_inv in E.
       destruct E as (c0 & outs & stages & _ & _ & _ & ->).
       unfold output_shape; rewrite forward_MnasNetA1, stem_rejects by lia.
       split; [discriminate | lia]. }
  destruct (Z_lt_le_dec 0 W) as [HW|HW].
  2: { apply MnasNetA1_inv in E.
       destruct E as (c0 & outs & stages & _ & _ & _ & ->).
       unfold output_shape; rewrite forward_MnasNetA1, stem_rejects by lia.
       split; [discriminate | lia]. }
  pose proof (features_strided width_mult num_classes net N H W E Hpos HH HW)
    as HF.
  apply MnasNetA1_inv in E.
  destruct E as (c0 & outs & stages & _ & _ & _ & ->).
  cbn [features] in HF.
  unfold output_shape; rewrite forward_MnasNetA1, HF; cbn [bind].
  rewrite head_shape by (apply strided_pos; lia).
  assert (Hr : forall X, 0 < X -> (7 <= strided 32 X < 14 <-> 193 <= X <= 416))
    by (intros X HX; unfold strided; split; intros;
        Z.div_mod_to_equations; lia).
  rewrite (Hr H HH), (Hr W HW); tauto.
Qed.

Lemma MnasNetA1_forward_accepts_witness :
  MnasNetA1 default_width_mult default_num_classes = Ok canonical_net /\
  (output_shape canonical_net [4; 3; 416; 193] = Ok [4; 1000]
   <-> 4 <> 0 /\ 3 = 3 /\ 193 <= 416 <= 416 /\ 193 <= 193 <= 416
       /\ [4; 1000] = [4; default_num_classes]).
Proof.
  split; [reflexivity|].
  apply (MnasNetA1_forward_accepts default_width_mult default_num_classes
           canonical_net 4 3 416 193 [4; 1000]); [reflexivity | | lia].
  repeat (constructor; [eexists; split; [reflexivity | reflexivity]|]).
  constructor.
Defined.

(** Just outside the window the forward pass fails: at 192 rows the
    pooling window does not fit, at 417 the classifier is handed two values
    per channel. *)
Example resolution_window :
  output_shape canonical_net [1; 3; 192; 224] = Raise RuntimeError
  /\ output_shape canonical_net [1; 3; 193; 224] = Ok [1; 1000]
  /\ output_shape canonical_net [1; 3; 416; 224] = Ok [1; 1000]
  /\ output_shape canonical_net [1; 3; 417; 224] = Raise RuntimeError.
Proof. repeat split; reflexivity. Qed.


(** ** The layers of the program, one by one *)

(** X4.  [ConvBNReLU] built on positive channel counts, with a group count
    that divides both, keeps the batch, yields [out_planes] channels, and
    pads by [(kernel_size - 1) // 2]: with an odd kernel this covers the
    border, so that the plane is divided by the stride, rounded up (and is
    kept at stride 1); with an even kernel one row and one column are lost
    first.  An input with another channel count is rejected.  (The
    result is to hold more than one value per channel, which the
    framework's batch normalisation asks for while training.) *)
Theorem ConvBNReLU_output_shape
    (in_planes out_planes kernel_size stride groups N H W : Z) :
  0 < in_planes -> 0 < out_planes -> 0 < kernel_size -> 0 < stride ->
  0 < groups -> in_planes mod groups = 0 -> out_planes mod groups = 0 ->
  (kernel_size mod 2 = 1 -> 0 < H -> 0 < W ->
   1 < N * (strided stride H * strided stride W) ->
   output_shape (ConvBNReLU in_planes out_planes kernel_size stride groups)
                [N; in_planes; H; W]
   = Ok [N; out_planes; strided stride H; strided stride W]) /\
  (kernel_size mod 2 = 0 -> 1 < H -> 1 < W ->
   1 < N * (strided stride (H - 1) * strided stride (W - 1)) ->
   output_shape (ConvBNReLU in_planes out_planes kernel_size stride groups)
                [N; in_planes; H; W]
   = Ok [N; out_planes; strided stride (H - 1); strided stride (W - 1)]) /\
  (forall C y, C <> in_planes ->
     output_shape (ConvBNReLU in_planes out_planes kernel_size stride groups)
                  [N; C; H; W] <> Ok y).
Proof.
  intros Hi Ho Hk Hs Hg Hgi Hgo.
  unfold output_shape.
  assert (Hp : 0 <= (kernel_size - 1) / 2) by (apply Z.div_pos; lia).
  assert (Hle : groups <= out_planes).
  { apply Z.mod_divide in Hgo; [|lia].
    apply Z.divide_pos_le; assumption. }
  split; [|split].
  - intros Hodd HH HW _.
    rewrite ConvBNReLU_shape;
      try assumption; try (Z.div_mod_to_equations; lia).
    unfold window_out, strided.
    replace (H + 2 * ((kernel_size - 1) / 2) - kernel_size) with (H - 1)
      by (Z.div_mod_to_equations; lia).
    replace (W + 2 * ((kernel_size - 1) / 2) - kernel_size) with (W - 1)
      by (Z.div_mod_to_equations; lia).
    reflexivity.
  - intros Heven HH HW _.
    rewrite ConvBNReLU_shape;
      try assumption; try (Z.div_mod_to_equations; lia).
    unfold window_out, strided.
    replace (H + 2 * ((kernel_size - 1) / 2) - kernel_size) with (H - 1 - 1)
      by (Z.div_mod_to_equations; lia).
    replace (W + 2 * ((kernel_size - 1) / 2) - kernel_size) with (W - 1 - 1)
      by (Z.div_mod_to_equations; lia).
    reflexivity.
  - intros C y HC.
    unfold ConvBNReLU.
    cbn [forward run_layers bind shape_tensor conv2d shape_conv2d].
    unfold conv2d_accepts.
    destruct (Z.eqb_spec C in_planes); [contradiction|].
    cbn [andb bind]; discriminate.
Qed.

Lemma ConvBNReLU_output_shape_witness :
  (3 mod 2 = 1 -> 0 < 224 -> 0 < 224 ->
   1 < 1 * (strided 2 224 * strided 2 224) ->
   output_shape (ConvBNReLU 3 32 3 2 1) [1; 3; 224; 224]
   = Ok [1; 32; strided 2 224; strided 2 224]) /\
  (3 mod 2 = 0 -> 1 < 224 -> 1 < 224 ->
   1 < 1 * (strided 2 (224 - 1) * strided 2 (224 - 1)) ->
   output_shape (ConvBNReLU 3 32 3 2 1) [1; 3; 224; 224]
   = Ok [1; 32; strided 2 (224 - 1); strided 2 (224 - 1)]) /\
  (forall C y, C <> 3 ->
     output_shape (ConvBNReLU 3 32 3 2 1) [1; C; 224; 224] <> Ok y).
Proof.
  apply (ConvBNReLU_output_shape 3 32 3 2 1 1 224 224);
    first [lia | reflexivity].
Defined.

(** A kernel of even size shrinks the plane even at stride 1. *)
Example even_kernel :
  output_shape (ConvBNReLU 3 8 4 1 1) [1; 3; 32; 32] = Ok [1; 8; 31; 31]
  /\ output_shape (ConvBNReLU 3 8 3 1 1) [1; 3; 32; 32] = Ok [1; 8; 32; 32].
Proof. split; reflexivity. Qed.

(** X5.  A gate runs exactly on the inputs it was built for, and never
    changes a shape.  For every gate and every input of non-negative
    extents, [forward] returns a tensor if and only if both channel counts
    of the gate are at least 1 and the input is a batch
    [(N, num_features, H, W)] or a single image [(num_features, H, W)];
    what it returns then has the shape of the input.  Nothing is asked of
    the plane, which may be empty: the pooling is a mean and the two
    convolutions see one value per channel.  A gate with
    [reduced_dim = 0], an input with another channel count, and an input of
    fewer than three or more than four dimensions all make [forward]
    raise. *)
Theorem SqueezeExcitation_accepts
    (num_features reduced_dim : Z) (x y : shape) :
  Forall (Z.le 0) x ->
  (output_shape (SqueezeExcitation num_features reduced_dim) x = Ok y
   <-> 1 <= num_features /\ 1 <= reduced_dim /\ y = x
       /\ ((exists N H W, x = [N; num_features; H; W])
           \/ (exists H W, x = [num_features; H; W]))).
Proof.
  intros _; unfold output_shape; split.
  - apply SqueezeExcitation_Ok_inv.
  - intros (Hn & Hr & -> & [(N & H & W & ->) | (H & W & ->)]).
    + apply SqueezeExcitation_shape; assumption.
    + apply SqueezeExcitation_shape_image; assumption.
Qed.

Lemma SqueezeExcitation_accepts_witness :
  Forall (Z.le 0) [1; 72; 0; 28] /\
  (output_shape (SqueezeExcitation 72 6) [1; 72; 0; 28] = Ok [1; 72; 0; 28]
   <-> 1 <= 72 /\ 1 <= 6 /\ [1; 72; 0; 28] = [1; 72; 0; 28]
       /\ ((exists N H W, [1; 72; 0; 28] = [N; 72; H; W])
           \/ (exists H W, [1; 72; 0; 28] = [72; H; W]))).
Proof.
  assert (Hx : Forall (Z.le 0) [1; 72; 0; 28]) by (repeat constructor; lia).
  split; [exact Hx|].
  exact (SqueezeExcitation_accepts 72 6 [1; 72; 0; 28] [1; 72; 0; 28] Hx).
Defined.

Lemma block_rejects
    (in_planes out_planes stride : Z) (expand_ratio : num)
    (kernel_size : Z) (reduction_ratio : num) (no_skip : bool) (b : module)
    (N C H W : Z) :
  MBConvBlock in_planes out_planes stride expand_ratio kernel_size
              reduction_ratio no_skip = Ok b ->
  C <> in_planes ->
  forward (T := shape) b [N; C; H; W] = Raise RuntimeError.
Proof.
  intros E HC; apply MBConvBlock_Ok_inv in E.
  destruct E as (Hs & Hk & h & se & Hh & Hse & ->).
  assert (Hconv : forall rest,
             run_layers (forward (T := shape))
               ((if in_planes =? h then []
                 else [ConvBNReLU in_planes h 1 1 1])
                ++ ConvBNReLU h h kernel_size stride h :: rest) [N; C; H; W]
             = Raise RuntimeError).
  { intros rest; destruct (Z.eqb_spec in_planes h) as [<-|Hne];
      unfold ConvBNReLU;
      cbn [app forward run_layers bind shape_tensor conv2d shape_conv2d];
      unfold conv2d_accepts;
      (destruct (Z.eqb_spec C in_planes); [contradiction|]); reflexivity. }
  cbn [forward]; rewrite Hconv.
  destruct (_ && _ && _); reflexivity.
Qed.

(** X3.  A block built on positive channel counts and a positive hidden
    dimension maps [(N, in_planes, H, W)] to [(N, out_planes, H', W')]:
    the batch is kept, the channels are those asked for, and the plane is
    kept at stride 1 and halved, rounding up, at stride 2, for both kernel
    sizes and with or without the gate and the shortcut.  An input with
    another channel count makes [forward] raise.  (The result is to hold
    more than one value per channel, which the framework's batch
    normalisation asks for while training.) *)
Theorem MBConvBlock_output_shape
    (in_planes out_planes stride : Z) (expand_ratio : num)
    (kernel_size : Z) (reduction_ratio : num) (no_skip : bool) (b : module)
    (hidden_dim N H W : Z) :
  MBConvBlock in_planes out_planes stride expand_ratio kernel_size
              reduction_ratio no_skip = Ok b ->
  hidden_dim_of in_planes expand_ratio = Ok hidden_dim ->
  0 < in_planes -> 0 < out_planes -> 0 < hidden_dim -> 0 < H -> 0 < W ->
  1 < N * (strided stride H * strided stride W) ->
  output_shape b [N; in_planes; H; W]
  = Ok [N; out_planes; strided stride H; strided stride W]
  /\ (stride = 1 -> strided stride H = H /\ strided stride W = W)
  /\ (stride = 2 ->
      strided stride H = (H + 1) / 2 /\ strided stride W = (W + 1) / 2)
  /\ (forall C, C <> in_planes ->
        output_shape b [N; C; H; W] = Raise RuntimeError).
Proof.
  intros E Hh Hi Ho Hpos HH HW _; split; [|split; [|split]].
  - apply (block_shape _ _ _ _ _ _ _ _ hidden_dim N H W E); assumption.
  - intros ->; rewrite !strided_1; auto.
  - intros ->; unfold strided; split; Z.div_mod_to_equations; lia.
  - intros C HC; apply (block_rejects _ _ _ _ _ _ _ _ N C H W E HC).
Qed.

Lemma MBConvBlock_output_shape_witness :
  MBConvBlock 24 40 2 (PyInt 3) 5 (PyInt 4) default_no_skip = Ok gated_block /\
  output_shape gated_block [1; 24; 56; 56]
  = Ok [1; 40; strided 2 56; strided 2 56]
  /\ (2 = 1 -> strided 2 56 = 56 /\ strided 2 56 = 56)
  /\ (2 = 2 -> strided 2 56 = (56 + 1) / 2 /\ strided 2 56 = (56 + 1) / 2)
  /\ (forall C, C <> 24 ->
        output_shape gated_block [1; C; 56; 56] = Raise RuntimeError).
Proof.
  split; [reflexivity|].
  apply (MBConvBlock_output_shape 24 40 2 (PyInt 3) 5 (PyInt 4)
           default_no_skip gated_block 72 1 56 56);
    first [reflexivity | lia].
Defined.

(** ** Parameter counts in closed form *)

Lemma block_numel_eq
    (in_planes out_planes stride : Z) (expand_ratio : num)
    (kernel_size : Z) (reduction_ratio : num) (no_skip : bool) (b : module) :
  MBConvBlock in_planes out_planes stride expand_ratio kernel_size
              reduction_ratio no_skip = Ok b ->
  exists hidden_dim reduced_dim,
    hidden_dim_of in_planes expand_ratio = Ok hidden_dim
    /\ (if py_ne_1 reduction_ratio
        then exists rd, reduced_dim_of in_planes reduction_ratio = Ok rd
                        /\ reduced_dim = Some rd
        else reduced_dim = None)
    /\ numel b
       = block_numel in_planes out_planes kernel_size hidden_dim reduced_dim.
Proof.
  intros E; apply MBConvBlock_Ok_inv in E.
  destruct E as (_ & _ & h & se & Hh & Hse & ->).
  exists h, (match se with
             | [mkSqueezeExcitation
                  (Sequential (_ :: Conv2d _ rd _ _ _ _ _ :: _))] => Some rd
             | _ => None
             end).
  split; [exact Hh|]; split.
  - destruct Hse as [(-> & rd & Hrd & ->) | (-> & ->)].
    + exists rd; split; [exact Hrd | reflexivity].
    + reflexivity.
  - rewrite numel_MBConvBlock, numel_Sequential, numel_list_app,
      numel_list_cons, numel_list_app, !numel_list_cons, numel_list_nil,
      numel_ConvBNReLU, numel_Conv2d_unbiased, numel_BatchNorm2d, Z.div_1_r.
    unfold block_numel.
    assert (Hpw : numel_list (if in_planes =? h then []
                              else [ConvBNReLU in_planes h 1 1 1])
                  = if in_planes =? h then 0 else h * in_planes + 2 * h).
    { destruct (in_planes =? h); [reflexivity|].
      rewrite numel_list_cons, numel_ConvBNReLU, numel_list_nil, Z.div_1_r.
      ring. }
    assert (Hdw : h * (h / h) * kernel_size * kernel_size
                  = h * kernel_size * kernel_size).
    { destruct (Z.eq_dec h 0) as [->|NZ]; [reflexivity|].
      rewrite Z.div_same by assumption; ring. }
    assert (Hg : numel_list se
                 = match
                     match se with
                     | [mkSqueezeExcitation
                          (Sequential (_ :: Conv2d _ rd _ _ _ _ _ :: _))] =>
                         Some rd
                     | _ => None
                     end
                   with
                   | Some rd => 2 * h * rd + rd + h
                   | None => 0
                   end).
    { destruct Hse as [(_ & rd & _ & ->) | (_ & ->)]; [|reflexivity].
      rewrite numel_list_cons, numel_list_nil, numel_SqueezeExcitation.
      cbn [SqueezeExcitation]; ring. }
    rewrite Hpw, Hdw, Hg; ring.
Qed.

(** X6.  The parameter count of a block is [block_numel] of its channel
    counts, its kernel size, its hidden dimension and, when
    [reduction_ratio != 1], the reduced dimension of its gate.  It does not
    depend on the stride or on [no_skip]: a block built from the same other
    arguments has as many parameters. *)
Theorem MBConvBlock_parameter_count
    (in_planes out_planes stride : Z) (expand_ratio : num)
    (kernel_size : Z) (reduction_ratio : num) (no_skip : bool) (b : module) :
  MBConvBlock in_planes out_planes stride expand_ratio kernel_size
              reduction_ratio no_skip = Ok b ->
  (exists hidden_dim reduced_dim,
     hidden_dim_of in_planes expand_ratio = Ok hidden_dim
     /\ (if py_ne_1 reduction_ratio
         then exists rd, reduced_dim_of in_planes reduction_ratio = Ok rd
                         /\ reduced_dim = Some rd
         else reduced_dim = None)
     /\ numel b
        = block_numel in_planes out_planes kernel_size hidden_dim reduced_dim)
  /\ (forall (stride' : Z) (no_skip' : bool) (b' : module),
        MBConvBlock in_planes out_planes stride' expand_ratio kernel_size
                    reduction_ratio no_skip' = Ok b' ->
        numel b' = numel b).
Proof.
  intros E; split; [exact (block_numel_eq _ _ _ _ _ _ _ _ E)|].
  intros stride' no_skip' b' E'.
  apply block_numel_eq in E, E'.
  destruct E as (h & rd & Hh & Hr & ->), E' as (h' & rd' & Hh' & Hr' & ->).
  assert (h' = h) by congruence; subst h'.
  destruct (py_ne_1 reduction_ratio).
  - destruct Hr as (x & Hx & ->), Hr' as (x' & Hx' & ->).
    assert (x' = x) by congruence; subst x'; reflexivity.
  - subst; reflexivity.
Qed.

Lemma MBConvBlock_parameter_count_witness :
  MBConvBlock 24 40 2 (PyInt 3) 5 (PyInt 4) default_no_skip = Ok gated_block /\
  (exists hidden_dim reduced_dim,
     hidden_dim_of 24 (PyInt 3) = Ok hidden_dim
     /\ (if py_ne_1 (PyInt 4)
         then exists rd, reduced_dim_of 24 (PyInt 4) = Ok rd
                         /\ reduced_dim = Some rd
         else reduced_dim = None)
     /\ numel gated_block = block_numel 24 40 5 hidden_dim reduced_dim)
  /\ (forall (stride' : Z) (no_skip' : bool) (b' : module),
        MBConvBlock 24 40 stride' (PyInt 3) 5 (PyInt 4) no_skip' = Ok b' ->
        numel b' = numel gated_block).
Proof.
  split; [reflexivity|].
  apply (MBConvBlock_parameter_count 24 40 2 (PyInt 3) 5 (PyInt 4)
           default_no_skip gated_block).
  reflexivity.
Defined.

(** The block [MBConvBlock(24, 40, 2, 3, kernel_size=5, reduction_ratio=4)]
    has hidden dimension 72 and reduced dimension 6. *)
Example gated_block_numel :
  numel gated_block = block_numel 24 40 5 72 (Some 6)
  /\ numel gated_block = 7718.
Proof. split; reflexivity. Qed.

(** X7.  The class count reaches the last layer only: two networks of
    the same width multiplier have the same [features], whether one is
    built does not depend on the class count, and each further class adds
    the 1281 parameters of one row of the classifier. *)
Theorem MnasNetA1_numel_classes
    (width_mult : float) (nc1 nc2 : Z) (net1 : module) :
  0 <= nc1 -> 0 <= nc2 ->
  MnasNetA1 width_mult nc1 = Ok net1 ->
  exists net2,
    MnasNetA1 width_mult nc2 = Ok net2
    /\ features net2 = features net1
    /\ numel net2 = numel net1 + 1281 * (nc2 - nc1).
Proof.
  intros _ _ E; unfold MnasNetA1 in *.
  destruct (scaled 32 width_mult) as [c0|]; [|discriminate E].
  cbn [bind] in *.
  destruct (foldM _ _ _) as [[fs ic]|]; [|discriminate E].
  cbn [bind] in *; injection E as <-.
  eexists; split; [reflexivity|]; split; [reflexivity|].
  rewrite !numel_MnasNetA1.
  unfold numel at 3 6; cbn [parameters flat_map app map sum fold_right
                            tensor_numel].
  ring.
Qed.

Lemma MnasNetA1_numel_classes_witness :
  MnasNetA1 default_width_mult default_num_classes = Ok canonical_net /\
  exists net2,
    MnasNetA1 default_width_mult 10 = Ok net2
    /\ features net2 = features canonical_net
    /\ numel net2 = numel canonical_net + 1281 * (10 - default_num_classes).
Proof.
  split; [reflexivity|].
  apply (MnasNetA1_numel_classes default_width_mult default_num_classes 10
           canonical_net); [discriminate | discriminate | reflexivity].
Defined.

(** ** The blocks of the network, stage by stage *)

(** The layers of [self.conv] of a block called with integer ratios. *)
Lemma run_call_layers (c : block_call) (b : module) :
  run_call c = Ok b ->
  exists se,
    children (conv b)
    = (if call_in_planes c =? call_in_planes c * call_expand_ratio c then []
       else [ConvBNReLU (call_in_planes c)
                        (call_in_planes c * call_expand_ratio c) 1 1 1])
      ++ ConvBNReLU (call_in_planes c * call_expand_ratio c)
                    (call_in_planes c * call_expand_ratio c)
                    (call_kernel_size c) (call_stride c)
                    (call_in_planes c * call_expand_ratio c)
      :: se
      ++ [Conv2d (call_in_planes c * call_expand_ratio c) (call_out_planes c)
                 1 1 0 1 false;
          BatchNorm2d (call_out_planes c)]
    /\ (call_reduction_ratio c = 1 -> se = [])
    /\ (call_reduction_ratio c <> 1 ->
        exists rd,
          reduced_dim_of (call_in_planes c) (PyInt (call_reduction_ratio c))
          = Ok rd
          /\ se = [SqueezeExcitation
                     (call_in_planes c * call_expand_ratio c) rd]).
Proof.
  destruct c as [i o s t k r ns]; unfold run_call;
    cbn [call_in_planes call_out_planes call_stride call_expand_ratio
         call_kernel_size call_reduction_ratio call_no_skip].
  intros E; apply MBConvBlock_Ok_inv in E.
  destruct E as (_ & _ & h & se & Hh & Hse & ->).
  cbn in Hh; injection Hh as <-.
  exists se; split; [reflexivity|]; split.
  - intros ->; destruct Hse as [(Hne & _) | (_ & ->)];
      [discriminate Hne | reflexivity].
  - intros Hr; destruct Hse as [(_ & rd & Hrd & ->) | (Hne & _)].
    + exists rd; split; [exact Hrd | reflexivity].
    + cbn [py_ne_1] in Hne; apply negb_false_iff, Z.eqb_eq in Hne.
      contradiction.
Qed.

Lemma nth_error_cons_inv {A : Type} (a : A) (l : list A) (n : nat) (x : A) :
  nth_error (a :: l) n = Some x ->
  (n = 0%nat /\ x = a) \/ (exists n', n = S n' /\ nth_error l n' = Some x).
Proof.
  destruct n as [|n]; cbn [nth_error]; intros E.
  - left; split; congruence.
  - right; exists n; split; [reflexivity | exact E].
Qed.

Lemma nth_error_nil_inv {A : Type} (n : nat) (x : A) :
  nth_error [] n = Some x -> False.
Proof. destruct n; discriminate. Qed.

(** Enumerates the positions of a list that is known. *)
Ltac split_nth :=
  repeat match goal with
         | H : nth_error (_ :: _) _ = Some _ |- _ =>
             apply nth_error_cons_inv in H;
             destruct H as [[-> ->] | (? & -> & H)]
         | H : nth_error [] _ = Some _ |- _ =>
             destruct (nth_error_nil_inv _ _ H)
         end.



(** With the default width multiplier 9 of the 16 blocks add the
    shortcut. *)
Example canonical_residual_count :
  length (filter use_residual (children canonical_features)) = 9%nat.
Proof. reflexivity. Qed.

(** X9.  The blocks of a network with positive channel counts, stage by
    stage: the seven stages hold 1, 2, 3, 4, 2, 3 and 1 blocks; [self.conv]
    of a block has 3 layers in stage 0 (expansion ratio 1: no pointwise
    expansion), 4 in stages 1, 3 and 6, and 5 in stages 2, 4 and 5, which
    are the stages with a squeeze-excitation gate; its depthwise
    convolution works on [t] times the input channels with the kernel size
    of its row, and with the stride of the row in the first block of a
    stage and stride 1 in the others. *)
Theorem MnasNetA1_stage_anatomy
    (width_mult : float) (num_classes : Z) (net : module) :
  MnasNetA1 width_mult num_classes = Ok net ->
  Forall (fun c => exists z, scaled c width_mult = Ok z /\ 0 < z)
         [32; 16; 24; 40; 80; 112; 160; 320] ->
  exists stem stages head,
    children (features net) = stem :: concat stages ++ [head] /\
    map (@length module) stages = [1; 2; 3; 4; 2; 3; 1]%nat /\
    forall (i j : nat) (blocks : list module) (b : module),
      nth_error stages i = Some blocks -> nth_error blocks j = Some b ->
      length (children (conv b)) = nth i [3; 4; 5; 4; 5; 5; 4]%nat 0%nat /\
      existsb is_squeeze_excitation (children (conv b))
      = nth i [false; false; true; false; true; true; false] false /\
      exists in_channels stride,
        in_channels_of b = Some in_channels /\
        stride = (if (j =? 0)%nat then nth i [1; 2; 2; 2; 1; 2; 1] 0 else 1) /\
        let hidden_dim := in_channels * nth i [1; 6; 3; 6; 6; 6; 6] 0 in
        In (ConvBNReLU hidden_dim hidden_dim (nth i [3; 3; 5; 3; 3; 5; 3] 0)
                       stride hidden_dim)
           (children (conv b)).
Proof.
  intros E Hpos.
  apply MnasNetA1_blocks in E.
  destruct E as (c0 & c1 & c2 & c3 & c4 & c5 & c6 & c7 & stages
                 & H0 & H1 & H2 & H3 & H4 & H5 & H6 & H7 & Hs & ->).
  repeat match goal with
         | H : Forall _ (_ :: _) |- _ => inversion H; subst; clear H
         end.
  repeat match goal with
         | H : exists z, scaled _ _ = Ok z /\ _ |- _ =>
             let z := fresh "z" in
             let Hz := fresh "Hz" in
             let Hp := fresh "Hp" in
             destruct H as (z & Hz & Hp);
             first [ rewrite H0 in Hz | rewrite H1 in Hz | rewrite H2 in Hz
                   | rewrite H3 in Hz | rewrite H4 in Hz | rewrite H5 in Hz
                   | rewrite H6 in Hz | rewrite H7 in Hz ];
             injection Hz as <-
         end.
  unroll_stage_calls Hs.
  inv_Forall2.
  eexists; eexists; eexists.
  split; [reflexivity|]; split; [reflexivity|].
  repeat match goal with
         | H : run_call _ = Ok ?b |- _ =>
             let Hl := fresh "Hl" in
             let Hc := fresh "Hc" in
             let se := fresh "se" in
             let Hse1 := fresh "Hse" in
             let Hse2 := fresh "Hse" in
             pose proof (run_call_layers _ _ H) as (se & Hl & Hse1 & Hse2);
             pose proof (proj1 (run_call_channels _ _ H)) as Hc;
             cbn [call_in_planes call_out_planes call_stride call_no_skip
                  call_expand_ratio call_kernel_size call_reduction_ratio]
               in Hl, Hc, Hse1, Hse2;
             first [ specialize (Hse1 eq_refl); subst se
                   | destruct (Hse2 ltac:(discriminate)) as (? & _ & ->) ];
             clear H
         end.
  intros i j blocks b Hn Hb.
  split_nth; split_nth.
  all: match goal with
       | Hl : children (conv ?b) = _, Hc : in_channels_of ?b = _
         |- context [conv ?b] =>
           rewrite Hl; rewrite ?Z.mul_1_r, ?Z.eqb_refl;
           repeat match goal with
                  | |- context [?x =? ?x * ?t] =>
                      replace (x =? x * t) with false
                        by (symmetry; apply Z.eqb_neq; lia)
                  end;
           (split; [reflexivity|]); (split; [reflexivity|]);
           eexists; eexists; (split; [exact Hc|]); (split; [reflexivity|]);
           cbn [nth Nat.eqb]; cbv zeta; rewrite ?Z.mul_1_r;
           cbn [app In]; auto
       end.
Qed.

Lemma MnasNetA1_stage_anatomy_witness :
  MnasNetA1 default_width_mult default_num_classes = Ok canonical_net /\
  exists stem stages head,
    children (features canonical_net) = stem :: concat stages ++ [head] /\
    map (@length module) stages = [1; 2; 3; 4; 2; 3; 1]%nat /\
    forall (i j : nat) (blocks : list module) (b : module),
      nth_error stages i = Some blocks -> nth_error blocks j = Some b ->
      length (children (conv b)) = nth i [3; 4; 5; 4; 5; 5; 4]%nat 0%nat /\
      existsb is_squeeze_excitation (children (conv b))
      = nth i [false; false; true; false; true; true; false] false /\
      exists in_channels stride,
        in_channels_of b = Some in_channels /\
        stride = (if (j =? 0)%nat then nth i [1; 2; 2; 2; 1; 2; 1] 0 else 1) /\
        let hidden_dim := in_channels * nth i [1; 6; 3; 6; 6; 6; 6] 0 in
        In (ConvBNReLU hidden_dim hidden_dim (nth i [3; 3; 5; 3; 3; 5; 3] 0)
                       stride hidden_dim)
           (children (conv b)).
Proof.
  split; [reflexivity|].
  apply (MnasNetA1_stage_anatomy default_width_mult default_num_classes
           canonical_net); [reflexivity|].
  repeat (constructor; [eexists; split; [reflexivity | reflexivity]|]).
  constructor.
Defined.

(** ** Rounding without overflow *)

(** A quotient whose leading bit lies below [2 ^ emax] is rounded to a
    number. *)
Lemma binary_round_aux_number (s : bool) (m : Z) (l : location) (e E0 M D : Z) :
  0 <= M -> 0 < D -> E0 <= e -> E0 <= emin ->
  describes m l M (D * 2 ^ (e - E0)) ->
  e <= fexp prec emax (Zdigits2 m + e) ->
  Zdigits2 m + e < emax ->
  is_number (binary_round_aux prec emax s m e l) = true.
Proof.
  intros HM HD HE0 HEm Hdesc Hpre Hsmall.
  assert (Hprec : prec = 53) by reflexivity.
  assert (Hemin : emin = -1074) by reflexivity.
  assert (Hemax : emax = 1024) by reflexivity.
  pose proof (pow2_pos (e - E0) ltac:(lia)) as HP.
  pose proof (grid_exponent_shift m e E0 M D HM HD HE0 HEm (proj1 Hdesc) Hpre)
    as HK.
  pose proof (round_quotient_bound E0 D M HM HD HEm) as Hm1.
  set (K := grid_exponent E0 D M) in *.
  set (F := fexp prec emax (Zdigits2 m + e)) in *.
  assert (HF : emin <= F) by (unfold F; rewrite fexp_eq; lia).
  assert (HFs : F + 1 <= emax - prec) by (unfold F; rewrite fexp_eq; lia).
  unfold binary_round_aux, shr_fexp; fold F.
  pose proof (shr_describes (shr_record_of_loc m l) e (F - e) M
                (D * 2 ^ (e - E0)) HM ltac:(nia)
                (record_of_loc_describes _ _ _ _ Hdesc)) as [Hd1 He1].
  destruct (shr (shr_record_of_loc m l) e (F - e)) as [mrs1 e1].
  cbn [fst snd] in Hd1, He1.
  replace (Z.max 0 (F - e)) with (F - e) in * by lia.
  replace (e + (F - e)) with F in He1 by lia; subst e1.
  replace (2 ^ (F - e) * (D * 2 ^ (e - E0))) with (D * 2 ^ K) in Hd1.
  2: { replace K with ((F - e) + (e - E0)) by lia.
       rewrite Z.pow_add_r by lia; ring. }
  assert (HKn : 0 <= K) by lia.
  pose proof (pow2_pos K HKn) as HPK.
  rewrite (round_nearest_even_rne _ _ M (D * 2 ^ K)) by (try nia; exact Hd1).
  set (m1 := rne M (D * 2 ^ K)) in *.
  assert (Hself : record_describes (shr_record_of_loc m1 loc_Exact) m1 1).
  { apply record_of_loc_describes; split;
      [rewrite Z.div_1_r; reflexivity | rewrite Z.mod_1_r; reflexivity]. }
  pose proof (shr_describes (shr_record_of_loc m1 loc_Exact) F
                (fexp prec emax (Zdigits2 m1 + F) - F) m1 1
                ltac:(lia) ltac:(lia) Hself) as [Hd2 He2].
  destruct (shr (shr_record_of_loc m1 loc_Exact) F
              (fexp prec emax (Zdigits2 m1 + F) - F)) as [mrs2 e2].
  cbn [fst snd] in Hd2, He2.
  destruct Hd2 as [Hm2 _]; rewrite Z.mul_1_r in Hm2.
  rewrite fexp_eq in He2, Hm2.
  assert (He2' : e2 <= emax - prec).
  { destruct (Z.eq_dec m1 (2 ^ prec)) as [Etop|Ntop].
    - assert (Hdig : Zdigits2 m1 = 54) by (rewrite Etop; reflexivity).
      rewrite Hdig in *; lia.
    - assert (Hdig : Zdigits2 m1 <= prec) by (apply Zdigits2_le; lia).
      lia. }
  assert (Hm2n : 0 <= shr_m mrs2).
  { rewrite Hm2; apply Z.div_pos; [lia | apply pow2_pos; lia]. }
  apply Z.leb_le in He2'.
  destruct (shr_m mrs2); [reflexivity | rewrite He2'; reflexivity | lia].
Qed.

Lemma int_of_float_number (f : pyfloat) :
  is_number f = true -> exists z, int_of_float f = Ok z.
Proof.
  destruct f; try discriminate; intros _; cbn [int_of_float]; eexists;
    reflexivity.
Qed.

Lemma Zdigits2_scaled_le (q k n : Z) :
  0 <= q -> 0 <= k -> 0 <= n - k -> q * 2 ^ k < 2 ^ n -> Zdigits2 q + k <= n.
Proof.
  intros Hq Hk Hn Hlt.
  destruct (Z.eq_dec q 0) as [->|NZ]; [cbn [Zdigits2]; lia|].
  pose proof (Zdigits2_bounds q ltac:(lia)) as [Hlo _].
  pose proof (Zdigits2_ge q 0 ltac:(lia) ltac:(cbn; lia)) as Hd.
  pose proof (pow2_pos k Hk) as HP.
  assert (H2 : 2 ^ (Zdigits2 q - 1 + k) < 2 ^ n).
  { rewrite Z.pow_add_r by lia. nia. }
  apply Z.pow_lt_mono_r_iff in H2; lia.
Qed.

(** The quotient of two integers is a float unless it is too large: below
    [2 ^ (emax - 1)] in magnitude it always is. *)
Lemma int_true_divide_number (a b : Z) :
  b <> 0 -> Z.abs a < Z.abs b * 2 ^ (emax - 1) ->
  exists f, int_true_divide a b = Ok f /\ is_number f = true.
Proof.
  intros Hb0 Ha.
  assert (Hprec : prec = 53) by reflexivity.
  assert (Hemin : emin = -1074) by reflexivity.
  assert (Hemax : emax = 1024) by reflexivity.
  unfold int_true_divide.
  replace (b =? 0) with false by (symmetry; apply Z.eqb_neq; lia).
  destruct (Z.eqb_spec a 0) as [->|Na].
  { eexists; split; reflexivity. }
  generalize (xorb (a <? 0) (b <? 0)); intros sg.
  assert (Hb : 0 < Z.abs b) by lia.
  revert Ha Hb; generalize (Z.abs b); clear b Hb0; intros b Ha Hb.
  pose proof (SFdiv_core_binary_describes (Z.abs a) b ltac:(lia) Hb) as Hd.
  destruct (SFdiv_core_binary prec emax (Z.abs a) 0 b 0) as [[q e] l].
  destruct Hd as (He & Hd & Hpre).
  pose proof (pow2_pos (- emin) ltac:(lia)) as HP.
  pose proof (pow2_pos (e - emin) ltac:(lia)) as HPe.
  assert (Hqeq : q = Z.abs a * 2 ^ (- emin) / (b * 2 ^ (e - emin)))
    by exact (proj1 Hd).
  assert (Hq0 : 0 <= q) by (rewrite Hqeq; apply Z.div_pos; nia).
  assert (Hsmall : Zdigits2 q + e < emax).
  { destruct (Z.eq_dec q 0) as [->|NZ].
    - cbn [Zdigits2] in *; rewrite fexp_eq in Hpre; lia.
    - assert (Hqb : q * (b * 2 ^ (e - emin)) <= Z.abs a * 2 ^ (- emin)).
      { pose proof (Z.mul_div_le (Z.abs a * 2 ^ (- emin))
                      (b * 2 ^ (e - emin)) ltac:(nia)) as Hle.
        rewrite <- Hqeq in Hle; lia. }
      assert (Hlt : q * 2 ^ (e - emin) < 2 ^ (emax - 1 - emin)).
      { replace (emax - 1 - emin) with ((emax - 1) + (- emin)) by lia.
        rewrite Z.pow_add_r by lia.
        pose proof (pow2_pos (emax - 1) ltac:(lia)).
        nia. }
      destruct (Z_lt_le_dec (emax - 1 - emin) (e - emin)) as [Hbig|Hok].
      + exfalso.
        assert (2 ^ (emax - 1 - emin) <= 2 ^ (e - emin))
          by (apply Z.pow_le_mono_r; lia).
        nia.
      + pose proof (Zdigits2_scaled_le q (e - emin) (emax - 1 - emin)
                      Hq0 ltac:(lia) ltac:(lia) Hlt).
        lia. }
  pose proof (binary_round_aux_number sg q l e emin
                (Z.abs a * 2 ^ (- emin)) b ltac:(nia) Hb He ltac:(lia) Hd Hpre
                Hsmall) as Hn.
  destruct (binary_round_aux prec emax sg q e l);
    try discriminate Hn; eexists; split; reflexivity.
Qed.

Lemma rne_up (N D : Z) : 0 < D -> rne N D = N / D + 1 -> D <= 2 * (N mod D).
Proof.
  intros HD; unfold rne.
  destruct (Z.compare_spec (2 * (N mod D)) D) as [E|E|E]; lia.
Qed.

(** Below [2 ^ 53] the rounded quotient of two positive integers has the
    integer part of the exact one. *)
Lemma round_units_floor (a r : Z) :
  0 < a < 2 ^ prec -> 0 < r ->
  round_units emin r (a * 2 ^ (- emin)) / 2 ^ (- emin) = a / r.
Proof.
  intros [Ha0 Ha] Hr.
  assert (Hprec : prec = 53) by reflexivity.
  assert (Hemin : emin = -1074) by reflexivity.
  set (n := - emin) in *.
  assert (Hn : n = 1074) by (unfold n; lia).
  pose proof (pow2_pos n ltac:(lia)) as HPn.
  set (M := a * 2 ^ n).
  assert (HM : 0 < M) by (unfold M; nia).
  set (k := a / r).
  assert (Hk : r * k <= a < r * (k + 1)).
  { unfold k; pose proof (Z.div_mod a r ltac:(lia)).
    pose proof (Z.mod_pos_bound a r Hr). nia. }
  assert (Hk0 : 0 <= k) by (unfold k; apply Z.div_pos; lia).
  unfold round_units.
  set (K := grid_exponent emin r M).
  assert (HK0 : 0 <= K) by (apply grid_exponent_nonneg; lia).
  assert (HQr : 0 <= M / r) by (apply Z.div_pos; lia).
  assert (HMlt : M < 2 ^ (n + prec)).
  { rewrite Z.pow_add_r by lia. unfold M. nia. }
  assert (HKn : K <= n).
  { unfold K, grid_exponent.
    assert (Zdigits2 (M / r) <= n + prec).
    { apply Zdigits2_le; [assumption | lia |].
      apply Z.le_lt_trans with M; [|assumption].
      apply Z.div_le_upper_bound; nia. }
    lia. }
  set (j := n - K).
  pose proof (pow2_pos K HK0) as HPK.
  pose proof (pow2_pos j ltac:(unfold j; lia)) as HPj.
  assert (Hjn : 2 ^ n = 2 ^ j * 2 ^ K).
  { rewrite <- Z.pow_add_r by (unfold j; lia). f_equal; unfold j; lia. }
  set (DK := r * 2 ^ K).
  assert (HDK : 0 < DK) by (unfold DK; nia).
  pose proof (rne_bounds M DK HDK) as Hb.
  set (Q := M / DK) in *.
  set (m1 := rne M DK) in *.
  assert (HQlo : k * 2 ^ j <= Q).
  { unfold Q; apply Z.div_le_lower_bound; [assumption|].
    unfold DK, M; rewrite Hjn. nia. }
  assert (HQhi : Q < (k + 1) * 2 ^ j).
  { unfold Q; apply Z.div_lt_upper_bound; [assumption|].
    unfold DK, M; rewrite Hjn. nia. }
  assert (Hm1 : m1 < (k + 1) * 2 ^ j).
  { destruct (Z_lt_le_dec m1 ((k + 1) * 2 ^ j)) as [|Hge]; [assumption|].
    exfalso.
    assert (Eq1 : m1 = Q + 1) by lia.
    assert (EQ : Q = (k + 1) * 2 ^ j - 1) by lia.
    pose proof (rne_up M DK HDK Eq1) as Hup.
    pose proof (Z.div_mod M DK ltac:(lia)) as Hdm; fold Q in Hdm.
    (* the divisor is huge *)
    assert (Hbig : 2 * 2 ^ n <= DK).
    { assert (H1 : 2 * M >= (2 * Q + 1) * DK) by lia.
      assert (H2 : DK * (2 * ((k + 1) * 2 ^ j)) = 2 * (r * (k + 1)) * 2 ^ n)
        by (unfold DK; rewrite Hjn; ring).
      assert (H3 : (2 * Q + 1) * DK = DK * (2 * ((k + 1) * 2 ^ j)) - DK)
        by (rewrite EQ; ring).
      assert (H4 : 0 <= (r * (k + 1) - 1 - a) * 2 ^ n)
        by (apply Z.mul_nonneg_nonneg; lia).
      unfold M in H1; lia. }
    (* so the quotient is small *)
    pose proof (pow2_pos (prec - 1) ltac:(lia)) as HP52.
    assert (Hsmall : M / r < 2 ^ (prec - 1 + K)).
    { apply Z.div_lt_upper_bound; [assumption|].
      rewrite Z.pow_add_r by lia.
      assert (2 ^ prec = 2 * 2 ^ (prec - 1)).
      { replace prec with (1 + (prec - 1)) at 1 by lia.
        rewrite Z.pow_add_r by lia; reflexivity. }
      unfold DK in Hbig. unfold M. nia. }
    (* but it fills the grid *)
    assert (Hfull : 2 ^ (prec - 1 + K) <= M / r).
    { destruct (Z.eq_dec K 0) as [K0|KN].
      - assert (Ej : j = n) by (unfold j; lia).
        assert (EQr : M / r = Q).
        { unfold Q, DK; rewrite K0, Z.pow_0_r, Z.mul_1_r; reflexivity. }
        rewrite EQr, EQ, K0, Z.add_0_r, Ej.
        assert (2 * 2 ^ (prec - 1) <= 2 ^ n).
        { replace n with ((n - prec) + 1 + (prec - 1)) by lia.
          rewrite !Z.pow_add_r by lia.
          pose proof (pow2_pos (n - prec) ltac:(lia)).
          change (2 ^ 1) with 2. nia. }
        nia.
      - assert (EK : K = Zdigits2 (M / r) - prec)
          by (unfold K, grid_exponent in *; lia).
        assert (HQpos : 0 < M / r).
        { destruct (Z.eq_dec (M / r) 0) as [Z0|]; [|lia].
          rewrite Z0 in EK; cbn [Zdigits2] in EK; lia. }
        pose proof (Zdigits2_bounds (M / r) HQpos) as [Hlo _].
        replace (prec - 1 + K) with (Zdigits2 (M / r) - 1) by lia.
        exact Hlo. }
    lia. }
  symmetry; apply Z.div_unique with (m1 * 2 ^ K - k * 2 ^ n); [|ring].
  left; split.
  - assert (0 <= (m1 - k * 2 ^ j) * 2 ^ K)
      by (apply Z.mul_nonneg_nonneg; lia).
    rewrite Hjn; lia.
  - assert (0 <= ((k + 1) * 2 ^ j - m1 - 1) * 2 ^ K)
      by (apply Z.mul_nonneg_nonneg; lia).
    rewrite Hjn; lia.
Qed.

(** ** The reduced dimension is a floor division *)

(** [max(1, int(in_planes / r))] for a channel count below [2 ^ 53]:
    the true division rounds, but never up to the next integer. *)
Lemma reduced_dim_of_floor (in_planes r : Z) :
  0 <= in_planes < 2 ^ prec -> 0 < r ->
  reduced_dim_of in_planes (PyInt r) = Ok (Z.max 1 (in_planes / r)).
Proof.
  intros [H0 Hlt] Hr.
  assert (Hprec : prec = 53) by reflexivity.
  assert (Hemax : emax = 1024) by reflexivity.
  assert (Hsmall : Z.abs in_planes < r * 2 ^ (emax - 1)).
  { rewrite Z.abs_eq by lia.
    apply Z.lt_le_trans with (1 * 2 ^ prec); [lia|].
    apply Z.mul_le_mono_nonneg; try lia.
    apply Z.pow_le_mono_r; lia. }
  rewrite <- (Z.abs_eq r) in Hsmall at 1 by lia.
  destruct (int_true_divide_number in_planes r ltac:(lia) Hsmall)
    as (f & Hf & Hnum).
  destruct (int_of_float_number f Hnum) as (z & Hz).
  unfold reduced_dim_of, py_truediv.
  rewrite Hf; cbn [bind py_int]; rewrite Hz; cbn [bind].
  do 2 f_equal.
  destruct (Z.eq_dec in_planes 0) as [->|NZ].
  - unfold int_true_divide in Hf.
    replace (r =? 0) with false in Hf by (symmetry; apply Z.eqb_neq; lia).
    cbn [Z.eqb] in Hf; injection Hf as <-.
    injection Hz as <-; reflexivity.
  - rewrite (int_true_divide_trunc in_planes r f z ltac:(lia) Hr Hf Hz).
    apply round_units_floor; lia.
Qed.

(** X10.  For a channel count [0 <= in_planes < 2 ^ 53] and an integer
    reduction ratio [r > 1], the reduced dimension
    [max(1, int(in_planes / r))] is [max(1, in_planes // r)]: the float
    quotient, although rounded, has the integer part of the exact one, and
    the conversion never fails.  The gate of the block is built with this
    reduced dimension, on the hidden dimension. *)
Theorem MBConvBlock_reduced_dim_floor
    (in_planes out_planes stride : Z) (expand_ratio : num)
    (kernel_size r : Z) (no_skip : bool) (b : module) :
  MBConvBlock in_planes out_planes stride expand_ratio kernel_size
              (PyInt r) no_skip = Ok b ->
  0 <= in_planes < 2 ^ 53 -> 1 < r ->
  reduced_dim_of in_planes (PyInt r) = Ok (Z.max 1 (in_planes / r))
  /\ exists hidden_dim,
       hidden_dim_of in_planes expand_ratio = Ok hidden_dim
       /\ filter is_squeeze_excitation (children (conv b))
          = [SqueezeExcitation hidden_dim (Z.max 1 (in_planes / r))].
Proof.
  intros E Hi Hr.
  pose proof (reduced_dim_of_floor in_planes r Hi ltac:(lia)) as Hrd.
  split; [exact Hrd|].
  apply MBConvBlock_Ok_inv in E.
  destruct E as (_ & _ & h & se & Hh & Hse & ->).
  exists h; split; [exact Hh|].
  destruct Hse as [(_ & rd & Hrd' & ->) | (Hne & _)].
  - rewrite Hrd in Hrd'; injection Hrd' as <-.
    cbn [conv children].
    rewrite filter_app.
    replace (filter is_squeeze_excitation
               (if in_planes =? h then []
                else [ConvBNReLU in_planes h 1 1 1])) with (@nil module)
      by (destruct (in_planes =? h); reflexivity).
    reflexivity.
  - cbn [py_ne_1] in Hne; apply negb_false_iff, Z.eqb_eq in Hne; lia.
Qed.

Lemma MBConvBlock_reduced_dim_floor_witness :
  MBConvBlock 24 40 2 (PyInt 3) 5 (PyInt 4) default_no_skip = Ok gated_block /\
  reduced_dim_of 24 (PyInt 4) = Ok (Z.max 1 (24 / 4))
  /\ exists hidden_dim,
       hidden_dim_of 24 (PyInt 3) = Ok hidden_dim
       /\ filter is_squeeze_excitation (children (conv gated_block))
          = [SqueezeExcitation hidden_dim (Z.max 1 (24 / 4))].
Proof.
  split; [reflexivity|].
  apply (MBConvBlock_reduced_dim_floor 24 40 2 (PyInt 3) 5 4 default_no_skip
           gated_block); [reflexivity | lia | lia].
Defined.

(** Beyond [2 ^ 53] the rounded quotient can reach the next integer:
    [int(2 ** 60 / (2 ** 60 + 1))] is 1, not 0. *)
Example reduced_dim_beyond_53_bits :
  (q <- py_truediv (PyInt (2 ^ 60)) (PyInt (2 ^ 60 + 1)) ;; py_int q) = Ok 1
  /\ 2 ^ 60 / (2 ^ 60 + 1) = 0.
Proof. split; reflexivity. Qed.

(** ** What the constructor of the network can raise *)


Lemma valid_finite_exponent (s : bool) (m : positive) (e : Z) :
  valid_binary (S754_finite s m e) = true -> e <= emax - prec.
Proof.
  cbn [SpecFloat.valid_binary]; unfold bounded.
  rewrite andb_true_iff, Z.leb_le; tauto.
Qed.

(** [int()] of a binary64 number is below [2 ^ 1024] in magnitude. *)
Lemma int_of_float_valid_bound (f : pyfloat) (z : Z) :
  valid_binary f = true -> int_of_float f = Ok z -> Z.abs z < 2 ^ emax.
Proof.
  intros Hv Hz.
  assert (Hprec : prec = 53) by reflexivity.
  assert (Hemax : emax = 1024) by reflexivity.
  pose proof (pow2_pos emax ltac:(lia)) as HP.
  destruct f as [s|s| |s m e]; try discriminate Hz.
  - injection Hz as <-; cbn [Z.abs]; lia.
  - pose proof (valid_finite s m e Hv) as (_ & Hm & _).
    pose proof (valid_finite_exponent s m e Hv) as He.
    rewrite int_of_float_finite in Hz; apply Ok_inj in Hz; subst z.
    assert (Ha : 0 <= (if e <? 0 then Z.pos m / 2 ^ (- e)
                       else Z.pos m * 2 ^ e) < 2 ^ emax).
    { destruct (Z.ltb_spec e 0) as [Hneg|Hpos].
      - pose proof (pow2_pos (- e) ltac:(lia)).
        split; [apply Z.div_pos; lia|].
        apply Z.le_lt_trans with (Z.pos m); [apply Z.div_le_upper_bound; nia|].
        apply Z.lt_trans with (2 ^ prec); [lia|].
        apply Z.pow_lt_mono_r; lia.
      - pose proof (pow2_pos e Hpos).
        split; [nia|].
        apply Z.lt_le_trans with (2 ^ prec * 2 ^ e); [nia|].
        rewrite <- Z.pow_add_r by lia.
        apply Z.pow_le_mono_r; lia. }
    cbv zeta; destruct s; lia.
Qed.

(** What [int(c * width_mult)] does, for a constant [c] whose float is
    normal: it fails exactly on a product that is not a number. *)
Lemma scaled_outcome (c : Z) (q : float) (mk : positive) (ek : Z) (w : float) :
  float_of_int c = Ok (Prim2SF q) ->
  Prim2SF q = S754_finite false mk ek ->
  2 ^ (prec - 1) <= Z.pos mk -> ek <= 0 ->
  match scaled c w with
  | Ok z => Z.abs z < 2 ^ emax
  | Raise e =>
      (e = ValueError /\ Prim2SF w = S754_nan)
      \/ (e = OverflowError /\ Prim2SF w <> S754_nan)
  end.
Proof.
  intros Hc Hq Hmk Hek.
  unfold scaled, of_float, py_mul; rewrite Hc; cbn [bind py_int].
  pose proof (Prim2SF_valid (q * w)) as Hv; rewrite mul_spec in Hv.
  destruct (int_of_float (SF64mul (Prim2SF q) (Prim2SF w))) as [z|e] eqn:Ez.
  - eapply int_of_float_valid_bound; eassumption.
  - rewrite Hq in Ez.
    pose proof (Prim2SF_valid w) as Hw.
    destruct (Prim2SF w) as [sw|sw| |sw mw ew] eqn:Ew.
    + discriminate Ez.
    + cbn in Ez; injection Ez as <-; right; split; [reflexivity|discriminate].
    + cbn in Ez; injection Ez as <-; left; split; reflexivity.
    + pose proof (valid_finite sw mw ew Hw) as (Hew & _).
      pose proof (SF64mul_rounds mk mw ek ew sw Hmk Hek Hew) as Hr.
      destruct (SF64mul (S754_finite false mk ek) (S754_finite sw mw ew));
        cbn [rounds_to] in Hr; try discriminate Ez; try contradiction.
      cbn in Ez; injection Ez as <-; right; split; [reflexivity|discriminate].
Qed.

Lemma scaled_nan (c : Z) (q : float) (mk : positive) (ek : Z) (w : float) :
  float_of_int c = Ok (Prim2SF q) ->
  Prim2SF q = S754_finite false mk ek ->
  Prim2SF w = S754_nan -> scaled c w = Raise ValueError.
Proof.
  intros Hc Hq Hw.
  unfold scaled, of_float, py_mul; rewrite Hc, Hq, Hw; reflexivity.
Qed.

(** ** The calls succeed *)

Lemma run_call_total (c : block_call) :
  In (call_stride c) [1; 2] -> In (call_kernel_size c) [3; 5] ->
  call_reduction_ratio c = 1
  \/ (2 <= call_reduction_ratio c /\ Z.abs (call_in_planes c) < 2 ^ emax) ->
  exists b, run_call c = Ok b.
Proof.
  destruct c as [i o s t k r ns]; unfold run_call;
    cbn [call_in_planes call_out_planes call_stride call_expand_ratio
         call_kernel_size call_reduction_ratio call_no_skip].
  intros Hs Hk Hr.
  unfold MBConvBlock.
  apply in_list_In in Hs, Hk; rewrite Hs, Hk; cbn [assert_ bind].
  unfold MBConvBlock_layers, hidden_dim_of; cbn [py_mul bind py_int py_ne_1].
  destruct Hr as [->|[Hr Hi]].
  - cbn [Z.eqb Pos.eqb negb bind]; eexists; reflexivity.
  - replace (r =? 1) with false by (symmetry; apply Z.eqb_neq; lia).
    cbn [negb].
    assert (Hemax : emax = 1024) by reflexivity.
    assert (Hsmall : Z.abs i < r * 2 ^ (emax - 1)).
    { replace emax with (1 + (emax - 1)) in Hi by lia.
      rewrite Z.pow_add_r in Hi by lia.
      pose proof (pow2_pos (emax - 1) ltac:(lia)).
      change (2 ^ 1) with 2 in Hi; nia. }
    rewrite <- (Z.abs_eq r) in Hsmall at 1 by lia.
    destruct (int_true_divide_number i r ltac:(lia) Hsmall) as (f & Hf & Hn).
    destruct (int_of_float_number f Hn) as (z & Hz).
    unfold reduced_dim_of, py_truediv; rewrite Hf; cbn [bind py_int].
    rewrite Hz; cbn [bind]; eexists; reflexivity.
Qed.

Lemma repeat_loop_total (out_channels s t k r : Z) (no_skip : bool)
    (js : list nat) :
  In s [1; 2] -> In k [3; 5] -> r = 1 \/ 2 <= r ->
  Z.abs out_channels < 2 ^ emax ->
  forall (fs : list module) (in_channels : Z),
    Z.abs in_channels < 2 ^ emax ->
    exists fs' in_channels',
      foldM (repeat_body out_channels s t k r no_skip) js (fs, in_channels)
      = Ok (fs', in_channels')
      /\ Z.abs in_channels' < 2 ^ emax.
Proof.
  intros Hs Hk Hr Ho.
  induction js as [|j js IH]; intros fs i Hi.
  - exists fs, i; split; [reflexivity | assumption].
  - cbn [foldM]; unfold repeat_body at 1.
    destruct (run_call_total
                {| call_in_planes := i; call_out_planes := out_channels;
                   call_stride := if (j =? 0)%nat then s else 1;
                   call_expand_ratio := t; call_kernel_size := k;
                   call_reduction_ratio := r; call_no_skip := no_skip |})
      as (b & Hb).
    + cbn [call_stride]; destruct (j =? 0)%nat; [assumption | left; reflexivity].
    + assumption.
    + cbn [call_reduction_ratio call_in_planes].
      destruct Hr as [->|Hr]; [left; reflexivity | right; split; assumption].
    + unfold run_call in Hb;
        cbn [call_in_planes call_out_planes call_stride call_expand_ratio
             call_kernel_size call_reduction_ratio call_no_skip] in Hb.
      rewrite Hb; cbn [bind].
      apply IH; assumption.
Qed.

(** The outer loop either ends, or fails in [int(c * width_mult)] for a
    row [c] of the table. *)
Lemma stage_loop_outcome (width_mult : float)
    (rows : list (nat * (Z * Z * Z * Z * Z * Z))) :
  Forall row_ok rows ->
  forall (fs : list module) (in_channels : Z),
    Z.abs in_channels < 2 ^ emax ->
    match foldM (stage_body width_mult) rows (fs, in_channels) with
    | Ok _ => True
    | Raise e =>
        exists row, In row rows
                    /\ scaled (row_channels row) width_mult = Raise e
    end.
Proof.
  induction 1 as [|[i [[[[[t c] n] s] k] r]] rows Hrow _ IH];
    intros fs ic Hic; [exact I|].
  destruct Hrow as (Hs & Hk & Hr & q & mk & ek & Hc & Hq & Hmk & Hek).
  cbn [foldM]; unfold stage_body at 1.
  pose proof (scaled_outcome c q mk ek width_mult Hc Hq Hmk Hek) as Ho.
  destruct (scaled c width_mult) as [oc|e] eqn:Es; cbn [bind].
  - destruct (repeat_loop_total oc s t k r
                (if (i =? 0)%nat then true else false) (range n)
                Hs Hk Hr Ho fs ic Hic) as (fs' & ic' & -> & Hic').
    cbn [bind].
    specialize (IH fs' ic' Hic').
    destruct (foldM (stage_body width_mult) rows (fs', ic')); [exact I|].
    destruct IH as (row & Hin & Hrow).
    exists row; split; [right; exact Hin | exact Hrow].
  - eexists; split; [left; reflexivity | exact Es].
Qed.

Lemma settings_ok : Forall row_ok (enumerate settings).
Proof.
  cbv [enumerate settings length seq combine].
  repeat (apply Forall_cons;
          [ unfold row_ok;
            split; [cbn [In]; tauto|];
            split; [cbn [In]; tauto|];
            split; [first [left; reflexivity | right; lia]|];
            match goal with
            | |- exists q mk ek, float_of_int ?c = _ /\ _ =>
                exists (of_uint63 (Uint63.of_Z c)); eexists; eexists;
                split; [vm_compute; reflexivity|];
                split; [vm_compute; reflexivity|];
                split; vm_compute; discriminate
            end |]).
  apply Forall_nil.
Qed.

Lemma MnasNetA1_outcome (width_mult : float) (num_classes : Z) :
  match MnasNetA1 width_mult num_classes with
  | Ok _ => True
  | Raise e =>
      exists c, In c [32; 16; 24; 40; 80; 112; 160; 320]
                /\ scaled c width_mult = Raise e
  end.
Proof.
  unfold MnasNetA1.
  assert (H32 : exists q mk ek,
             float_of_int 32 = Ok (Prim2SF q)
             /\ Prim2SF q = S754_finite false mk ek
             /\ 2 ^ (prec - 1) <= Z.pos mk /\ ek <= 0).
  { exists 32%float; eexists; eexists.
    split; [vm_compute; reflexivity|];
      split; [vm_compute; reflexivity|]; split; vm_compute; discriminate. }
  destruct H32 as (q & mk & ek & Hc & Hq & Hmk & Hek).
  pose proof (scaled_outcome 32 q mk ek width_mult Hc Hq Hmk Hek) as Ho.
  destruct (scaled 32 width_mult) as [c0|e] eqn:E0; cbn [bind].
  2: { exists 32; split; [left; reflexivity | exact E0]. }
  pose proof (stage_loop_outcome width_mult (enumerate settings) settings_ok
                [ConvBNReLU 3 c0 3 2 1] c0 Ho) as Hl.
  destruct (foldM (stage_body width_mult) (enumerate settings)
              ([ConvBNReLU 3 c0 3 2 1], c0)) as [[fs ic]|e]; cbn [bind];
    [exact I|].
  destruct Hl as (row & Hin & Hrow).
  exists (row_channels row); split; [|exact Hrow].
  cbv [enumerate settings length seq combine] in Hin; cbn [In] in Hin.
  repeat (destruct Hin as [<-|Hin]; [cbn; tauto|]).
  contradiction.
Qed.


(** ** Products with a power of two are exact *)

Lemma round_units_power_of_two (ek : Z) (mw : positive) (ew : Z) :
  - (prec - 1) <= ek <= 0 -> emin <= ew -> Z.pos mw < 2 ^ prec ->
  round_units (ek + emin) 1 (2 ^ (prec - 1) * magnitude mw ew)
  = 2 ^ (prec - 1) * magnitude mw ew.
Proof.
  intros Hek Hew Hmw.
  assert (Hprec : prec = 53) by reflexivity.
  unfold round_units, magnitude.
  set (a := ew - emin).
  pose proof (pow2_pos a ltac:(unfold a; lia)) as HPa.
  pose proof (pow2_pos (prec - 1) ltac:(lia)) as HP52.
  set (M := 2 ^ (prec - 1) * (Z.pos mw * 2 ^ a)).
  assert (HM : 0 < M) by (unfold M; nia).
  set (K := grid_exponent (ek + emin) 1 M).
  assert (HK0 : 0 <= K) by (apply grid_exponent_nonneg; lia).
  assert (HK : K <= prec - 1 + a).
  { unfold K, grid_exponent; rewrite Z.div_1_r.
    assert (Zdigits2 M <= prec + (prec - 1 + a)).
    { apply Zdigits2_le; [lia | lia |].
      rewrite Z.pow_add_r by lia.
      unfold M; rewrite (Z.pow_add_r 2 (prec - 1) a) by lia. nia. }
    lia. }
  pose proof (pow2_pos K HK0) as HPK.
  assert (EM : M = Z.pos mw * 2 ^ (prec - 1 + a - K) * (1 * 2 ^ K)).
  { unfold M.
    replace (2 ^ (prec - 1) * (Z.pos mw * 2 ^ a))
      with (Z.pos mw * 2 ^ (prec - 1 + a)) by (rewrite Z.pow_add_r by lia; ring).
    replace (prec - 1 + a) with ((prec - 1 + a - K) + K) at 1 by lia.
    rewrite Z.pow_add_r by lia; ring. }
  rewrite EM at 1.
  rewrite rne_exact by lia.
  rewrite EM; ring.
Qed.

(** [int(c * width_mult)] for a power of two [c = 2 ^ p]: the integer
    part of the exact product. *)
Lemma scaled_power_of_two (c ek : Z) (w : float) (z : Z) :
  float_of_int c = Ok (S754_finite false (2 ^ 52) ek) ->
  - (prec - 1) <= ek <= 0 ->
  scaled c w = Ok z ->
  match Prim2SF w with
  | S754_zero _ => z = 0
  | S754_finite sw mw ew =>
      let t := 2 ^ (prec - 1) * magnitude mw ew / 2 ^ (- (ek + emin)) in
      z = if sw then - t else t
  | _ => False
  end.
Proof.
  intros Hc Hek Hz.
  assert (Hprec : prec = 53) by reflexivity.
  unfold scaled, of_float, py_mul in Hz.
  rewrite Hc in Hz; cbn [bind py_int] in Hz.
  pose proof (Prim2SF_valid w) as Hw.
  destruct (Prim2SF w) as [sw|sw| |sw mw ew].
  - cbn in Hz; apply Ok_inj in Hz; congruence.
  - discriminate Hz.
  - discriminate Hz.
  - pose proof (valid_finite sw mw ew Hw) as (Hew & Hmw & _).
    pose proof (mul_trunc_finite (2 ^ 52) mw ek ew sw z
                  ltac:(rewrite Hprec; cbn; lia) ltac:(lia) Hw Hz) as [_ Ez].
    change (Z.pos (2 ^ 52)) with (2 ^ (prec - 1)) in Ez.
    rewrite round_units_power_of_two in Ez by assumption.
    exact Ez.
Qed.

Lemma scaled_16_32 (w : float) (z32 z16 : Z) :
  scaled 32 w = Ok z32 -> scaled 16 w = Ok z16 -> z16 = Z.quot z32 2.
Proof.
  intros H32 H16.
  assert (Hprec : prec = 53) by reflexivity.
  assert (Hemin : emin = -1074) by reflexivity.
  pose proof (scaled_power_of_two 32 (-47) w z32 ltac:(reflexivity)
                ltac:(lia) H32) as E32.
  pose proof (scaled_power_of_two 16 (-48) w z16 ltac:(reflexivity)
                ltac:(lia) H16) as E16.
  destruct (Prim2SF w) as [sw|sw| |sw mw ew]; try contradiction.
  - subst; reflexivity.
  - cbv zeta in E32, E16.
    set (X := 2 ^ (prec - 1) * magnitude mw ew) in *.
    assert (HX : 0 <= X).
    { unfold X, magnitude.
      pose proof (Z.pow_nonneg 2 (prec - 1) ltac:(lia)).
      pose proof (Z.pow_nonneg 2 (ew - emin) ltac:(lia)). nia. }
    replace (- (-48 + emin)) with ((- (-47 + emin)) + 1) in E16 by lia.
    rewrite Z.pow_add_r, <- Z.div_div in E16 by lia.
    change (2 ^ 1) with 2 in E16.
    set (t := X / 2 ^ (- (-47 + emin))) in *.
    assert (Ht : 0 <= t) by (apply Z.div_pos; [lia | apply pow2_pos; lia]).
    destruct sw; subst.
    + rewrite Z.quot_opp_l by lia.
      rewrite Z.quot_div_nonneg by lia; reflexivity.
    + rewrite Z.quot_div_nonneg by lia; reflexivity.
Qed.

(** ** The first stage without its flag *)

(** X12.  The first stage without its flag.  The stem gives
    [int(32 * width_mult)] channels and the block of the first stage
    [int(16 * width_mult)]; both products are exact, so the second count is
    the first halved towards zero, and the two are equal only when both
    are 0.  Hence in every network whose stem has channels the block of the
    first stage changes the channel count, and the call with [no_skip]
    unset returns the very same block. *)
Theorem MnasNetA1_no_skip_redundant
    (width_mult : float) (num_classes : Z) (net : module) :
  MnasNetA1 width_mult num_classes = Ok net ->
  exists c0 c1 b0,
    scaled 32 width_mult = Ok c0 /\ scaled 16 width_mult = Ok c1 /\
    c1 = Z.quot c0 2 /\
    nth_error (children (features net)) 1 = Some b0 /\
    MBConvBlock c0 c1 1 (PyInt 1) 3 (PyInt 1) true = Ok b0 /\
    (c0 <> 0 ->
     c0 <> c1 /\
     MBConvBlock c0 c1 1 (PyInt 1) 3 (PyInt 1) default_no_skip = Ok b0).
Proof.
  intros E; apply MnasNetA1_blocks in E.
  destruct E as (c0 & c1 & c2 & c3 & c4 & c5 & c6 & c7 & stages
                 & H0 & H1 & _ & _ & _ & _ & _ & _ & Hs & ->).
  unroll_stage_calls Hs.
  inv_Forall2.
  match goal with
  | H : run_call (Build_block_call _ _ _ _ _ _ true) = Ok ?b |- _ =>
      exists c0, c1, b; rename H into Hb
  end.
  unfold run_call in Hb;
    cbn [call_in_planes call_out_planes call_stride call_expand_ratio
         call_kernel_size call_reduction_ratio call_no_skip] in Hb.
  pose proof (scaled_16_32 width_mult c0 c1 H0 H1) as Eq.
  split; [exact H0|]; split; [exact H1|]; split; [exact Eq|].
  split; [reflexivity|]; split; [exact Hb|].
  intros Hne.
  assert (Hc : c0 <> c1).
  { rewrite Eq; clear Eq; Z.quot_rem_to_equations; lia. }
  split; [exact Hc|].
  unfold MBConvBlock, default_no_skip in Hb |- *.
  cbn [in_list existsb Z.eqb Pos.eqb orb assert_ bind] in Hb |- *.
  destruct (MBConvBlock_layers c0 c1 1 (PyInt 1) 3 (PyInt 1)) as [ls|];
    [|discriminate Hb].
  cbn [bind] in Hb |- *; rewrite <- Hb.
  apply Z.eqb_neq in Hc; rewrite Hc; reflexivity.
Qed.

Lemma MnasNetA1_no_skip_redundant_witness :
  MnasNetA1 default_width_mult default_num_classes = Ok canonical_net /\
  exists c0 c1 b0,
    scaled 32 default_width_mult = Ok c0 /\
    scaled 16 default_width_mult = Ok c1 /\
    c1 = Z.quot c0 2 /\
    nth_error (children (features canonical_net)) 1 = Some b0 /\
    MBConvBlock c0 c1 1 (PyInt 1) 3 (PyInt 1) true = Ok b0 /\
    (c0 <> 0 ->
     c0 <> c1 /\
     MBConvBlock c0 c1 1 (PyInt 1) 3 (PyInt 1) default_no_skip = Ok b0).
Proof.
  split; [reflexivity|].
  apply (MnasNetA1_no_skip_redundant default_width_mult default_num_classes
           canonical_net).
  reflexivity.
Defined.

(** ** Non-negative width multipliers *)

Lemma scaled_nonneg (c : Z) (mk : positive) (ek : Z) (w : float) (z : Z) :
  float_of_int c = Ok (S754_finite false mk ek) ->
  2 ^ (prec - 1) <= Z.pos mk -> ek <= 0 ->
  (0 <=? w)%float = true -> scaled c w = Ok z -> 0 <= z.
Proof.
  intros Hc Hmk Hek Hw Hz.
  apply (scaled_mono c mk ek 0%float w 0 z Hc Hmk Hek Hw); [|exact Hz].
  unfold scaled, of_float, py_mul; rewrite Hc; reflexivity.
Qed.

Lemma Forall_allocatable_Sequential (ms : list module) :
  Forall allocatable ms -> allocatable (Sequential ms).
Proof.
  unfold allocatable; cbn [parameters].
  induction 1 as [|m ms Hm _ IH]; cbn [flat_map]; [constructor|].
  apply Forall_app; split; assumption.
Qed.

Lemma MnasNetA1_allocatable (f a c : module) :
  allocatable f -> allocatable a -> allocatable c ->
  allocatable (mkMnasNetA1 f a c).
Proof.
  unfold allocatable; cbn [parameters]; intros Hf Ha Hc.
  apply Forall_app; split; [assumption|].
  apply Forall_app; split; assumption.
Qed.

Lemma ConvBNReLU_allocatable (i o k s g : Z) :
  0 <= i -> 0 <= o -> 0 <= k -> 0 <= g -> allocatable (ConvBNReLU i o k s g).
Proof.
  intros Hi Ho Hk Hg.
  assert (0 <= i / g).
  { destruct (Z.eq_dec g 0) as [->|]; [rewrite Z.div_0_r; lia|].
    apply Z.div_pos; lia. }
  unfold allocatable, ConvBNReLU; cbn [parameters flat_map app].
  repeat constructor; assumption.
Qed.


Lemma run_call_allocatable (c : block_call) (b : module) :
  run_call c = Ok b ->
  0 <= call_in_planes c -> 0 <= call_out_planes c ->
  0 <= call_expand_ratio c ->
  allocatable b.
Proof.
  destruct c as [i o s t k r ns]; unfold run_call;
    cbn [call_in_planes call_out_planes call_stride call_expand_ratio
         call_kernel_size call_reduction_ratio call_no_skip].
  intros E Hi Ho Ht; apply MBConvBlock_Ok_inv in E.
  destruct E as (_ & Hk & h & se & Hh & Hse & ->).
  cbn in Hh; apply Ok_inj in Hh; subst h.
  assert (Hh : 0 <= i * t) by nia.
  assert (Hk0 : 0 <= k) by (destruct Hk as [<-|[<-|[]]]; lia).
  change (allocatable
            (Sequential
               ((if i =? i * t then [] else [ConvBNReLU i (i * t) 1 1 1])
                ++ ConvBNReLU (i * t) (i * t) k s (i * t)
                :: se
                ++ [Conv2d (i * t) o 1 1 0 1 false; BatchNorm2d o]))).
  apply Forall_allocatable_Sequential.
  apply Forall_app; split.
  - destruct (i =? i * t); constructor; [|constructor].
    apply ConvBNReLU_allocatable; lia.
  - constructor; [apply ConvBNReLU_allocatable; lia|].
    apply Forall_app; split.
    + destruct Hse as [(_ & rd & Hrd & ->) | (_ & ->)]; [|constructor].
      apply reduced_dim_of_positive in Hrd.
      constructor; [|constructor].
      unfold allocatable, SqueezeExcitation; cbn [parameters flat_map app].
      rewrite !Z.div_1_r.
      repeat constructor; lia.
    + constructor; [|constructor; [|constructor]].
      * unfold allocatable; cbn [parameters]; rewrite Z.div_1_r.
        repeat constructor; lia.
      * unfold allocatable; cbn [parameters]; repeat constructor; lia.
Qed.

Lemma blocks_allocatable (calls : list block_call) (bs : list module) :
  Forall2 (fun c b => run_call c = Ok b) calls bs ->
  Forall (fun c => 0 <= call_in_planes c /\ 0 <= call_out_planes c
                   /\ 0 <= call_expand_ratio c) calls ->
  Forall allocatable bs.
Proof.
  induction 1 as [|c b calls bs Hr _ IH]; intros Hc; constructor;
    inversion Hc as [|? ? (Hi & Ho & Ht) Hrest]; subst.
  - eapply run_call_allocatable; eassumption.
  - apply IH; assumption.
Qed.

Lemma stages_allocatable (calls : list (list block_call))
    (stages : list (list module)) :
  Forall2 (Forall2 (fun c b => run_call c = Ok b)) calls stages ->
  Forall (fun c => 0 <= call_in_planes c /\ 0 <= call_out_planes c
                   /\ 0 <= call_expand_ratio c) (concat calls) ->
  Forall allocatable (concat stages).
Proof.
  induction 1 as [|cs bs calls stages Hr _ IH]; intros Hc; cbn [concat] in *.
  - constructor.
  - apply Forall_app in Hc; destruct Hc as [Hc1 Hc2].
    apply Forall_app; split;
      [eapply blocks_allocatable; eassumption | apply IH; assumption].
Qed.

(** X13.  Non-negative width multipliers.  For [0 <= w1 <= w2] and a
    class count that is not negative, the network built with [w1] asks for
    no parameter tensor of negative extent, and it has at most as many
    parameters as the network built with [w2]. *)
Theorem MnasNetA1_nonnegative_width
    (w1 w2 : float) (num_classes : Z) (net1 net2 : module) :
  0 <= num_classes ->
  (0 <=? w1)%float = true -> (w1 <=? w2)%float = true ->
  MnasNetA1 w1 num_classes = Ok net1 ->
  MnasNetA1 w2 num_classes = Ok net2 ->
  allocatable net1 /\ numel net1 <= numel net2.
Proof.
  intros Hnc Hw1 Hle E1 E2.
  apply MnasNetA1_blocks in E1.
  destruct E1 as (c0 & c1 & c2 & c3 & c4 & c5 & c6 & c7 & stages1
                  & Hc0 & Hc1 & Hc2 & Hc3 & Hc4 & Hc5 & Hc6 & Hc7 & Hs1 & ->).
  apply MnasNetA1_blocks in E2.
  destruct E2 as (d0 & d1 & d2 & d3 & d4 & d5 & d6 & d7 & stages2
                  & Hd0 & Hd1 & Hd2 & Hd3 & Hd4 & Hd5 & Hd6 & Hd7 & Hs2 & ->).
  assert (L0 : c0 <= d0) by scaled_le 32 Hc0 Hd0 Hle.
  assert (L1 : c1 <= d1) by scaled_le 16 Hc1 Hd1 Hle.
  assert (L2 : c2 <= d2) by scaled_le 24 Hc2 Hd2 Hle.
  assert (L3 : c3 <= d3) by scaled_le 40 Hc3 Hd3 Hle.
  assert (L4 : c4 <= d4) by scaled_le 80 Hc4 Hd4 Hle.
  assert (L5 : c5 <= d5) by scaled_le 112 Hc5 Hd5 Hle.
  assert (L6 : c6 <= d6) by scaled_le 160 Hc6 Hd6 Hle.
  assert (L7 : c7 <= d7) by scaled_le 320 Hc7 Hd7 Hle.
  assert (N0 : 0 <= c0)
    by (eapply (scaled_nonneg 32); [vm_compute; reflexivity
          | vm_compute; discriminate | vm_compute; discriminate
          | exact Hw1 | exact Hc0]).
  assert (N1 : 0 <= c1)
    by (eapply (scaled_nonneg 16); [vm_compute; reflexivity
          | vm_compute; discriminate | vm_compute; discriminate
          | exact Hw1 | exact Hc1]).
  assert (N2 : 0 <= c2)
    by (eapply (scaled_nonneg 24); [vm_compute; reflexivity
          | vm_compute; discriminate | vm_compute; discriminate
          | exact Hw1 | exact Hc2]).
  assert (N3 : 0 <= c3)
    by (eapply (scaled_nonneg 40); [vm_compute; reflexivity
          | vm_compute; discriminate | vm_compute; discriminate
          | exact Hw1 | exact Hc3]).
  assert (N4 : 0 <= c4)
    by (eapply (scaled_nonneg 80); [vm_compute; reflexivity
          | vm_compute; discriminate | vm_compute; discriminate
          | exact Hw1 | exact Hc4]).
  assert (N5 : 0 <= c5)
    by (eapply (scaled_nonneg 112); [vm_compute; reflexivity
          | vm_compute; discriminate | vm_compute; discriminate
          | exact Hw1 | exact Hc5]).
  assert (N6 : 0 <= c6)
    by (eapply (scaled_nonneg 160); [vm_compute; reflexivity
          | vm_compute; discriminate | vm_compute; discriminate
          | exact Hw1 | exact Hc6]).
  assert (N7 : 0 <= c7)
    by (eapply (scaled_nonneg 320); [vm_compute; reflexivity
          | vm_compute; discriminate | vm_compute; discriminate
          | exact Hw1 | exact Hc7]).
  split.
  - apply MnasNetA1_allocatable.
    + apply Forall_allocatable_Sequential.
      constructor; [apply ConvBNReLU_allocatable; lia|].
      apply Forall_app; split.
      * eapply stages_allocatable; [exact Hs1|].
        cbv [enumerate settings length seq combine stage_calls range Z.to_nat
             Pos.to_nat Pos.iter_op Nat.add repeat_calls after_repeat Nat.eqb
             concat app].
        repeat constructor;
          cbn [call_in_planes call_out_planes call_expand_ratio]; lia.
      * constructor; [apply ConvBNReLU_allocatable; lia | constructor].
    + constructor.
    + unfold allocatable; cbn [flat_map parameters app];
        repeat constructor; lia.
  - assert (Hblocks : numel_list (concat stages1)
                      <= numel_list (concat stages2)).
    { eapply stages_numel_mono; [|exact Hs1 | exact Hs2].
      cbv [enumerate settings length seq combine stage_calls range Z.to_nat
           Pos.to_nat Pos.iter_op Nat.add repeat_calls after_repeat Nat.eqb].
      repeat constructor;
        cbn [call_in_planes call_out_planes call_stride call_expand_ratio
             call_kernel_size call_reduction_ratio]; lia. }
    rewrite !numel_MnasNetA1, !numel_Sequential, !numel_list_cons,
      !numel_list_app, !numel_list_cons, !numel_list_nil, !numel_ConvBNReLU,
      !Z.div_1_r.
    nia.
Qed.

Lemma MnasNetA1_nonnegative_width_witness :
  0 <= default_num_classes /\
  (0 <=? 0.5)%float = true /\ (0.5 <=? 1)%float = true /\
  MnasNetA1 0.5 default_num_classes = Ok half_net /\
  MnasNetA1 1 default_num_classes = Ok canonical_net /\
  allocatable half_net /\ numel half_net <= numel canonical_net.
Proof.
  split; [discriminate|]; split; [reflexivity|]; split; [reflexivity|].
  split; [reflexivity|]; split; [reflexivity|].
  apply (MnasNetA1_nonnegative_width 0.5 1 default_num_classes half_net
           canonical_net); first [discriminate | reflexivity].
Defined.

(** ** The entry point *)

(** [main] prints the shape of the output for one image and the parameter
    count of the network. *)
Example main_prints :
  main = Ok [PrintedSize [1; 1000]; PrintedInt 3887038].
Proof. reflexivity. Qed.

(** ** What the framework builds *)

Lemma constructible_intro (capacity : Z) (m : module) :
  groups_ok m = true -> allocatable m -> fits capacity m ->
  constructible capacity m = true.
Proof.
  unfold constructible, allocatable, fits; intros -> Ha Hf; cbn [andb].
  rewrite Forall_forall in Ha, Hf.
  apply forallb_forall; intros p Hp.
  unfold creatable; apply andb_true_iff; split.
  - specialize (Ha p Hp); rewrite Forall_forall in Ha.
    apply forallb_forall; intros d Hd; apply Z.leb_le, Ha, Hd.
  - apply Z.leb_le, Hf, Hp.
Qed.

Lemma groups_ok_ConvBNReLU (i o k s g : Z) :
  0 < g -> i mod g = 0 -> o mod g = 0 ->
  groups_ok (ConvBNReLU i o k s g) = true.
Proof.
  intros Hg Hi Ho; unfold ConvBNReLU; cbn [groups_ok forallb].
  apply Z.ltb_lt in Hg; rewrite Hg, Hi, Ho; reflexivity.
Qed.

Lemma groups_ok_SqueezeExcitation (num_features reduced_dim : Z) :
  groups_ok (SqueezeExcitation num_features reduced_dim) = true.
Proof.
  unfold SqueezeExcitation; cbn [groups_ok forallb].
  rewrite !Z.mod_1_r; reflexivity.
Qed.

(** A block on a positive hidden dimension asks for no convolution the
    framework refuses for its groups: the depthwise convolution has as many
    groups as channels, every other one a single group. *)
Lemma block_groups_ok
    (in_planes out_planes stride : Z) (expand_ratio : num)
    (kernel_size : Z) (reduction_ratio : num) (no_skip : bool) (b : module)
    (hidden_dim : Z) :
  MBConvBlock in_planes out_planes stride expand_ratio kernel_size
              reduction_ratio no_skip = Ok b ->
  hidden_dim_of in_planes expand_ratio = Ok hidden_dim ->
  0 < hidden_dim ->
  groups_ok b = true.
Proof.
  intros E Hh Hpos; apply MBConvBlock_Ok_inv in E.
  destruct E as (_ & _ & h & se & Hh' & Hse & ->).
  assert (h = hidden_dim) by congruence; subst h.
  cbn [groups_ok]; rewrite forallb_app.
  apply andb_true_iff; split.
  - destruct (in_planes =? hidden_dim); cbn [forallb]; [reflexivity|].
    rewrite groups_ok_ConvBNReLU by (first [lia | apply Z.mod_1_r]).
    reflexivity.
  - cbn [forallb].
    rewrite groups_ok_ConvBNReLU
      by (first [assumption | apply Z.mod_same; lia]).
    rewrite forallb_app; cbn [andb forallb groups_ok].
    rewrite !Z.mod_1_r.
    destruct Hse as [(_ & rd & _ & ->) | (_ & ->)]; cbn [forallb];
      [rewrite groups_ok_SqueezeExcitation|]; reflexivity.
Qed.

Lemma run_call_groups_ok (c : block_call) (b : module) :
  run_call c = Ok b ->
  0 < call_in_planes c -> 1 <= call_expand_ratio c ->
  groups_ok b = true.
Proof.
  intros E Hi Ht; unfold run_call in E.
  apply (block_groups_ok _ _ _ _ _ _ _ _
           (call_in_planes c * call_expand_ratio c) E); [reflexivity | nia].
Qed.

Lemma stages_groups_ok (calls : list (list block_call))
    (stages : list (list module)) :
  Forall2 (Forall2 (fun c b => run_call c = Ok b)) calls stages ->
  Forall (fun c => 0 < call_in_planes c /\ 1 <= call_expand_ratio c)
         (concat calls) ->
  forallb groups_ok (concat stages) = true.
Proof.
  induction 1 as [|cs bs calls stages Hr _ IH]; intros Hc; cbn [concat] in *;
    [reflexivity|].
  apply Forall_app in Hc; destruct Hc as [Hc1 Hc2].
  rewrite forallb_app, IH by assumption.
  rewrite andb_true_r.
  clear IH Hc2; induction Hr as [|c b cs bs Hcb _ IH]; [reflexivity|].
  inversion Hc1 as [|? ? (Hi & Ht) Hrest]; subst.
  cbn [forallb]; rewrite (run_call_groups_ok c b Hcb Hi Ht), IH by assumption.
  reflexivity.
Qed.

(** The network on positive channel counts and a class count that is not
    negative: every group count is valid and no tensor has a negative
    extent. *)
Lemma MnasNetA1_checks (width_mult : float) (num_classes : Z) (net : module) :
  MnasNetA1 width_mult num_classes = Ok net ->
  0 <= num_classes ->
  Forall (fun c => exists z, scaled c width_mult = Ok z /\ 0 < z)
         [32; 16; 24; 40; 80; 112; 160; 320] ->
  groups_ok net = true /\ allocatable net.
Proof.
  intros E Hnc Hpos; apply MnasNetA1_blocks in E.
  destruct E as (c0 & c1 & c2 & c3 & c4 & c5 & c6 & c7 & stages
                 & H0 & H1 & H2 & H3 & H4 & H5 & H6 & H7 & Hs & ->).
  repeat match goal with
         | H : Forall _ (_ :: _) |- _ => inversion H; subst; clear H
         end.
  repeat match goal with
         | H : exists z, scaled _ _ = Ok z /\ _ |- _ =>
             let z := fresh "z" in
             let Hz := fresh "Hz" in
             let Hp := fresh "Hp" in
             destruct H as (z & Hz & Hp);
             first [ rewrite H0 in Hz | rewrite H1 in Hz | rewrite H2 in Hz
                   | rewrite H3 in Hz | rewrite H4 in Hz | rewrite H5 in Hz
                   | rewrite H6 in Hz | rewrite H7 in Hz ];
             apply Ok_inj in Hz; subst z
         end.
  split.
  - cbn [groups_ok forallb]; rewrite forallb_app.
    rewrite groups_ok_ConvBNReLU by (first [lia | apply Z.mod_1_r]).
    rewrite (stages_groups_ok _ stages Hs).
    + cbn [forallb andb].
      rewrite groups_ok_ConvBNReLU by (first [lia | apply Z.mod_1_r]).
      reflexivity.
    + cbv [enumerate settings length seq combine stage_calls range Z.to_nat
           Pos.to_nat Pos.iter_op Nat.add repeat_calls after_repeat Nat.eqb
           concat app].
      repeat constructor;
        cbn [call_in_planes call_out_planes call_expand_ratio]; lia.
  - apply MnasNetA1_allocatable.
    + apply Forall_allocatable_Sequential.
      constructor; [apply ConvBNReLU_allocatable; lia|].
      apply Forall_app; split.
      * eapply stages_allocatable; [exact Hs|].
        cbv [enumerate settings length seq combine stage_calls range Z.to_nat
             Pos.to_nat Pos.iter_op Nat.add repeat_calls after_repeat Nat.eqb
             concat app].
        repeat constructor;
          cbn [call_in_planes call_out_planes call_expand_ratio]; lia.
      * constructor; [apply ConvBNReLU_allocatable; lia | constructor].
    + constructor.
    + unfold allocatable; cbn [flat_map parameters app];
        repeat constructor; lia.
Qed.

(** X11.  How [MnasNetA1.__init__] fails and when it returns.  The
    assertions of the blocks never fire, whatever the width multiplier: the
    strides and kernel sizes of [settings] pass them.  The first statement
    converts [int(32 * width_mult)] before any layer is asked for: if that
    fails the constructor raises the same exception, which is [ValueError]
    exactly when the width multiplier is NaN and [OverflowError] otherwise
    (an infinite product).  And when all eight conversions
    [int(c * width_mult)] succeed with positive results and the class count
    is not negative, every statement of the constructor succeeds (no
    quotient [in_planes / r] fails), and every layer it asks the framework
    for passes the checks of its constructor on a machine that can hold the
    parameter tensors: all group counts are positive and divide their
    channel counts, and no tensor has a negative extent. *)
Theorem MnasNetA1_construction
    (capacity : Z) (width_mult : float) (num_classes : Z) :
  MnasNetA1 width_mult num_classes <> Raise AssertionError
  /\ (forall e, scaled 32 width_mult = Raise e ->
       MnasNetA1 width_mult num_classes = Raise e
       /\ (e = ValueError /\ Prim2SF width_mult = S754_nan
           \/ e = OverflowError /\ Prim2SF width_mult <> S754_nan))
  /\ (Prim2SF width_mult = S754_nan ->
      MnasNetA1 width_mult num_classes = Raise ValueError)
  /\ (0 <= num_classes ->
      Forall (fun c => exists z, scaled c width_mult = Ok z /\ 0 < z)
             [32; 16; 24; 40; 80; 112; 160; 320] ->
      exists net,
        MnasNetA1 width_mult num_classes = Ok net
        /\ (fits capacity net -> constructible capacity net = true)).
Proof.
  pose proof (MnasNetA1_outcome width_mult num_classes) as Ho.
  assert (H32 : forall e,
             scaled 32 width_mult = Raise e ->
             (e = ValueError /\ Prim2SF width_mult = S754_nan)
             \/ (e = OverflowError /\ Prim2SF width_mult <> S754_nan)).
  { intros e Hc.
    pose proof (scaled_outcome 32 32%float _ _ width_mult
                  ltac:(vm_compute; reflexivity)
                  ltac:(vm_compute; reflexivity)
                  ltac:(vm_compute; discriminate)
                  ltac:(vm_compute; discriminate)) as H.
    rewrite Hc in H; exact H. }
  split; [|split; [|split]].
  - intros E; rewrite E in Ho.
    destruct Ho as (c & Hin & Hc).
    assert (Hq : exists q mk ek,
               float_of_int c = Ok (Prim2SF q)
               /\ Prim2SF q = S754_finite false mk ek
               /\ 2 ^ (prec - 1) <= Z.pos mk /\ ek <= 0).
    { cbn [In] in Hin.
      repeat (destruct Hin as [<-|Hin];
              [ match goal with
                | |- exists q mk ek, float_of_int ?c = _ /\ _ =>
                    exists (of_uint63 (Uint63.of_Z c)); eexists; eexists;
                    split; [vm_compute; reflexivity|];
                    split; [vm_compute; reflexivity|];
                    split; vm_compute; discriminate
                end |]).
      contradiction. }
    destruct Hq as (q & mk & ek & Hc' & Hq & Hmk & Hek).
    pose proof (scaled_outcome c q mk ek width_mult Hc' Hq Hmk Hek) as H.
    rewrite Hc in H; destruct H as [[H _]|[H _]]; discriminate H.
  - intros e Hc; split; [|exact (H32 e Hc)].
    unfold MnasNetA1; rewrite Hc; reflexivity.
  - intros Hn; unfold MnasNetA1.
    rewrite (scaled_nan 32 32%float _ _ width_mult
               ltac:(vm_compute; reflexivity) ltac:(vm_compute; reflexivity)
               Hn).
    reflexivity.
  - intros Hnc Hall.
    destruct (MnasNetA1 width_mult num_classes) as [net|e] eqn:E.
    + exists net; split; [reflexivity|].
      intros Hfit.
      destruct (MnasNetA1_checks width_mult num_classes net E Hnc Hall)
        as (Hg & Ha).
      apply constructible_intro; assumption.
    + destruct Ho as (c & Hin & Hc).
      rewrite Forall_forall in Hall.
      destruct (Hall c Hin) as (z & Hz & _); congruence.
Qed.

(** A NaN, an infinite and a huge width multiplier. *)
Example construction_failures :
  MnasNetA1 nan default_num_classes = Raise ValueError
  /\ MnasNetA1 infinity default_num_classes = Raise OverflowError
  /\ MnasNetA1 0x1p+1020 default_num_classes = Raise OverflowError
  /\ scaled 32 0x1p+1020 = Raise OverflowError.
Proof. repeat split; reflexivity. Qed.

(** The default network is built on a machine that holds tensors of
    [2 ^ 31] elements; a negative class count is refused by the
    classifier; and with a width multiplier of 0 the first block asks for
    a depthwise convolution in 0 groups. *)
Example construction_checks :
  constructible (2 ^ 31) canonical_net = true
  /\ (m <- MnasNetA1 1 (-5) ;; Ok (constructible (2 ^ 31) m)) = Ok false
  /\ (m <- MnasNetA1 0 default_num_classes ;; Ok (groups_ok m)) = Ok false
  /\ Linear_init (2 ^ 31) 1280 (-5) = Raise RuntimeError.
Proof. repeat split; reflexivity. Qed.

(** ** A block with integer ratios *)

Lemma block_zero_ratio
    (in_planes out_planes stride : Z) (expand_ratio : num)
    (kernel_size : Z) (no_skip : bool) (b : module) :
  MBConvBlock in_planes out_planes stride expand_ratio kernel_size (PyInt 0)
              no_skip <> Ok b.
Proof.
  intros E; apply MBConvBlock_Ok_inv in E.
  destruct E as (_ & _ & h & se & _ & Hse & _).
  destruct Hse as [(_ & rd & Hrd & _) | (Hne & _)];
    [discriminate Hrd | discriminate Hne].
Qed.

(** X14.  [MBConvBlock.__init__] with integer ratios, a stride and a
    kernel size that pass the assertions, and positive channel counts.
    With a reduction ratio other than 0, negative ones included, every
    statement of the constructor succeeds, and every layer it asks the
    framework for passes the checks of its constructor on a machine that
    can hold the parameter tensors.  With the reduction ratio 0 no block is
    returned: 0 differs from 1, so the gate is asked for and the quotient
    [in_planes / reduction_ratio] cannot be formed. *)
Theorem MBConvBlock_integer_ratios
    (capacity in_planes out_planes stride expand_ratio kernel_size
     reduction_ratio : Z) (no_skip : bool) :
  In stride [1; 2] -> In kernel_size [3; 5] ->
  0 < in_planes < 2 ^ 1023 -> 0 < out_planes -> 0 < expand_ratio ->
  reduction_ratio <> 0 ->
  (exists b,
     MBConvBlock in_planes out_planes stride (PyInt expand_ratio) kernel_size
                 (PyInt reduction_ratio) no_skip = Ok b
     /\ (fits capacity b -> constructible capacity b = true))
  /\ (forall b,
        MBConvBlock in_planes out_planes stride (PyInt expand_ratio)
                    kernel_size (PyInt 0) no_skip <> Ok b).
Proof.
  intros Hs Hk Hi Ho Ht Hr; split; [|intros b; apply block_zero_ratio].
  set (c := {| call_in_planes := in_planes; call_out_planes := out_planes;
               call_stride := stride; call_expand_ratio := expand_ratio;
               call_kernel_size := kernel_size;
               call_reduction_ratio := reduction_ratio;
               call_no_skip := no_skip |}).
  change (exists b, run_call c = Ok b
                    /\ (fits capacity b -> constructible capacity b = true)).
  assert (Hb : exists b, run_call c = Ok b).
  { unfold run_call, c;
      cbn [call_in_planes call_out_planes call_stride call_expand_ratio
           call_kernel_size call_reduction_ratio call_no_skip].
    unfold MBConvBlock.
    apply in_list_In in Hs, Hk; rewrite Hs, Hk; cbn [assert_ bind].
    unfold MBConvBlock_layers, hidden_dim_of; cbn [py_mul bind py_int py_ne_1].
    destruct (Z.eqb_spec reduction_ratio 1) as [->|Hr1]; cbn [negb bind].
    { eexists; reflexivity. }
    assert (Hemax : emax = 1024) by reflexivity.
    assert (Hsmall : Z.abs in_planes
                     < Z.abs reduction_ratio * 2 ^ (emax - 1)).
    { rewrite Hemax; change (1024 - 1) with 1023.
      pose proof (pow2_pos 1023 ltac:(lia)).
      assert (1 <= Z.abs reduction_ratio) by lia.
      rewrite Z.abs_eq by lia. nia. }
    destruct (int_true_divide_number in_planes reduction_ratio Hr Hsmall)
      as (f & Hf & Hn).
    destruct (int_of_float_number f Hn) as (z & Hz).
    unfold reduced_dim_of, py_truediv; rewrite Hf; cbn [bind py_int].
    rewrite Hz; cbn [bind]; eexists; reflexivity. }
  destruct Hb as (b & Hb); exists b; split; [exact Hb|].
  intros Hfit; apply constructible_intro; [| |exact Hfit].
  - apply (run_call_groups_ok c b Hb); cbn; lia.
  - apply (run_call_allocatable c b Hb); cbn; lia.
Qed.

Lemma MBConvBlock_integer_ratios_witness :
  (exists b,
     MBConvBlock 24 40 2 (PyInt 3) 5 (PyInt 4) default_no_skip = Ok b
     /\ (fits (2 ^ 31) b -> constructible (2 ^ 31) b = true))
  /\ (forall b,
        MBConvBlock 24 40 2 (PyInt 3) 5 (PyInt 0) default_no_skip <> Ok b).
Proof.
  apply (MBConvBlock_integer_ratios (2 ^ 31) 24 40 2 3 5 4 default_no_skip);
    cbn [In]; first [tauto | lia | discriminate].
Defined.

(** The gated block of the third stage is built; a reduction ratio of 0
    passes the assertions and fails in the division; a negative one yields
    the least reduced dimension. *)
Example reduction_ratio_edge :
  constructible (2 ^ 31) gated_block = true
  /\ MBConvBlock 24 40 2 (PyInt 3) 5 (PyInt 0) default_no_skip
     = Raise ZeroDivisionError
  /\ reduced_dim_of 24 (PyInt (-4)) = Ok 1.
Proof. repeat split; reflexivity. Qed.
